(** * texar.data.data.data_base: data sources, the cached source and the
      [DataBase] caching engine

    A shallow embedding of [src/texar/data/data/data_base.py].

    Modelling conventions.
    - Python objects handled by the pipeline (raw and processed examples) are
      values of one type [Obj]: the type variables [RawExample] and [Example]
      of the source are erased at run time, and [DataBase.__getitem__] may
      hand back either kind.
    - Python [int]s are [Z]; [list]s are [list Obj] with CPython's index
      normalisation (negative indices count from the end); [dict]s with
      integer keys are [gmap Z Obj].
    - A method that may raise returns a [result]; a method that mutates its
      receiver also returns the receiver's new state, which is kept when the
      method raises.
    - An iterator over a finite source is the list of the elements it will
      still yield, followed by the signal that ends it.  Generator bodies
      follow PEP 479: a [StopIteration] that escapes the body reaches the
      consumer as [RuntimeError].  Endless generators are outside the
      model.
    - An [IterDataSource] holds what its iterable yields; [DataSource_iter]
      is an iteration from the first of these elements.  That is every
      iteration of an iterable that can be iterated again, and the first
      iteration of an iterator or a generator, which hands the same, partly
      consumed object to every later [iter].  The one place where a source
      is iterated a second time is [reset]: [reset] and [_start_iteration]
      take the iteration from the start, [reset_to] and
      [_start_iteration_to] take the iterator obtained as an argument.
    - The methods of a cached source ([prefetch], [reset], [max_index]) are
      defined on the cached source itself; the delegation of
      [_TransformedDataSource.__getattr__] is part of [at_cached_source],
      through which the engine calls them.
    - The builtin [len] rejects a negative answer; the [OverflowError] for
      an answer of 2^63 or more is outside the model.
    - [ZipDataSource] and [RecordDataSource] build tuples and dictionaries
      of examples.  They are modelled apart from the other sources, over a
      list of sources: a tuple is the list of its components, a dictionary
      the list of its items in insertion order.  The engine is not run over
      them. *)

From stdpp Require Import gmap list.
From Stdlib Require Import ZArith Lia.

Local Open Scope Z_scope.

(** ** Exceptions and results *)

Inductive exn : Set :=
| TypeError
| IndexError
| KeyError
| StopIteration
| RuntimeError
| ValueError
| AttributeError.

Inductive result (A : Type) : Type :=
| Ok (a : A)
| Raise (e : exn).

Arguments Ok {A} a.
Arguments Raise {A} e.

Definition result_map {A B : Type} (f : A -> B) (r : result A) : result B :=
  match r with
  | Ok a => Ok (f a)
  | Raise e => Raise e
  end.

(** State-and-exception computations over a receiver of type [S]. *)
Definition M (S A : Type) : Type := S -> result A * S.

(** ** Python sequences *)

Section PyList.
Context {A : Type}.

Definition len (l : list A) : Z := Z.of_nat (length l).

(** CPython's normalisation of a subscript against a length [n]. *)
Definition norm_index (n i : Z) : option nat :=
  let k := if i <? 0 then i + n else i in
  if (0 <=? k) && (k <? n) then Some (Z.to_nat k) else None.

(** [l[i]] *)
Definition list_getitem (l : list A) (i : Z) : result A :=
  match norm_index (len l) i with
  | Some k =>
      match l !! k with
      | Some x => Ok x
      | None => Raise IndexError
      end
  | None => Raise IndexError
  end.

(** [l[i] = x] *)
Definition list_setitem (l : list A) (i : Z) (x : A) : result (list A) :=
  match norm_index (len l) i with
  | Some k => Ok (<[k:=x]> l)
  | None => Raise IndexError
  end.

(** [del l[i]] *)
Definition list_delitem (l : list A) (i : Z) : result (list A) :=
  match norm_index (len l) i with
  | Some k => Ok (delete k l)
  | None => Raise IndexError
  end.
End PyList.

(** The builtin [len(obj)]: calls [obj.__len__()] and rejects a negative
    answer. *)
Definition builtin_len (r : result Z) : result Z :=
  match r with
  | Ok n => if n <? 0 then Raise ValueError else Ok n
  | Raise e => Raise e
  end.

(** ** Strategies

    Modelled from the spec: the enumerations [_LazyStrategy] and
    [_CacheStrategy] are imported from [texar.data.data.dataset_utils], which
    is not part of the sources at hand; the spec lists their values:
    laziness in {none, process, all}, cache in {none, loaded, processed}. *)

Inductive _LazyStrategy : Set := LazyNONE | LazyPROCESS | LazyALL.
Inductive _CacheStrategy : Set := CacheNONE | CacheLOADED | CachePROCESSED.

#[global] Instance _LazyStrategy_eq_dec : EqDecision _LazyStrategy.
Proof. solve_decision. Defined.
#[global] Instance _CacheStrategy_eq_dec : EqDecision _CacheStrategy.
Proof. solve_decision. Defined.
#[global] Instance exn_eq_dec : EqDecision exn.
Proof. solve_decision. Defined.

(** Messages passed to [warnings.warn]. *)
Inductive Warning : Set :=
| WarnNoneLazy (requested : _CacheStrategy)
    (* "Using '{cache}' cache strategy with 'none' lazy strategy. ..." *)
| WarnProcessLazyNoneCache
    (* "Using 'none' cache strategy with 'process' lazy strategy. ..." *)
| WarnMoreThan (max_index : Z)
    (* "The data source contains more than {max_index} examples. ..." *)
| WarnNoRandomAccess.
    (* "The provided data source does not support random access. ..." *)

(** The hyperparameters read by [DataBase.__init__]. *)
Record HParams : Set := {
  num_parallel_calls : Z;
  max_dataset_size : Z;
  lazy_strategy : _LazyStrategy;
  cache_strategy : _CacheStrategy;
  parallelize_processing : bool;
}.

(** [DataBase.default_hparams()] restricted to those fields. *)
Definition default_hparams : HParams :=
  {| num_parallel_calls := 1;
     max_dataset_size := -1;
     lazy_strategy := LazyNONE;
     cache_strategy := CachePROCESSED;
     parallelize_processing := true |}.

Section Sources.
Variable Obj : Type.

(** ** Iterators *)

Record iterator : Type := {
  pending : list Obj;   (* elements still to be yielded, in order *)
  final : exn;          (* what is raised once they are used up *)
}.

Definition exhausted : iterator :=
  {| pending := []; final := StopIteration |}.

(** [next(it)]: an iterator that has raised keeps raising
    [StopIteration]. *)
Definition next (it : iterator) : result Obj * iterator :=
  match pending it with
  | x :: rest => (Ok x, {| pending := rest; final := final it |})
  | [] => (Raise (final it), exhausted)
  end.

(** Running an iterator to its end, as a [for] loop or a comprehension
    does: [StopIteration] ends the loop, anything else propagates. *)
Definition consume (it : iterator) : result (list Obj) :=
  match final it with
  | StopIteration => Ok (pending it)
  | e => Raise e
  end.

(** ** The buffer of a cached source:
    [_cache: Union[Dict[int, RawExample], List[RawExample]]] *)

Inductive Cache : Type :=
| DictCache (d : gmap Z Obj)
| ListCache (l : list Obj).

(** [cache[index]] *)
Definition cache_getitem (c : Cache) (index : Z) : result Obj :=
  match c with
  | DictCache d =>
      match d !! index with
      | Some x => Ok x
      | None => Raise KeyError
      end
  | ListCache l => list_getitem l index
  end.

(** [del cache[index]] *)
Definition cache_delitem (c : Cache) (index : Z) : result Cache :=
  match c with
  | DictCache d =>
      match d !! index with
      | Some _ => Ok (DictCache (delete index d))
      | None => Raise KeyError
      end
  | ListCache l => result_map ListCache (list_delitem l index)
  end.

(** [cache[index] = example] *)
Definition cache_setitem (c : Cache) (index : Z) (example : Obj)
  : result Cache :=
  match c with
  | DictCache d => Ok (DictCache (<[index:=example]> d))
  | ListCache l => result_map ListCache (list_setitem l index example)
  end.

(** [cache.append(example)]: a [dict] has no such method. *)
Definition cache_append (c : Cache) (example : Obj) : result Cache :=
  match c with
  | DictCache _ => Raise AttributeError
  | ListCache l => Ok (ListCache (l ++ [example]))
  end.

(** The mutable attributes of a [_CachedDataSource]. *)
Record CachedState : Type := {
  _iter : iterator;
  _max_index : Z;
  _erase_after_access : bool;
  _cache : Cache;
}.

(** ** Data sources *)

Inductive DataSource : Type :=
| SequenceDataSource (_seq : list Obj)
| IterDataSource (_iterable : list Obj)
| FilterDataSource (_source : DataSource)
    (_filter_fn : option (Obj -> bool))
| _TruncatedDataSource (_source : DataSource) (_max_size : Z)
| _TransformedDataSource (_source : DataSource) (_process : Obj -> Obj)
| _CachedDataSource (_source : DataSource) (st : CachedState).

(** [__len__].  The base class raises [TypeError]. *)
Fixpoint DataSource_len (s : DataSource) : result Z :=
  match s with
  | SequenceDataSource seq => Ok (len seq)
  | IterDataSource _ => Raise TypeError
  | FilterDataSource _ _ => Raise TypeError
  | _TruncatedDataSource src max_size =>
      match builtin_len (DataSource_len src) with
      | Ok n => Ok (Z.min n max_size)
      | Raise TypeError => Ok max_size
      | Raise e => Raise e
      end
  | _TransformedDataSource src _ => builtin_len (DataSource_len src)
  | _CachedDataSource _ _ => Raise TypeError
  end.

(** The generator body of [FilterDataSource.__iter__]. *)
Definition filter_gen (filter_fn : option (Obj -> bool)) (it : iterator)
  : iterator :=
  match filter_fn with
  | Some f => {| pending := filter (fun x => f x = true) (pending it);
                 final := final it |}
  | None =>
      (* calling [None] raises [TypeError] at the first element *)
      match pending it with
      | [] => {| pending := []; final := final it |}
      | _ :: _ => {| pending := []; final := TypeError |}
      end
  end.

(** The generator body of [_TruncatedDataSource.__iter__]:
    [while count < self._max_size: yield next(iterator); count += 1]. *)
Fixpoint truncated_gen (max_size count : Z) (rest : list Obj) (fin : exn)
  : iterator :=
  if count <? max_size then
    match rest with
    | x :: rest' =>
        let it := truncated_gen max_size (count + 1) rest' fin in
        {| pending := x :: pending it; final := final it |}
    | [] =>
        (* [next(iterator)] raises inside the generator body *)
        {| pending := [];
           final := match fin with
                    | StopIteration => RuntimeError
                    | e => e
                    end |}
    end
  else exhausted.

(** [__iter__], followed by the iteration itself. *)
Fixpoint DataSource_iter (s : DataSource) : iterator :=
  match s with
  | SequenceDataSource seq => {| pending := seq; final := StopIteration |}
  | IterDataSource iterable =>
      {| pending := iterable; final := StopIteration |}
  | FilterDataSource src filter_fn =>
      filter_gen filter_fn (DataSource_iter src)
  | _TruncatedDataSource src max_size =>
      let it := DataSource_iter src in
      truncated_gen max_size 0 (pending it) (final it)
  | _TransformedDataSource src process_fn =>
      let it := DataSource_iter src in
      {| pending := map process_fn (pending it); final := final it |}
  | _CachedDataSource src _ => DataSource_iter src
  end.

(** [_CachedDataSource.__getitem__] on the attributes. *)
Definition CachedState_getitem (index : Z) : M CachedState Obj :=
  fun st =>
    match cache_getitem (_cache st) index with
    | Raise e => (Raise e, st)
    | Ok example =>
        if _erase_after_access st then
          match cache_delitem (_cache st) index with
          | Raise e => (Raise e, st)
          | Ok cache' =>
              (Ok example,
               {| _iter := _iter st; _max_index := _max_index st;
                  _erase_after_access := _erase_after_access st;
                  _cache := cache' |})
          end
        else (Ok example, st)
    end.

(** [__getitem__].  The base class raises [TypeError]. *)
Fixpoint DataSource_getitem (s : DataSource) (item : Z)
  : result Obj * DataSource :=
  match s with
  | SequenceDataSource seq => (list_getitem seq item, s)
  | IterDataSource _ => (Raise TypeError, s)
  | FilterDataSource _ _ => (Raise TypeError, s)
  | _TruncatedDataSource src max_size =>
      if item >=? max_size then (Raise IndexError, s)
      else
        let (r, src') := DataSource_getitem src item in
        (r, _TruncatedDataSource src' max_size)
  | _TransformedDataSource src process_fn =>
      let (r, src') := DataSource_getitem src item in
      (result_map process_fn r, _TransformedDataSource src' process_fn)
  | _CachedDataSource src st =>
      let (r, st') := CachedState_getitem item st in
      (r, _CachedDataSource src st')
  end.

(** ** [_CachedDataSource] *)

(** [_CachedDataSource(data_source, erase_after_access)] *)
Definition new_CachedDataSource (data_source : DataSource)
    (erase_after_access : bool) : DataSource :=
  _CachedDataSource data_source
    {| _iter := DataSource_iter data_source;
       _max_index := -1;
       _erase_after_access := erase_after_access;
       _cache := if erase_after_access then DictCache ∅ else ListCache [] |}.

(** The loop of [prefetch], by recursion on what the iterator still holds;
    the match on [rest] is [next(self._iter)]. *)
Fixpoint prefetch_loop (rest : list Obj) (fin : exn) (max_index : Z)
    (erase : bool) (cache : Cache) (index : Z)
  : result unit * CachedState :=
  if max_index <? index then
    match rest with
    | [] =>
        (Raise fin,
         {| _iter := exhausted; _max_index := max_index;
            _erase_after_access := erase; _cache := cache |})
    | example :: rest' =>
        let max_index := max_index + 1 in
        match (if erase then cache_setitem cache max_index example
               else cache_append cache example) with
        | Ok cache' => prefetch_loop rest' fin max_index erase cache' index
        | Raise e =>
            (Raise e,
             {| _iter := {| pending := rest'; final := fin |};
                _max_index := max_index;
                _erase_after_access := erase; _cache := cache |})
        end
    end
  else
    (Ok tt,
     {| _iter := {| pending := rest; final := fin |};
        _max_index := max_index;
        _erase_after_access := erase; _cache := cache |}).

Definition CachedState_prefetch (index : Z) : M CachedState unit :=
  fun st =>
    prefetch_loop (pending (_iter st)) (final (_iter st)) (_max_index st)
      (_erase_after_access st) (_cache st) index.

(** The methods below exist on [_CachedDataSource] only; on any other
    source the attribute lookup fails. *)
Definition prefetch (index : Z) : M DataSource unit :=
  fun s =>
    match s with
    | _CachedDataSource src st =>
        let (r, st') := CachedState_prefetch index st in
        (r, _CachedDataSource src st')
    | _ => (Raise AttributeError, s)
    end.

(** The property [max_index]. *)
Definition cached_max_index : M DataSource Z :=
  fun s =>
    match s with
    | _CachedDataSource _ st => (Ok (_max_index st), s)
    | _ => (Raise AttributeError, s)
    end.

Definition reset : M DataSource unit :=
  fun s =>
    match s with
    | _CachedDataSource src st =>
        if _erase_after_access st then
          (Ok tt,
           _CachedDataSource src
             {| _iter := DataSource_iter src; _max_index := -1;
                _erase_after_access := _erase_after_access st;
                _cache := _cache st |})
        else (Ok tt, s)
    | _ => (Raise AttributeError, s)
    end.

(** [del self._cache[index]], as [DataBase._add_cached_examples] does on
    its cached source. *)
Definition del_cache (index : Z) : M DataSource unit :=
  fun s =>
    match s with
    | _CachedDataSource src st =>
        match cache_delitem (_cache st) index with
        | Ok cache' =>
            (Ok tt,
             _CachedDataSource src
               {| _iter := _iter st; _max_index := _max_index st;
                  _erase_after_access := _erase_after_access st;
                  _cache := cache' |})
        | Raise e => (Raise e, s)
        end
    | _ => (Raise AttributeError, s)
    end.

End Sources.

Arguments pending {Obj} i.
Arguments final {Obj} i.
Arguments exhausted {Obj}.
Arguments next {Obj} it.
Arguments consume {Obj} it.
Arguments DictCache {Obj} d.
Arguments ListCache {Obj} l.
Arguments cache_getitem {Obj} c index.
Arguments cache_delitem {Obj} c index.
Arguments cache_setitem {Obj} c index example.
Arguments cache_append {Obj} c example.
Arguments _iter {Obj} c.
Arguments _max_index {Obj} c.
Arguments _erase_after_access {Obj} c.
Arguments _cache {Obj} c.
Arguments SequenceDataSource {Obj} _seq.
Arguments IterDataSource {Obj} _iterable.
Arguments FilterDataSource {Obj} _source _filter_fn.
Arguments _TruncatedDataSource {Obj} _source _max_size.
Arguments _TransformedDataSource {Obj} _source _process.
Arguments _CachedDataSource {Obj} _source st.
Arguments DataSource_len {Obj} s.
Arguments filter_gen {Obj} filter_fn it.
Arguments truncated_gen {Obj} max_size count rest fin.
Arguments DataSource_iter {Obj} s.
Arguments CachedState_getitem {Obj} index _.
Arguments DataSource_getitem {Obj} s item.
Arguments new_CachedDataSource {Obj} data_source erase_after_access.
Arguments prefetch_loop {Obj} rest fin max_index erase cache index.
Arguments CachedState_prefetch {Obj} index _.
Arguments prefetch {Obj} index _.
Arguments cached_max_index {Obj} _.
Arguments reset {Obj} _.
Arguments del_cache {Obj} index _.

(** ** [DataBase] *)

Section DataBase.
Variable Obj : Type.

(** [DataBase._process], the routine every subclass implements. *)
Variable _process : Obj -> Obj.

(** The argument of [DataBase.__getitem__]:
    [Union[int, Tuple[int, RawExample]]]. *)
Inductive Index : Type :=
| IntIndex (index : Z)
| PairIndex (index : Z) (raw_example : Obj).

(** The attributes of a [DataBase].  [_cached_source] is not a field: it is
    the same object as the [_CachedDataSource] inside [_source], and is
    reached there (see [at_cached_source]).  [None] in [_reorder_cache]
    stands for an attribute that was never assigned. *)
Record DataBase : Type := {
  _source : DataSource Obj;
  _lazy_strategy : _LazyStrategy;
  _cache_strategy : _CacheStrategy;
  _uses_multi_processing : bool;
  _parallelize_processing : bool;
  _processed_cache : list Obj;
  _fully_cached : bool;
  _supports_random_access : bool;
  _dataset_size : option Z;
  __should_return_processed_examples : bool;
  __should_call_prefetch_source : bool;
  __should_call_prefetch_processed : bool;
  __should_delete_source_in_add_cache : bool;
  _reorder_cache : option (gmap Z Obj);
  warnings : list Warning;   (* what [warnings.warn] received, in order *)
}.

Definition set_source (self : DataBase) (v : DataSource Obj) : DataBase :=
  {| _source := v;
     _lazy_strategy := _lazy_strategy self;
     _cache_strategy := _cache_strategy self;
     _uses_multi_processing := _uses_multi_processing self;
     _parallelize_processing := _parallelize_processing self;
     _processed_cache := _processed_cache self;
     _fully_cached := _fully_cached self;
     _supports_random_access := _supports_random_access self;
     _dataset_size := _dataset_size self;
     __should_return_processed_examples :=
       __should_return_processed_examples self;
     __should_call_prefetch_source := __should_call_prefetch_source self;
     __should_call_prefetch_processed :=
       __should_call_prefetch_processed self;
     __should_delete_source_in_add_cache :=
       __should_delete_source_in_add_cache self;
     _reorder_cache := _reorder_cache self;
     warnings := warnings self |}.

Definition set_processed_cache (self : DataBase) (v : list Obj)
  : DataBase :=
  {| _source := _source self;
     _lazy_strategy := _lazy_strategy self;
     _cache_strategy := _cache_strategy self;
     _uses_multi_processing := _uses_multi_processing self;
     _parallelize_processing := _parallelize_processing self;
     _processed_cache := v;
     _fully_cached := _fully_cached self;
     _supports_random_access := _supports_random_access self;
     _dataset_size := _dataset_size self;
     __should_return_processed_examples :=
       __should_return_processed_examples self;
     __should_call_prefetch_source := __should_call_prefetch_source self;
     __should_call_prefetch_processed :=
       __should_call_prefetch_processed self;
     __should_delete_source_in_add_cache :=
       __should_delete_source_in_add_cache self;
     _reorder_cache := _reorder_cache self;
     warnings := warnings self |}.

Definition set_fully_cached (self : DataBase) (v : bool) : DataBase :=
  {| _source := _source self;
     _lazy_strategy := _lazy_strategy self;
     _cache_strategy := _cache_strategy self;
     _uses_multi_processing := _uses_multi_processing self;
     _parallelize_processing := _parallelize_processing self;
     _processed_cache := _processed_cache self;
     _fully_cached := v;
     _supports_random_access := _supports_random_access self;
     _dataset_size := _dataset_size self;
     __should_return_processed_examples :=
       __should_return_processed_examples self;
     __should_call_prefetch_source := __should_call_prefetch_source self;
     __should_call_prefetch_processed :=
       __should_call_prefetch_processed self;
     __should_delete_source_in_add_cache :=
       __should_delete_source_in_add_cache self;
     _reorder_cache := _reorder_cache self;
     warnings := warnings self |}.

Definition set_dataset_size (self : DataBase) (v : option Z) : DataBase :=
  {| _source := _source self;
     _lazy_strategy := _lazy_strategy self;
     _cache_strategy := _cache_strategy self;
     _uses_multi_processing := _uses_multi_processing self;
     _parallelize_processing := _parallelize_processing self;
     _processed_cache := _processed_cache self;
     _fully_cached := _fully_cached self;
     _supports_random_access := _supports_random_access self;
     _dataset_size := v;
     __should_return_processed_examples :=
       __should_return_processed_examples self;
     __should_call_prefetch_source := __should_call_prefetch_source self;
     __should_call_prefetch_processed :=
       __should_call_prefetch_processed self;
     __should_delete_source_in_add_cache :=
       __should_delete_source_in_add_cache self;
     _reorder_cache := _reorder_cache self;
     warnings := warnings self |}.

Definition set_reorder_cache (self : DataBase) (v : option (gmap Z Obj))
  : DataBase :=
  {| _source := _source self;
     _lazy_strategy := _lazy_strategy self;
     _cache_strategy := _cache_strategy self;
     _uses_multi_processing := _uses_multi_processing self;
     _parallelize_processing := _parallelize_processing self;
     _processed_cache := _processed_cache self;
     _fully_cached := _fully_cached self;
     _supports_random_access := _supports_random_access self;
     _dataset_size := _dataset_size self;
     __should_return_processed_examples :=
       __should_return_processed_examples self;
     __should_call_prefetch_source := __should_call_prefetch_source self;
     __should_call_prefetch_processed :=
       __should_call_prefetch_processed self;
     __should_delete_source_in_add_cache :=
       __should_delete_source_in_add_cache self;
     _reorder_cache := v;
     warnings := warnings self |}.

(** [warnings.warn(w)] *)
Definition warn (self : DataBase) (w : Warning) : DataBase :=
  {| _source := _source self;
     _lazy_strategy := _lazy_strategy self;
     _cache_strategy := _cache_strategy self;
     _uses_multi_processing := _uses_multi_processing self;
     _parallelize_processing := _parallelize_processing self;
     _processed_cache := _processed_cache self;
     _fully_cached := _fully_cached self;
     _supports_random_access := _supports_random_access self;
     _dataset_size := _dataset_size self;
     __should_return_processed_examples :=
       __should_return_processed_examples self;
     __should_call_prefetch_source := __should_call_prefetch_source self;
     __should_call_prefetch_processed :=
       __should_call_prefetch_processed self;
     __should_delete_source_in_add_cache :=
       __should_delete_source_in_add_cache self;
     _reorder_cache := _reorder_cache self;
     warnings := warnings self ++ [w] |}.

(** [self._source[item]] *)
Definition source_getitem (item : Z) : M DataBase Obj :=
  fun self =>
    let (r, src') := DataSource_getitem (_source self) item in
    (r, set_source self src').

(** A method call on [self._cached_source].  The attribute is assigned
    only when the probe for random access fails; it then names the
    [_CachedDataSource] that [self._source] is, or that the
    [_TransformedDataSource] put around it afterwards wraps. *)
Definition at_cached_source {A : Type} (m : M (DataSource Obj) A)
  : M DataBase A :=
  fun self =>
    if _supports_random_access self then (Raise AttributeError, self)
    else
      match _source self with
      | _CachedDataSource _ _ as c =>
          let (r, c') := m c in (r, set_source self c')
      | _TransformedDataSource (_CachedDataSource _ _ as c) f =>
          let (r, c') := m c in
          (r, set_source self (_TransformedDataSource c' f))
      | _ => (Raise AttributeError, self)
      end.

(** The properties at the end of the class. *)
Definition _should_return_processed_examples (self : DataBase) : bool :=
  negb (_fully_cached self) && __should_return_processed_examples self.

Definition _should_yield_raw_example (self : DataBase) : bool :=
  bool_decide (_lazy_strategy self = LazyALL) &&
  (bool_decide (_cache_strategy self = CacheNONE) ||
   negb (_fully_cached self)).

Definition _should_call_prefetch_source (self : DataBase) : bool :=
  bool_decide (_dataset_size self = None) ||
  __should_call_prefetch_source self.

Definition _should_call_prefetch_processed (self : DataBase) : bool :=
  __should_call_prefetch_processed self.

Definition _should_delete_source_in_add_cache (self : DataBase) : bool :=
  __should_delete_source_in_add_cache self.

(** [len(self._processed_cache) == self._dataset_size] and the assignment
    it guards. *)
Definition mark_fully_cached (self : DataBase) : DataBase :=
  if bool_decide (_dataset_size self = Some (len (_processed_cache self)))
  then set_fully_cached self true
  else self.

(** The generator consumed by [extend] in [_prefetch_processed]: [n]
    indices from [x] on; what was appended stays when a read raises. *)
Fixpoint extend_processed (n : nat) (x : Z) : M DataBase unit :=
  fun self =>
    match n with
    | O => (Ok tt, self)
    | S n' =>
        match source_getitem x self with
        | (Raise e, self) => (Raise e, self)
        | (Ok raw, self) =>
            extend_processed n' (x + 1)
              (set_processed_cache self
                 (_processed_cache self ++ [_process raw]))
        end
    end.

Definition _prefetch_processed (index : Z) : M DataBase unit :=
  fun self =>
    if len (_processed_cache self) <=? index then
      let start := len (_processed_cache self) in
      match extend_processed (Z.to_nat (index + 1 - start)) start self with
      | (Raise e, self) => (Raise e, self)
      | (Ok _, self) => (Ok tt, mark_fully_cached self)
      end
    else (Ok tt, self).

(** The [while True] loop of [_prefetch_all_source]; it can only be left
    by an exception.  [None]: out of fuel. *)
Fixpoint prefetch_doubling (fuel : nat) (max_index : Z) (self : DataBase)
  : option (exn * DataBase) :=
  match fuel with
  | O => None
  | S fuel' =>
      let max_index := max_index * 2 in
      match at_cached_source (prefetch max_index) self with
      | (Ok _, self) => prefetch_doubling fuel' max_index self
      | (Raise e, self) => Some (e, self)
      end
  end.

(** [_prefetch_all_source]: the [try] body always ends in an exception,
    and [except StopIteration] turns that one into the dataset size. *)
Definition _prefetch_all_source (fuel : nat) (self : DataBase)
  : option (result Z * DataBase) :=
  let max_index := 10 ^ 8 in
  let body :=
    match at_cached_source (prefetch max_index) self with
    | (Raise e, self) => Some (e, self)
    | (Ok _, self) =>
        prefetch_doubling fuel max_index (warn self (WarnMoreThan max_index))
    end in
  match body with
  | None => None
  | Some (StopIteration, self) =>
      match at_cached_source cached_max_index self with
      | (Ok m, self) =>
          Some (Ok (m + 1), set_dataset_size self (Some (m + 1)))
      | (Raise e, self) => Some (Raise e, self)
      end
  | Some (e, self) => Some (Raise e, self)
  end.

Definition _prefetch_source (index : Z) : M DataBase (option Z) :=
  fun self =>
    if negb (_supports_random_access self) then
      match at_cached_source (prefetch index) self with
      | (Raise StopIteration, self) =>
          match at_cached_source cached_max_index self with
          | (Raise e, self) => (Raise e, self)
          | (Ok m, self) =>
              let self := set_dataset_size self (Some (m + 1)) in
              if _should_call_prefetch_processed self then
                match _prefetch_processed (m + 1 - 1) self with
                | (Raise e, self) => (Raise e, self)
                | (Ok _, self) => (Ok (_dataset_size self), self)
                end
              else (Ok (_dataset_size self), self)
          end
      | (Raise e, self) => (Raise e, self)
      | (Ok _, self) =>
          if _should_call_prefetch_processed self then
            match _prefetch_processed index self with
            | (Raise e, self) => (Raise e, self)
            | (Ok _, self) => (Ok None, self)
            end
          else (Ok None, self)
      end
    else
      match _dataset_size self with
      | None => (Raise TypeError, self)   (* [int >= None] *)
      | Some size =>
          if index >=? size then (Ok (Some size), self)
          else (Ok None, self)
      end.

(** [__len__] *)
Definition DataBase_len (fuel : nat) (self : DataBase)
  : option (result Z * DataBase) :=
  match _dataset_size self with
  | Some size => Some (Ok size, self)
  | None =>
      match _prefetch_all_source fuel (warn self WarnNoRandomAccess) with
      | None => None
      | Some (Raise e, self) => Some (Raise e, self)
      | Some (Ok size, self) => Some (Ok size, self)
      end
  end.

(** [__getitem__] *)
Definition DataBase_getitem (index : Index) : M DataBase Obj :=
  fun self =>
    match index with
    | IntIndex index =>
        if _fully_cached self then
          (list_getitem (_processed_cache self) index, self)
        else if negb (_parallelize_processing self) then
          source_getitem index self
        else
          let (r, self) := source_getitem index self in
          (result_map _process r, self)
    | PairIndex _ raw_example =>
        if negb (_parallelize_processing self) then (Ok raw_example, self)
        else (Ok (_process raw_example), self)
    end.

(** [for index in indices: del self._cached_source._cache[index]] *)
Fixpoint delete_cached (indices : list Z) : M DataBase unit :=
  fun self =>
    match indices with
    | [] => (Ok tt, self)
    | index :: indices' =>
        match at_cached_source (del_cache index) self with
        | (Raise e, self) => (Raise e, self)
        | (Ok _, self) => delete_cached indices' self
        end
    end.

(** [for index, example in zip(indices, examples): ...] *)
Fixpoint ingest (pairs : list (Z * Obj)) : M DataBase unit :=
  fun self =>
    match pairs with
    | [] => (Ok tt, self)
    | (index, example) :: pairs' =>
        if index =? len (_processed_cache self) then
          ingest pairs'
            (set_processed_cache self (_processed_cache self ++ [example]))
        else
          match _reorder_cache self with
          | None => (Raise AttributeError, self)
          | Some reorder =>
              ingest pairs'
                (set_reorder_cache self (Some (<[index:=example]> reorder)))
          end
    end.

(** [while len(self._processed_cache) in self._reorder_cache: ...];
    [fuel] bounds the number of iterations, [None]: out of fuel. *)
Fixpoint drain (fuel : nat) (cache : list Obj) (reorder : gmap Z Obj)
  : option (list Obj * gmap Z Obj) :=
  match reorder !! len cache with
  | None => Some (cache, reorder)
  | Some example =>
      match fuel with
      | O => None
      | S fuel' =>
          let index := len cache in
          drain fuel' (cache ++ [example]) (delete index reorder)
      end
  end.

Definition _add_cached_examples (fuel : nat) (indices : list Z)
    (examples : list Obj) (self : DataBase)
  : option (result unit * DataBase) :=
  match (if _should_delete_source_in_add_cache self
         then delete_cached indices self else (Ok tt, self)) with
  | (Raise e, self) => Some (Raise e, self)
  | (Ok _, self) =>
      match ingest (zip indices examples) self with
      | (Raise e, self) => Some (Raise e, self)
      | (Ok _, self) =>
          match _reorder_cache self with
          | None => Some (Raise AttributeError, self)
          | Some reorder =>
              match drain fuel (_processed_cache self) reorder with
              | None => None
              | Some (cache, reorder) =>
                  Some (Ok tt,
                        mark_fully_cached
                          (set_reorder_cache
                             (set_processed_cache self cache)
                             (Some reorder)))
              end
          end
      end
  end.

Definition _start_iteration : M DataBase unit :=
  fun self =>
    if negb (_supports_random_access self) then at_cached_source reset self
    else (Ok tt, self).

(** Lines 266-281 of [__init__]: the cache strategy that results from the
    requested pair, and the warnings given on the way. *)
Definition resolve_strategies (lazy : _LazyStrategy)
    (cache : _CacheStrategy) : _CacheStrategy * list Warning :=
  if bool_decide (lazy = LazyNONE) then
    (CachePROCESSED,
     if bool_decide (cache ≠ CachePROCESSED) then [WarnNoneLazy cache]
     else [])
  else if bool_decide (lazy = LazyPROCESS) then
    if bool_decide (cache = CacheNONE)
    then (CacheLOADED, [WarnProcessLazyNoneCache])
    else (cache, [])
  else (cache, []).

(** Lines 304-316: [len(self._source)] and [self._source[0]] under
    [try ... except TypeError].  The result is the source to go on with,
    [_supports_random_access] and [_dataset_size]. *)
Definition probe_random_access (lazy : _LazyStrategy)
    (cache : _CacheStrategy) (source : DataSource Obj)
  : result (DataSource Obj * bool * option Z) :=
  if bool_decide (lazy ≠ LazyNONE) then
    match builtin_len (DataSource_len source) with
    | Ok size =>
        match DataSource_getitem source 0 with
        | (Ok _, source) => Ok (source, true, Some size)
        | (Raise TypeError, source) =>
            let erase_after_access := bool_decide (cache ≠ CacheLOADED) in
            Ok (new_CachedDataSource source erase_after_access, false, None)
        | (Raise e, _) => Raise e
        end
    | Raise TypeError =>
        let erase_after_access := bool_decide (cache ≠ CacheLOADED) in
        Ok (new_CachedDataSource source erase_after_access, false, None)
    | Raise e => Raise e
    end
  else Ok (source, true, None).

(** [DataBase.__init__(source, hparams)].  [fuel] is for the full prefetch
    of a source without random access under the [process] lazy strategy;
    [None]: out of fuel. *)
Definition DataBase_init (fuel : nat) (source : DataSource Obj)
    (hparams : HParams) : option (result DataBase) :=
  let lazy := lazy_strategy hparams in
  let '(cache, warned) := resolve_strategies lazy (cache_strategy hparams) in
  let uses_multi_processing := 1 <? num_parallel_calls hparams in
  let parallelize := parallelize_processing hparams in
  let source :=
    if bool_decide (max_dataset_size hparams ≠ -1)
    then _TruncatedDataSource source (max_dataset_size hparams)
    else source in
  let source :=
    if negb parallelize && bool_decide (lazy = LazyALL) &&
       bool_decide (cache ≠ CacheLOADED)
    then _TransformedDataSource source _process
    else source in
  match probe_random_access lazy cache source with
  | Raise e => Some (Raise e)
  | Ok (source, supports_random_access, dataset_size) =>
      let source :=
        if negb parallelize && bool_decide (cache = CacheLOADED)
        then _TransformedDataSource source _process
        else source in
      let self :=
        {| _source := source;
           _lazy_strategy := lazy;
           _cache_strategy := cache;
           _uses_multi_processing := uses_multi_processing;
           _parallelize_processing := parallelize;
           _processed_cache := [];
           _fully_cached := false;
           _supports_random_access := supports_random_access;
           _dataset_size := dataset_size;
           __should_return_processed_examples :=
             bool_decide (lazy ≠ LazyNONE) &&
             bool_decide (cache = CachePROCESSED) && parallelize;
           __should_call_prefetch_source :=
             bool_decide (lazy = LazyALL) &&
             bool_decide (cache = CacheNONE);
           __should_call_prefetch_processed :=
             negb parallelize && bool_decide (lazy = LazyPROCESS) &&
             bool_decide (cache = CachePROCESSED);
           __should_delete_source_in_add_cache :=
             negb supports_random_access && parallelize &&
             uses_multi_processing && bool_decide (lazy = LazyPROCESS) &&
             bool_decide (cache = CachePROCESSED);
           _reorder_cache := None;
           warnings := warned |} in
      if bool_decide (lazy = LazyNONE) then
        match consume (DataSource_iter (_source self)) with
        | Raise e => Some (Raise e)
        | Ok raw_examples =>
            let processed := map _process raw_examples in
            Some (Ok (set_fully_cached
                        (set_dataset_size
                           (set_processed_cache self processed)
                           (Some (len processed)))
                        true))
        end
      else
        let loaded :=
          if bool_decide (lazy = LazyPROCESS) &&
             negb (_supports_random_access self)
          then
            match _prefetch_all_source fuel self with
            | None => None
            | Some (Raise e, _) => Some (Raise e)
            | Some (Ok _, self) => Some (Ok self)
            end
          else Some (Ok self) in
        match loaded with
        | None => None
        | Some (Raise e) => Some (Raise e)
        | Some (Ok self) =>
            if bool_decide (cache = CachePROCESSED)
            then Some (Ok (set_reorder_cache self (Some ∅)))
            else Some (Ok self)
        end
  end.

End DataBase.

Arguments IntIndex {Obj} index.
Arguments PairIndex {Obj} index raw_example.
Arguments _source {Obj} d.
Arguments _lazy_strategy {Obj} d.
Arguments _cache_strategy {Obj} d.
Arguments _uses_multi_processing {Obj} d.
Arguments _parallelize_processing {Obj} d.
Arguments _processed_cache {Obj} d.
Arguments _fully_cached {Obj} d.
Arguments _supports_random_access {Obj} d.
Arguments _dataset_size {Obj} d.
Arguments _reorder_cache {Obj} d.
Arguments warnings {Obj} d.
Arguments set_source {Obj} self v.
Arguments set_processed_cache {Obj} self v.
Arguments set_fully_cached {Obj} self v.
Arguments set_dataset_size {Obj} self v.
Arguments set_reorder_cache {Obj} self v.
Arguments warn {Obj} self w.
Arguments source_getitem {Obj} item _.
Arguments at_cached_source {Obj A} m _.
Arguments _should_return_processed_examples {Obj} self.
Arguments _should_yield_raw_example {Obj} self.
Arguments _should_call_prefetch_source {Obj} self.
Arguments _should_call_prefetch_processed {Obj} self.
Arguments _should_delete_source_in_add_cache {Obj} self.
Arguments mark_fully_cached {Obj} self.
Arguments extend_processed {Obj} _process n x _.
Arguments _prefetch_processed {Obj} _process index _.
Arguments prefetch_doubling {Obj} fuel max_index self.
Arguments _prefetch_all_source {Obj} fuel self.
Arguments _prefetch_source {Obj} _process index _.
Arguments DataBase_len {Obj} fuel self.
Arguments DataBase_getitem {Obj} _process index _.
Arguments delete_cached {Obj} indices _.
Arguments ingest {Obj} pairs _.
Arguments drain {Obj} fuel cache reorder.
Arguments _add_cached_examples {Obj} fuel indices examples self.
Arguments _start_iteration {Obj} _.
Arguments probe_random_access {Obj} lazy cache source.
Arguments DataBase_init {Obj} _process fuel source hparams.

(** ** Vocabulary of the statements *)

Section Vocabulary.
Context {Obj : Type}.

(** The strategies and the outcome of the probe are never reassigned after
    construction, and warnings are only ever added. *)
Definition same_policy (self self' : DataBase Obj) : Prop :=
  _lazy_strategy self' = _lazy_strategy self ∧
  _cache_strategy self' = _cache_strategy self ∧
  _supports_random_access self' = _supports_random_access self ∧
  ∃ more, warnings self' = warnings self ++ more.

(** The constructor of [_CachedDataSource] picks the kind of buffer by the
    flag: a [dict] to erase from, a [list] to retain. *)
Definition kind_ok (erase : bool) (c : Cache Obj) : bool :=
  match erase, c with
  | true, DictCache _ => true
  | false, ListCache _ => true
  | _, _ => false
  end.

Definition cache_kind_ok (st : CachedState Obj) : bool :=
  kind_ok (_erase_after_access st) (_cache st).

(** Storing [xs] under the keys that follow [max_index]. *)
Fixpoint store_from (d : gmap Z Obj) (max_index : Z) (xs : list Obj)
  : gmap Z Obj :=
  match xs with
  | [] => d
  | x :: xs' => store_from (<[max_index + 1:=x]> d) (max_index + 1) xs'
  end.

(** The buffer after [xs] was pulled at position [max_index]. *)
Definition extend_cache (c : Cache Obj) (max_index : Z) (xs : list Obj)
  : Cache Obj :=
  match c with
  | DictCache d => DictCache (store_from d max_index xs)
  | ListCache l => ListCache (l ++ xs)
  end.

(** The operations offered by a cached source, and runs of them. *)
Inductive CachedOp : Type :=
| OpPrefetch (index : Z)
| OpGetitem (index : Z)
| OpReset.

Definition run_op (op : CachedOp) (st_src : DataSource Obj)
  : DataSource Obj :=
  match op with
  | OpPrefetch index => snd (prefetch index st_src)
  | OpGetitem index => snd (DataSource_getitem st_src index)
  | OpReset => snd (reset st_src)
  end.

Definition run_ops (ops : list CachedOp) (s : DataSource Obj)
  : DataSource Obj :=
  foldl (fun s op => run_op op s) s ops.

Definition is_reset (op : CachedOp) : bool :=
  match op with
  | OpReset => true
  | _ => false
  end.

(** The retained buffer is what has been pulled so far: its length is
    [max_index + 1] and, followed by what the iterator still holds, it is
    the wrapped source. *)
Definition retain_inv (src : DataSource Obj) (st : CachedState Obj) : Prop :=
  _erase_after_access st = false ∧
  ∃ l, _cache st = ListCache l ∧
       len l = _max_index st + 1 ∧
       pending (DataSource_iter src) = l ++ pending (_iter st).


(** The number of elements pulled so far plus the number the iterator
    still holds. *)
Definition elements_in_all (st : CachedState Obj) : Z :=
  _max_index st + 1 + len (pending (_iter st)).


(** The object [self._cached_source] of an engine: the wrapped source and
    the attributes, when the attribute is assigned. *)
Definition cached_state_of (self : DataBase Obj)
  : option (DataSource Obj * CachedState Obj) :=
  if _supports_random_access self then None
  else
    match _source self with
    | _CachedDataSource src st => Some (src, st)
    | _TransformedDataSource (_CachedDataSource src st) _ => Some (src, st)
    | _ => None
    end.


(** Reading the given indices one after the other. *)
Fixpoint get_each (process : Obj → Obj) (indices : list Z)
    (self : DataBase Obj) : list (result Obj) :=
  match indices with
  | [] => []
  | index :: indices' =>
      let (r, self') := DataBase_getitem process (IntIndex index) self in
      r :: get_each process indices' self'
  end.

End Vocabulary.

(** ** Further vocabulary *)

Section MoreVocabulary.
Context {Obj : Type}.

(** Chains that offer random access: a sequence, possibly truncated and
    transformed. *)
Fixpoint random_access (s : DataSource Obj) : bool :=
  match s with
  | SequenceDataSource _ => true
  | _TruncatedDataSource src _ => random_access src
  | _TransformedDataSource src _ => random_access src
  | _ => false
  end.

(** [_CachedDataSource.reset], with the iterator that [iter(self._source)]
    returns given as [fresh].  A source that starts from its first element
    whenever it is iterated returns [DataSource_iter src]: that case is
    [reset].  An [IterDataSource] that was given an iterator or a generator
    returns that same object, with the elements it has left. *)
Definition reset_to (fresh : iterator Obj) : M (DataSource Obj) unit :=
  fun s =>
    match s with
    | _CachedDataSource src st =>
        if _erase_after_access st then
          (Ok tt,
           _CachedDataSource src
             {| _iter := fresh; _max_index := -1;
                _erase_after_access := _erase_after_access st;
                _cache := _cache st |})
        else (Ok tt, s)
    | _ => (Raise AttributeError, s)
    end.

(** [_start_iteration], likewise with the iterator that the [reset] of the
    cached source obtains. *)
Definition _start_iteration_to (fresh : iterator Obj)
  : M (DataBase Obj) unit :=
  fun self =>
    if negb (_supports_random_access self)
    then at_cached_source (reset_to fresh) self
    else (Ok tt, self).

(** Calls on a cached source, each [reset] with the iterator it obtains. *)
Inductive CachedCall : Type :=
| CallPrefetch (index : Z)
| CallGetitem (index : Z)
| CallReset (fresh : iterator Obj).

Definition run_call (call : CachedCall) (s : DataSource Obj)
  : DataSource Obj :=
  match call with
  | CallPrefetch index => snd (prefetch index s)
  | CallGetitem index => snd (DataSource_getitem s index)
  | CallReset fresh => snd (reset_to fresh s)
  end.

Definition run_calls (calls : list CachedCall) (s : DataSource Obj)
  : DataSource Obj :=
  foldl (fun s call => run_call call s) s calls.

(** The iterators that the resets of a run obtained, in order. *)
Definition resets_of (calls : list CachedCall) : list (iterator Obj) :=
  omap (fun call => match call with
                    | CallReset fresh => Some fresh
                    | _ => None
                    end) calls.

(** A cached source in step with the iterators it was given: [first] by
    the constructor, [later] by the resets.  What was pulled since the last
    reset that took effect, followed by what the iterator still holds, is
    what one of them yields; [max_index] counts what was pulled; a retained
    buffer is what was pulled from [first]; an erasing buffer holds under
    each index an element that one of the iterators yields at that
    position. *)
Definition in_step (first : iterator Obj) (later : list (iterator Obj))
    (st : CachedState Obj) : Prop :=
  ∃ cur pulled,
    cur ∈ first :: later ∧
    pending cur = pulled ++ pending (_iter st) ∧
    len pulled = _max_index st + 1 ∧
    match _cache st with
    | DictCache d =>
        _erase_after_access st = true ∧
        ∀ k x, d !! k = Some x →
               0 ≤ k ∧
               ∃ it, it ∈ first :: later ∧ pending it !! Z.to_nat k = Some x
    | ListCache l =>
        _erase_after_access st = false ∧ l = pulled ∧ cur = first
    end.

(** The processed example an engine holds for index [j]: in the processed
    cache when [j] is below its length, in the reorder buffer otherwise. *)
Definition held (cache : list Obj) (reorder : gmap Z Obj) (j : Z)
  : option Obj :=
  if decide (0 ≤ j < len cache) then cache !! Z.to_nat j else reorder !! j.

(** The reorder buffer holds nothing for an index that the processed cache
    already covers. *)
Definition settled (cache : list Obj) (reorder : gmap Z Obj) : Prop :=
  ∀ j, 0 ≤ j < len cache → reorder !! j = None.

(** The calls an engine receives after construction. *)
Inductive EngineOp : Type :=
| EGetitem (index : Index Obj)
| EAddCached (fuel : nat) (indices : list Z) (examples : list Obj)
| EPrefetchSource (index : Z)
| EPrefetchProcessed (index : Z)
| EPrefetchAll (fuel : nat)
| ELen (fuel : nat)
| EStartIteration.

(** The engine after a call, whether the call returned or raised; [None]:
    out of fuel. *)
Definition engine_step (process : Obj → Obj) (op : EngineOp)
    (self : DataBase Obj) : option (DataBase Obj) :=
  match op with
  | EGetitem index => Some (snd (DataBase_getitem process index self))
  | EAddCached fuel indices examples =>
      snd <$> _add_cached_examples fuel indices examples self
  | EPrefetchSource index => Some (snd (_prefetch_source process index self))
  | EPrefetchProcessed index =>
      Some (snd (_prefetch_processed process index self))
  | EPrefetchAll fuel => snd <$> _prefetch_all_source fuel self
  | ELen fuel => snd <$> DataBase_len fuel self
  | EStartIteration => Some (snd (_start_iteration self))
  end.

Fixpoint engine_run (process : Obj → Obj) (ops : list EngineOp)
    (self : DataBase Obj) : option (DataBase Obj) :=
  match ops with
  | [] => Some self
  | op :: ops' =>
      match engine_step process op self with
      | Some self' => engine_run process ops' self'
      | None => None
      end
  end.

(** What no call takes away from an engine: the processed cache only grows
    at its end, [_fully_cached] stays once set, and the strategies and the
    outcome of the probe stay as construction left them. *)
Definition grown (self self' : DataBase Obj) : Prop :=
  _processed_cache self `prefix_of` _processed_cache self' ∧
  (_fully_cached self = true → _fully_cached self' = true) ∧
  _lazy_strategy self' = _lazy_strategy self ∧
  _cache_strategy self' = _cache_strategy self ∧
  _supports_random_access self' = _supports_random_access self ∧
  _parallelize_processing self' = _parallelize_processing self.

(** What pulling from the cached source leaves of an engine: everything but
    the source chain, the dataset size and the warnings; the cached source
    stays the same object over the same source, in the same mode. *)
Definition only_pulled (self self' : DataBase Obj) : Prop :=
  _processed_cache self' = _processed_cache self ∧
  _fully_cached self' = _fully_cached self ∧
  _reorder_cache self' = _reorder_cache self ∧
  _supports_random_access self' = _supports_random_access self ∧
  ∀ src st,
    cached_state_of self = Some (src, st) →
    ∃ st', cached_state_of self' = Some (src, st') ∧
           _erase_after_access st' = _erase_after_access st ∧
           (cache_kind_ok st = true → cache_kind_ok st' = true).

End MoreVocabulary.

Arguments EngineOp Obj : clear implicits.
Arguments CachedCall Obj : clear implicits.

(** ** [ZipDataSource] and [RecordDataSource] *)

Section Combined.
Context {K Obj : Type}.

(** [min(len(source) for source in sources)]: the lengths are taken in
    order and the first exception ends the call; [least] is the minimum so
    far, and [min] of no value at all raises [ValueError]. *)
Fixpoint min_len (sources : list (DataSource Obj)) (least : option Z)
  : result Z :=
  match sources with
  | [] =>
      match least with
      | Some n => Ok n
      | None => Raise ValueError
      end
  | source :: sources' =>
      match builtin_len (DataSource_len source) with
      | Ok n =>
          min_len sources'
            (Some (match least with Some m => Z.min m n | None => n end))
      | Raise e => Raise e
      end
  end.

(** One step of the builtin [zip]: [next] of each iterator in order; the
    first one that raises ends the step. *)
Fixpoint zip_next (its : list (iterator Obj))
  : result (list Obj) * list (iterator Obj) :=
  match its with
  | [] => (Ok [], [])
  | it :: its' =>
      match next it with
      | (Raise e, it) => (Raise e, it :: its')
      | (Ok x, it) =>
          match zip_next its' with
          | (Raise e, its') => (Raise e, it :: its')
          | (Ok xs, its') => (Ok (x :: xs), it :: its')
          end
      end
  end.

(** What [zip] over at least one iterator yields; [fuel] bounds the number
    of steps, [None]: out of fuel. *)
Fixpoint zip_steps (fuel : nat) (its : list (iterator Obj))
  : option (iterator (list Obj)) :=
  match fuel with
  | O => None
  | S fuel' =>
      match zip_next its with
      | (Raise e, _) => Some {| pending := []; final := e |}
      | (Ok xs, its') =>
          match zip_steps fuel' its' with
          | Some it =>
              Some {| pending := xs :: pending it; final := final it |}
          | None => None
          end
      end
  end.

(** The builtin [zip] applied to the iterators; [zip()] yields nothing. *)
Definition zip_iter (fuel : nat) (its : list (iterator Obj))
  : option (iterator (list Obj)) :=
  match its with
  | [] => Some exhausted
  | _ :: _ => zip_steps fuel its
  end.

(** [ZipDataSource.__len__] *)
Definition ZipDataSource_len (sources : list (DataSource Obj)) : result Z :=
  min_len sources None.

(** [ZipDataSource.__iter__], followed by the iteration itself. *)
Definition ZipDataSource_iter (fuel : nat) (sources : list (DataSource Obj))
  : option (iterator (list Obj)) :=
  zip_iter fuel (map DataSource_iter sources).

(** [ZipDataSource.__getitem__]:
    [tuple(source[index] for source in self._sources)]. *)
Fixpoint ZipDataSource_getitem (sources : list (DataSource Obj)) (index : Z)
  : result (list Obj) * list (DataSource Obj) :=
  match sources with
  | [] => (Ok [], [])
  | source :: sources' =>
      match DataSource_getitem source index with
      | (Raise e, source) => (Raise e, source :: sources')
      | (Ok x, source) =>
          match ZipDataSource_getitem sources' index with
          | (Raise e, sources') => (Raise e, source :: sources')
          | (Ok xs, sources') => (Ok (x :: xs), source :: sources')
          end
      end
  end.

(** [RecordDataSource.__len__] *)
Definition RecordDataSource_len (sources : list (K * DataSource Obj))
  : result Z :=
  min_len sources.*2 None.

(** [RecordDataSource.__iter__], followed by the iteration itself: the rows
    of [zip] over the values, each turned into a dictionary under the
    keys. *)
Definition RecordDataSource_iter (fuel : nat)
    (sources : list (K * DataSource Obj))
  : option (iterator (list (K * Obj))) :=
  let keys := sources.*1 in
  match zip_iter fuel (map DataSource_iter sources.*2) with
  | Some iterator =>
      Some {| pending := map (λ values, zip keys values) (pending iterator);
              final := final iterator |}
  | None => None
  end.

(** [RecordDataSource.__getitem__]:
    [{key: source[index] for key, source in self._sources.items()}]. *)
Fixpoint RecordDataSource_getitem (sources : list (K * DataSource Obj))
    (index : Z)
  : result (list (K * Obj)) * list (K * DataSource Obj) :=
  match sources with
  | [] => (Ok [], [])
  | (key, source) :: sources' =>
      match DataSource_getitem source index with
      | (Raise e, source) => (Raise e, (key, source) :: sources')
      | (Ok x, source) =>
          match RecordDataSource_getitem sources' index with
          | (Raise e, sources') => (Raise e, (key, source) :: sources')
          | (Ok xs, sources') =>
              (Ok ((key, x) :: xs), (key, source) :: sources')
          end
      end
  end.

End Combined.

Arguments min_len {Obj} sources least.
Arguments zip_next {Obj} its.
Arguments zip_steps {Obj} fuel its.
Arguments zip_iter {Obj} fuel its.
Arguments ZipDataSource_len {Obj} sources.
Arguments ZipDataSource_iter {Obj} fuel sources.
Arguments ZipDataSource_getitem {Obj} sources index.

(** * Properties *)

(** ** Python sequences *)

Section PyListFacts.
Context {A : Type}.
Implicit Types (l : list A) (i : Z).

Lemma len_nonneg l : 0 ≤ len l.
Proof. unfold len. lia. Qed.

Lemma len_app l1 l2 : len (l1 ++ l2) = len l1 + len l2.
Proof. unfold len. rewrite length_app. lia. Qed.

Lemma len_nil : len (@nil A) = 0.
Proof. reflexivity. Qed.

Lemma len_cons (x : A) l : len (x :: l) = 1 + len l.
Proof. unfold len. simpl length. lia. Qed.

Lemma norm_index_nonneg n i :
  0 ≤ i < n → norm_index n i = Some (Z.to_nat i).
Proof.
  intros Hi. unfold norm_index.
  destruct (Z.ltb_spec i 0); [lia|].
  destruct (Z.leb_spec 0 i); [|lia].
  destruct (Z.ltb_spec i n); [done|lia].
Qed.

Lemma norm_index_ge n i : 0 ≤ n ≤ i → norm_index n i = None.
Proof.
  intros Hi. unfold norm_index.
  destruct (Z.ltb_spec i 0); [lia|].
  destruct (Z.ltb_spec i n); [lia|].
  by rewrite andb_false_r.
Qed.

(** In range, a subscript reads the list position it names. *)
Lemma list_getitem_nonneg l i x :
  0 ≤ i → l !! Z.to_nat i = Some x → list_getitem l i = Ok x.
Proof.
  intros Hi Hx. unfold list_getitem.
  rewrite norm_index_nonneg.
  - by rewrite Hx.
  - apply lookup_lt_Some in Hx. unfold len. lia.
Qed.

Lemma list_getitem_ge l i : len l ≤ i → list_getitem l i = Raise IndexError.
Proof.
  intros Hi. unfold list_getitem.
  rewrite norm_index_ge; [done|]. pose proof (len_nonneg l). lia.
Qed.

Lemma list_getitem_nil i : list_getitem (@nil A) i = Raise IndexError.
Proof.
  unfold list_getitem, norm_index. rewrite len_nil.
  destruct (i <? 0) eqn:Hi; simpl.
  - destruct (Z.leb_spec 0 (i + 0)); simpl; [|done].
    apply Z.ltb_lt in Hi. lia.
  - destruct (Z.leb_spec 0 i), (Z.ltb_spec i 0); simpl; try done; lia.
Qed.
End PyListFacts.

(** ** Data sources *)

Section SourceFacts.
Context {Obj : Type}.
Implicit Types (s src : DataSource Obj) (st : CachedState Obj).
Implicit Types (rest : list Obj) (fin : exn).

(** What the generator of a truncated source yields: with enough elements
    left it stops by itself after [max_size - count] of them; otherwise it
    yields them all and then fails, and an end-of-source signal from the
    wrapped iterator has become [RuntimeError]. *)
Lemma truncated_gen_enough max_size count rest fin :
  max_size - count ≤ len rest →
  truncated_gen max_size count rest fin =
    {| pending := take (Z.to_nat (max_size - count)) rest;
       final := StopIteration |}.
Proof.
  revert count. induction rest as [|x rest IH]; intros count Hle; simpl.
  - rewrite len_nil in Hle.
    destruct (Z.ltb_spec count max_size); [lia|].
    by rewrite take_nil.
  - rewrite len_cons in Hle.
    destruct (Z.ltb_spec count max_size) as [Hlt|Hge].
    + rewrite IH by lia. simpl.
      replace (Z.to_nat (max_size - count))
        with (S (Z.to_nat (max_size - (count + 1)))) by lia.
      done.
    + replace (Z.to_nat (max_size - count)) with O by lia. done.
Qed.

Lemma truncated_gen_short max_size count rest fin :
  len rest < max_size - count →
  truncated_gen max_size count rest fin =
    {| pending := rest;
       final := match fin with StopIteration => RuntimeError | e => e end |}.
Proof.
  revert count. induction rest as [|x rest IH]; intros count Hlt; simpl.
  - rewrite len_nil in Hlt.
    destruct (Z.ltb_spec count max_size); [done|lia].
  - rewrite len_cons in Hlt. pose proof (len_nonneg rest).
    destruct (Z.ltb_spec count max_size); [|lia].
    rewrite IH by lia. done.
Qed.

Lemma truncated_getitem_out_of_range src max_size item :
  max_size ≤ item →
  DataSource_getitem (_TruncatedDataSource src max_size) item =
    (Raise IndexError, _TruncatedDataSource src max_size).
Proof.
  intros Hge. simpl.
  destruct (Z.geb_spec item max_size); [done|lia].
Qed.
End SourceFacts.

(** C7.  For every source [S] and bound [N]: reading the truncated source at
    any index [i >= N] raises [IndexError]; when [S] yields at least [N]
    elements, iterating the truncated source yields exactly the first [N] of
    them and then stops; its [__len__] is [min (len S) N] when [len(S)] is
    known, and [N] when [S] has no length ([TypeError]).  In particular the
    truncation to 3 of the sequence 1..10 iterates 1, 2, 3 and reading it at
    3 raises [IndexError]. *)
Theorem C7_truncated_source :
  (∀ (Obj : Type) (S : DataSource Obj) (N : Z),
      (∀ i, N ≤ i →
            fst (DataSource_getitem (_TruncatedDataSource S N) i) =
              Raise IndexError) ∧
      (N ≤ len (pending (DataSource_iter S)) →
       DataSource_iter (_TruncatedDataSource S N) =
         {| pending := take (Z.to_nat N) (pending (DataSource_iter S));
            final := StopIteration |}) ∧
      (∀ n, builtin_len (DataSource_len S) = Ok n →
            DataSource_len (_TruncatedDataSource S N) = Ok (Z.min n N)) ∧
      (DataSource_len S = Raise TypeError →
       DataSource_len (_TruncatedDataSource S N) = Ok N)) ∧
  (let T := _TruncatedDataSource
              (SequenceDataSource [1; 2; 3; 4; 5; 6; 7; 8; 9; 10]) 3 in
   consume (DataSource_iter T) = Ok [1; 2; 3] ∧
   DataSource_getitem T 3 = (Raise IndexError, T)).
Proof.
  split.
  - intros Obj S N. repeat split.
    + intros i Hi. by rewrite truncated_getitem_out_of_range.
    + intros Hle. simpl. rewrite truncated_gen_enough by lia.
      by rewrite Z.sub_0_r.
    + intros n Hn. simpl. by rewrite Hn.
    + intros Hn. simpl. by rewrite Hn.
  - split; reflexivity.
Qed.

(** A use of C7 on a source without a length: three elements of a
    five-element iterable. *)
Lemma C7_truncated_source_witness :
  DataSource_iter (_TruncatedDataSource (IterDataSource [true; false; true; true; false]) 3) =
    {| pending := [true; false; true]; final := StopIteration |} ∧
  DataSource_len (_TruncatedDataSource (IterDataSource [true; false; true; true; false]) 3) =
    Ok 3 ∧
  DataSource_len (_TruncatedDataSource (SequenceDataSource [true; false]) 3) =
    Ok 2 ∧
  fst (DataSource_getitem (_TruncatedDataSource (SequenceDataSource [true; false]) 3) 7) =
    Raise IndexError.
Proof.
  pose proof (proj1 C7_truncated_source bool
                (IterDataSource [true; false; true; true; false]) 3)
    as (_ & Hiter & _ & Hlen).
  pose proof (proj1 C7_truncated_source bool
                (SequenceDataSource [true; false]) 3)
    as (Hget & _ & Hmin & _).
  split; [apply Hiter; vm_compute; discriminate|].
  split; [apply Hlen; reflexivity|].
  split; [apply (Hmin 2); reflexivity|].
  apply Hget. lia.
Defined.

(** C9.  When the wrapped source yields fewer than [max_size] elements,
    iterating the truncated source yields those elements and then raises an
    error to the consumer instead of ending: when the wrapped source ends
    normally, the [StopIteration] of [next(iterator)] escapes the generator
    body and arrives as [RuntimeError]; an error of the wrapped iterator
    passes through. *)
Theorem C9_truncated_short_source_fails
    (Obj : Type) (S : DataSource Obj) (max_size : Z) :
  len (pending (DataSource_iter S)) < max_size →
  DataSource_iter (_TruncatedDataSource S max_size) =
    {| pending := pending (DataSource_iter S);
       final := match final (DataSource_iter S) with
                | StopIteration => RuntimeError
                | e => e
                end |} ∧
  (∃ e, consume (DataSource_iter (_TruncatedDataSource S max_size)) =
          Raise e) ∧
  (final (DataSource_iter S) = StopIteration →
   consume (DataSource_iter S) = Ok (pending (DataSource_iter S)) ∧
   consume (DataSource_iter (_TruncatedDataSource S max_size)) =
     Raise RuntimeError).
Proof.
  intros Hlt.
  assert (DataSource_iter (_TruncatedDataSource S max_size) =
            {| pending := pending (DataSource_iter S);
               final := match final (DataSource_iter S) with
                        | StopIteration => RuntimeError
                        | e => e
                        end |}) as Hit.
  { simpl. rewrite truncated_gen_short by lia.
    by destruct (final (DataSource_iter S)). }
  split; [done|]. rewrite Hit. unfold consume. simpl. split.
  - destruct (final (DataSource_iter S)); by eexists.
  - by intros ->.
Qed.

Lemma C9_truncated_short_source_fails_witness :
  DataSource_iter (_TruncatedDataSource (SequenceDataSource [7; 8]) 3) =
    {| pending := [7; 8]; final := RuntimeError |} ∧
  (∃ e, consume (DataSource_iter
                   (_TruncatedDataSource (SequenceDataSource [7; 8]) 3)) =
          Raise e) ∧
  (StopIteration = StopIteration →
   consume (DataSource_iter (SequenceDataSource [7; 8])) = Ok [7; 8] ∧
   consume (DataSource_iter
              (_TruncatedDataSource (SequenceDataSource [7; 8]) 3)) =
     Raise RuntimeError).
Proof.
  apply (C9_truncated_short_source_fails Z (SequenceDataSource [7; 8]) 3).
  vm_compute. reflexivity.
Defined.

(** ** The engine: what a call on the cached source leaves alone *)

Section EngineFrame.
Context {Obj : Type}.
Implicit Types (self : DataBase Obj).

Lemma same_policy_refl self : same_policy self self.
Proof. repeat split. exists []. by rewrite app_nil_r. Qed.

Lemma same_policy_fields self self' :
  _lazy_strategy self' = _lazy_strategy self →
  _cache_strategy self' = _cache_strategy self →
  _supports_random_access self' = _supports_random_access self →
  warnings self' = warnings self →
  same_policy self self'.
Proof.
  intros Hl Hc Hs Hw. repeat split; [done..|].
  exists []. by rewrite app_nil_r.
Qed.

Lemma same_policy_trans self1 self2 self3 :
  same_policy self1 self2 → same_policy self2 self3 →
  same_policy self1 self3.
Proof.
  intros (Hl1 & Hc1 & Hs1 & m1 & Hw1) (Hl2 & Hc2 & Hs2 & m2 & Hw2).
  repeat split; [congruence..|].
  exists (m1 ++ m2). rewrite Hw2, Hw1. by rewrite app_assoc.
Qed.

Lemma same_policy_warn self w : same_policy self (warn self w).
Proof. repeat split. by exists [w]. Qed.

Lemma at_cached_source_frame {A} (m : M (DataSource Obj) A) self r self' :
  at_cached_source m self = (r, self') →
  self' = set_source self (_source self').
Proof.
  unfold at_cached_source. intros H.
  destruct self as [src ? ? ? ? ? ? sra ? ? ? ? ? ? ?]; simpl in *.
  destruct sra; [by inversion H|].
  destruct src as [| | | |src' f|src' st]; try by inversion H.
  - destruct src'; try by inversion H.
    destruct (m _) as [r' c']. by inversion H.
  - destruct (m _) as [r' c']. by inversion H.
Qed.

Lemma at_cached_source_same_policy {A} (m : M (DataSource Obj) A)
    self r self' :
  at_cached_source m self = (r, self') → same_policy self self'.
Proof.
  intros H%at_cached_source_frame. rewrite H.
  by apply same_policy_fields.
Qed.

Lemma prefetch_doubling_same_policy fuel target self e self' :
  prefetch_doubling fuel target self = Some (e, self') →
  same_policy self self'.
Proof.
  revert target self. induction fuel as [|fuel IH]; intros target self H;
    simpl in H; [done|].
  destruct (at_cached_source _ self) as [[u|e'] self1] eqn:Hp.
  - eapply same_policy_trans; [|by eapply IH].
    by eapply at_cached_source_same_policy.
  - inversion H; subst. by eapply at_cached_source_same_policy.
Qed.

Lemma _prefetch_all_source_same_policy fuel self r self' :
  _prefetch_all_source fuel self = Some (r, self') →
  same_policy self self'.
Proof.
  unfold _prefetch_all_source. intros H.
  destruct (at_cached_source (prefetch (10 ^ 8)) self)
    as [[u|e] self1] eqn:H1.
  - apply at_cached_source_same_policy in H1.
    destruct (prefetch_doubling _ _ _) as [[e self2]|] eqn:H2; [|done].
    apply prefetch_doubling_same_policy in H2.
    assert (same_policy self self2) as H12.
    { eapply same_policy_trans; [done|].
      eapply same_policy_trans; [apply same_policy_warn|done]. }
    destruct e; try (inversion H; by subst).
    destruct (at_cached_source cached_max_index self2)
      as [[m|e] self3] eqn:H3;
      apply at_cached_source_same_policy in H3; inversion H; subst;
      (eapply same_policy_trans; [exact H12|]);
      [eapply same_policy_trans; [exact H3|]|exact H3].
    by apply same_policy_fields.
  - apply at_cached_source_same_policy in H1.
    destruct e; try (inversion H; by subst).
    destruct (at_cached_source cached_max_index self1)
      as [[m|e] self3] eqn:H3;
      apply at_cached_source_same_policy in H3; inversion H; subst;
      (eapply same_policy_trans; [exact H1|]);
      [eapply same_policy_trans; [exact H3|]|exact H3].
    by apply same_policy_fields.
Qed.
End EngineFrame.

(** C3.  Construction resolves the requested (laziness, cache) pair: with
    laziness [none] the cache strategy becomes [processed] whatever was
    requested, with one warning exactly when something else was requested;
    with laziness [process] a requested cache [none] becomes [loaded], with a
    warning; with laziness [all] the requested cache is kept and nothing is
    warned.  Every engine that [__init__] returns carries the resolved pair,
    and its warnings start with those of the resolution. *)
Theorem C3_policy_resolution :
  (∀ cache,
      resolve_strategies LazyNONE cache =
        (CachePROCESSED,
         match cache with
         | CachePROCESSED => []
         | _ => [WarnNoneLazy cache]
         end)) ∧
  resolve_strategies LazyPROCESS CacheNONE =
    (CacheLOADED, [WarnProcessLazyNoneCache]) ∧
  (∀ cache, resolve_strategies LazyALL cache = (cache, [])) ∧
  (∀ (Obj : Type) (process : Obj → Obj) fuel source hparams self,
      DataBase_init process fuel source hparams = Some (Ok self) →
      _lazy_strategy self = lazy_strategy hparams ∧
      _cache_strategy self =
        fst (resolve_strategies (lazy_strategy hparams)
               (cache_strategy hparams)) ∧
      ∃ more,
        warnings self =
          snd (resolve_strategies (lazy_strategy hparams)
                 (cache_strategy hparams)) ++ more).
Proof.
  split; [by intros []|]. split; [done|]. split; [by intros []|].
  intros Obj process fuel source hparams self.
  unfold DataBase_init.
  destruct (resolve_strategies _ _) as [cache warned]; simpl.
  destruct (probe_random_access _ _ _) as [[[src sra] size]|e]; [|done].
  set (self0 := Build_DataBase _ _ _ _ _ _ _ _ _ _ _ _ _ _ _ _).
  assert (same_policy self0 self → _lazy_strategy self = lazy_strategy hparams ∧
          _cache_strategy self = cache ∧ ∃ more, warnings self = warned ++ more)
    as Hfin.
  { intros (Hl & Hc & _ & Hw). done. }
  case_bool_decide.
  - destruct (consume _); [|done]. intros [= <-]. apply Hfin.
    by apply same_policy_fields.
  - destruct (bool_decide (lazy_strategy hparams = LazyPROCESS) && negb sra).
    + destruct (_prefetch_all_source fuel self0) as [[[n|e] self1]|] eqn:Hp;
        simpl; [|done..].
      apply _prefetch_all_source_same_policy in Hp.
      case_bool_decide; intros [= <-]; apply Hfin; [|done].
      eapply same_policy_trans; [done|]. by apply same_policy_fields.
    + case_bool_decide; intros [= <-]; apply Hfin;
        by apply same_policy_fields.
Qed.

Lemma C3_policy_resolution_witness :
  ∃ self,
    DataBase_init Z.succ 0 (SequenceDataSource [4; 5])
      {| num_parallel_calls := 1; max_dataset_size := -1;
         lazy_strategy := LazyNONE; cache_strategy := CacheNONE;
         parallelize_processing := true |} = Some (Ok self) ∧
    _lazy_strategy self = LazyNONE ∧
    _cache_strategy self = CachePROCESSED ∧
    ∃ more, warnings self = [WarnNoneLazy CacheNONE] ++ more.
Proof.
  eexists. split; [vm_compute; reflexivity|].
  eapply (proj2 (proj2 (proj2 C3_policy_resolution)) Z Z.succ 0%nat
            (SequenceDataSource [4; 5])
            {| num_parallel_calls := 1; max_dataset_size := -1;
               lazy_strategy := LazyNONE; cache_strategy := CacheNONE;
               parallelize_processing := true |}).
  vm_compute. reflexivity.
Defined.

(** ** Construction over an empty sequence *)

(** C8.  With a lazy strategy other than [none], constructing the engine over
    a [SequenceDataSource] that wraps an empty sequence raises [IndexError]:
    the probe reads element 0 of the source and only [TypeError] is caught.
    (The maximum size is -1 or a size.)  Under the [none] lazy strategy the
    same source gives an engine of size 0, and with a lazy strategy an empty
    source without random access is accepted, its [TypeError] being
    caught. *)
Theorem C8_empty_source_lazy_construction
    (Obj : Type) (process : Obj → Obj) (fuel : nat) (hparams : HParams) :
  (lazy_strategy hparams ≠ LazyNONE →
   -1 ≤ max_dataset_size hparams →
   DataBase_init process fuel (SequenceDataSource []) hparams =
     Some (Raise IndexError)) ∧
  (lazy_strategy hparams = LazyNONE →
   max_dataset_size hparams = -1 →
   ∃ self,
     DataBase_init process fuel (SequenceDataSource []) hparams =
       Some (Ok self) ∧
     _dataset_size self = Some 0 ∧ _processed_cache self = []) ∧
  (lazy_strategy hparams = LazyALL →
   max_dataset_size hparams = -1 →
   ∃ self,
     DataBase_init process fuel (IterDataSource []) hparams =
       Some (Ok self) ∧
     _supports_random_access self = false ∧ _dataset_size self = None).
Proof.
  destruct hparams as [calls size lazy cache par]; simpl.
  split; [|split].
  - intros Hlazy Hsize. unfold DataBase_init; simpl.
    destruct (resolve_strategies lazy cache) as [cache' warned].
    assert (bool_decide (lazy ≠ LazyNONE) = true) as Hprobe
      by by apply bool_decide_eq_true.
    destruct (bool_decide (size ≠ -1)) eqn:Hmax.
    + apply bool_decide_eq_true in Hmax.
      assert (0 ≤ size) as Hsize' by lia.
      destruct (negb par && bool_decide (lazy = LazyALL) &&
                bool_decide (cache' ≠ CacheLOADED));
        unfold probe_random_access; rewrite Hprobe; simpl;
        rewrite len_nil; rewrite Z.min_l by lia; simpl;
        destruct (Z.geb_spec 0 size); simpl; try done;
        by rewrite ?list_getitem_nil.
    + destruct (negb par && bool_decide (lazy = LazyALL) &&
                bool_decide (cache' ≠ CacheLOADED));
        unfold probe_random_access; rewrite Hprobe; simpl;
        by rewrite ?list_getitem_nil.
  - intros -> ->. unfold DataBase_init; simpl.
    destruct cache, par; simpl; eexists; (split; [reflexivity|done]).
  - intros -> ->. unfold DataBase_init; simpl.
    destruct cache, par; simpl; eexists; (split; [reflexivity|done]).
Qed.

Lemma C8_empty_source_lazy_construction_witness :
  DataBase_init Z.succ 0 (SequenceDataSource [])
    {| num_parallel_calls := 1; max_dataset_size := -1;
       lazy_strategy := LazyALL; cache_strategy := CacheLOADED;
       parallelize_processing := true |} = Some (Raise IndexError) ∧
  DataBase_init Z.succ 0 (SequenceDataSource [])
    {| num_parallel_calls := 1; max_dataset_size := 4;
       lazy_strategy := LazyPROCESS; cache_strategy := CachePROCESSED;
       parallelize_processing := false |} = Some (Raise IndexError).
Proof.
  split.
  - apply (C8_empty_source_lazy_construction Z Z.succ 0
             {| num_parallel_calls := 1; max_dataset_size := -1;
                lazy_strategy := LazyALL; cache_strategy := CacheLOADED;
                parallelize_processing := true |}); simpl; [done|lia].
  - apply (C8_empty_source_lazy_construction Z Z.succ 0
             {| num_parallel_calls := 1; max_dataset_size := 4;
                lazy_strategy := LazyPROCESS;
                cache_strategy := CachePROCESSED;
                parallelize_processing := false |}); simpl; [done|lia].
Defined.


(** ** The cached source *)

Section CachedFacts.
Context {Obj : Type}.
Implicit Types (s src : DataSource Obj) (st : CachedState Obj).
Implicit Types (rest xs : list Obj) (fin : exn) (c : Cache Obj).
Implicit Types (d : gmap Z Obj) (m index : Z).

Lemma cache_kind_ok_alt st :
  cache_kind_ok st = kind_ok (_erase_after_access st) (_cache st).
Proof. done. Qed.

(** One step of storing, for a buffer of the right kind. *)
Lemma store_step erase c m x :
  kind_ok erase c = true →
  (if erase then cache_setitem c (m + 1) x else cache_append c x) =
    Ok (extend_cache c m [x]) ∧
  kind_ok erase (extend_cache c m [x]) = true.
Proof. by destruct erase, c. Qed.

Lemma extend_cache_nil c m : extend_cache c m [] = c.
Proof. destruct c; simpl; [done|]. by rewrite app_nil_r. Qed.

Lemma extend_cache_cons c m x xs :
  extend_cache c m (x :: xs) = extend_cache (extend_cache c m [x]) (m + 1) xs.
Proof. destruct c; simpl; [done|]. by rewrite <- app_assoc. Qed.

Lemma extend_cache_kind erase c m xs :
  kind_ok erase (extend_cache c m xs) = kind_ok erase c.
Proof. by destruct erase, c. Qed.

(** A target already reached: the loop of [prefetch] does nothing. *)
Lemma prefetch_loop_reached rest fin m erase c index :
  index ≤ m →
  prefetch_loop rest fin m erase c index =
    (Ok tt, {| _iter := {| pending := rest; final := fin |};
               _max_index := m;
               _erase_after_access := erase; _cache := c |}).
Proof.
  intros Hle. destruct rest; simpl;
    by destruct (Z.ltb_spec m index); [lia|].
Qed.

(** One turn of the [while] loop of [prefetch], with [next] as in the
    source. *)
Lemma CachedState_prefetch_unfold index st :
  CachedState_prefetch index st =
    if _max_index st <? index then
      match next (_iter st) with
      | (Raise e, it) =>
          (Raise e, {| _iter := it; _max_index := _max_index st;
                       _erase_after_access := _erase_after_access st;
                       _cache := _cache st |})
      | (Ok example, it) =>
          let max_index := _max_index st + 1 in
          match (if _erase_after_access st
                 then cache_setitem (_cache st) max_index example
                 else cache_append (_cache st) example) with
          | Ok cache' =>
              CachedState_prefetch index
                {| _iter := it; _max_index := max_index;
                   _erase_after_access := _erase_after_access st;
                   _cache := cache' |}
          | Raise e =>
              (Raise e, {| _iter := it; _max_index := max_index;
                           _erase_after_access := _erase_after_access st;
                           _cache := _cache st |})
          end
      end
    else (Ok tt, st).
Proof.
  destruct st as [[rest fin] m erase c]. unfold CachedState_prefetch, next.
  simpl. destruct rest as [|x rest]; simpl; by destruct (m <? index).
Qed.

(** What [prefetch] does to a buffer of the right kind: with [k] elements
    needed, it pulls [k] when the iterator has them, and otherwise pulls
    what is left and raises the iterator's final signal. *)
Lemma prefetch_loop_spec rest fin m erase c index :
  kind_ok erase c = true →
  prefetch_loop rest fin m erase c index =
    let k := Z.to_nat (index - m) in
    if decide (k ≤ length rest)%nat then
      (Ok tt, {| _iter := {| pending := drop k rest; final := fin |};
                 _max_index := m + Z.of_nat k;
                 _erase_after_access := erase;
                 _cache := extend_cache c m (take k rest) |})
    else
      (Raise fin, {| _iter := exhausted;
                     _max_index := m + len rest;
                     _erase_after_access := erase;
                     _cache := extend_cache c m rest |}).
Proof.
  revert m c. induction rest as [|x rest IH]; intros m c Hkind; simpl.
  - destruct (Z.ltb_spec m index) as [Hlt|Hge].
    + destruct (decide _) as [Hk|Hk]; [lia|].
      by rewrite Z.add_0_r, extend_cache_nil.
    + replace (Z.to_nat (index - m)) with O by lia. simpl.
      by rewrite Z.add_0_r, extend_cache_nil.
  - destruct (Z.ltb_spec m index) as [Hlt|Hge].
    + destruct (store_step erase c m x Hkind) as [-> Hkind'].
      rewrite IH by done. simpl.
      replace (Z.to_nat (index - m))
        with (S (Z.to_nat (index - (m + 1)))) by lia.
      set (k := Z.to_nat (index - (m + 1))).
      destruct (decide (k ≤ length rest)%nat) as [Hk|Hk].
      * rewrite decide_True by lia. simpl.
        rewrite (extend_cache_cons c m x (take k rest)).
        do 2 f_equal. lia.
      * rewrite decide_False by lia.
        rewrite (extend_cache_cons c m x rest), len_cons.
        do 2 f_equal. lia.
    + replace (Z.to_nat (index - m)) with O by lia. simpl.
      by rewrite Z.add_0_r, extend_cache_nil.
Qed.

(** [max_index] never goes down in [prefetch], whatever the buffer. *)
Lemma prefetch_loop_max_index rest fin m erase c index :
  m ≤ _max_index (snd (prefetch_loop rest fin m erase c index)).
Proof.
  revert m c. induction rest as [|x rest IH]; intros m c; simpl.
  - by destruct (m <? index).
  - destruct (m <? index); [|done].
    destruct (if erase then _ else _) as [c'|e]; simpl; [|lia].
    specialize (IH (m + 1) c'). lia.
Qed.

Lemma prefetch_loop_flag rest fin m erase c index :
  _erase_after_access (snd (prefetch_loop rest fin m erase c index)) = erase.
Proof.
  revert m c. induction rest as [|x rest IH]; intros m c; simpl.
  - by destruct (m <? index).
  - destruct (m <? index); [|done].
    by destruct (if erase then _ else _) as [c'|e]; simpl.
Qed.

Lemma CachedState_prefetch_kind index st :
  cache_kind_ok st = true →
  cache_kind_ok (snd (CachedState_prefetch index st)) = true.
Proof.
  intros Hkind. unfold CachedState_prefetch.
  rewrite prefetch_loop_spec by done. simpl.
  destruct (decide _); simpl; rewrite cache_kind_ok_alt; simpl;
    by rewrite extend_cache_kind.
Qed.

(** Reading a cached source. *)
Lemma CachedState_getitem_max_index index st :
  _max_index (snd (CachedState_getitem index st)) = _max_index st.
Proof.
  unfold CachedState_getitem.
  destruct (cache_getitem _ _); [|done].
  destruct (_erase_after_access st); [|done].
  by destruct (cache_delitem _ _).
Qed.

Lemma CachedState_getitem_retain index st :
  _erase_after_access st = false →
  snd (CachedState_getitem index st) = st.
Proof.
  intros Hflag. unfold CachedState_getitem.
  destruct (cache_getitem _ _); [|done]. by rewrite Hflag.
Qed.

Lemma CachedState_getitem_erase index st d :
  _erase_after_access st = true →
  _cache st = DictCache d →
  CachedState_getitem index st =
    match d !! index with
    | Some x =>
        (Ok x, {| _iter := _iter st; _max_index := _max_index st;
                  _erase_after_access := true;
                  _cache := DictCache (delete index d) |})
    | None => (Raise KeyError, st)
    end.
Proof.
  intros Hflag Hcache. unfold CachedState_getitem.
  rewrite Hcache, Hflag. simpl.
  by destruct (d !! index).
Qed.

Lemma CachedState_getitem_kind index st :
  cache_kind_ok st = true →
  cache_kind_ok (snd (CachedState_getitem index st)) = true.
Proof.
  intros Hkind. unfold CachedState_getitem.
  destruct (cache_getitem _ _); [|done].
  destruct st as [it m [] [d|l]]; try done; simpl in *.
  by destruct (d !! index).
Qed.

(** The keys of the erasing buffer. *)
Lemma store_from_lookup d m xs j :
  store_from d m xs !! j =
    if decide (m < j ≤ m + len xs) then xs !! Z.to_nat (j - m - 1)
    else d !! j.
Proof.
  revert d m. induction xs as [|x xs IH]; intros d m; simpl.
  - rewrite len_nil. by rewrite decide_False by lia.
  - rewrite IH, len_cons. pose proof (len_nonneg xs).
    destruct (decide (m + 1 < j ≤ m + 1 + len xs)) as [Hj|Hj].
    + rewrite decide_True by lia.
      replace (Z.to_nat (j - m - 1)) with (S (Z.to_nat (j - (m + 1) - 1)))
        by lia.
      done.
    + destruct (decide (j = m + 1)) as [->|Hne].
      * rewrite lookup_insert_eq. rewrite decide_True by lia.
        by replace (Z.to_nat (m + 1 - m - 1)) with O by lia.
      * rewrite lookup_insert_ne by done. by rewrite decide_False by lia.
Qed.

End CachedFacts.

(** ** Runs of operations on a cached source *)

Section CachedRuns.
Context {Obj : Type}.
Implicit Types (s src : DataSource Obj) (st : CachedState Obj).
Implicit Types (ops : list (@CachedOp)) (op : @CachedOp).

Lemma run_ops_cons op ops s : run_ops (op :: ops) s = run_ops ops (run_op op s).
Proof. done. Qed.

(** An operation on a cached source gives the same cached source with new
    attributes. *)
Lemma run_op_cached op src st :
  ∃ st', run_op op (_CachedDataSource src st) = _CachedDataSource src st'.
Proof.
  destruct op as [index|index|]; simpl.
  - destruct (CachedState_prefetch index st). by eexists.
  - destruct (CachedState_getitem index st). by eexists.
  - destruct (_erase_after_access st); by eexists.
Qed.

Lemma run_op_prefetch index src st :
  run_op (OpPrefetch index) (_CachedDataSource src st) =
    _CachedDataSource src (snd (CachedState_prefetch index st)).
Proof. simpl. by destruct (CachedState_prefetch index st). Qed.

Lemma run_op_getitem index src st :
  run_op (OpGetitem index) (_CachedDataSource src st) =
    _CachedDataSource src (snd (CachedState_getitem index st)).
Proof. simpl. by destruct (CachedState_getitem index st). Qed.

(** A property of the attributes kept by every operation holds after every
    run. *)
Lemma run_ops_invariant (P : CachedState Obj → Prop) src :
  (∀ op st st', P st →
     run_op op (_CachedDataSource src st) = _CachedDataSource src st' →
     P st') →
  ∀ ops st, P st →
    ∃ st', run_ops ops (_CachedDataSource src st) = _CachedDataSource src st' ∧
           P st'.
Proof.
  intros Hstep ops. induction ops as [|op ops IH]; intros st HP.
  - by exists st.
  - rewrite run_ops_cons.
    destruct (run_op_cached op src st) as [st1 Hst1]. rewrite Hst1.
    apply IH. by eapply Hstep.
Qed.

Lemma max_index_step op src st st' :
  is_reset op = false →
  run_op op (_CachedDataSource src st) = _CachedDataSource src st' →
  _max_index st ≤ _max_index st'.
Proof.
  destruct op as [index|index|]; [| |done]; intros _.
  - rewrite run_op_prefetch. intros [= <-]. apply prefetch_loop_max_index.
  - rewrite run_op_getitem. intros [= <-].
    by rewrite CachedState_getitem_max_index.
Qed.

Lemma kind_step op src st st' :
  cache_kind_ok st = true ∧ -1 ≤ _max_index st →
  run_op op (_CachedDataSource src st) = _CachedDataSource src st' →
  cache_kind_ok st' = true ∧ -1 ≤ _max_index st'.
Proof.
  intros [Hkind Hm]. destruct op as [index|index|].
  - rewrite run_op_prefetch. intros [= <-]. split.
    + by apply CachedState_prefetch_kind.
    + etrans; [exact Hm|]. apply prefetch_loop_max_index.
  - rewrite run_op_getitem. intros [= <-]. split.
    + by apply CachedState_getitem_kind.
    + by rewrite CachedState_getitem_max_index.
  - simpl. destruct (_erase_after_access st) eqn:Hflag; intros [= <-]; [|done].
    split; [|done]. unfold cache_kind_ok in *. simpl. by rewrite Hflag in Hkind.
Qed.

Lemma retain_step op src st st' :
  retain_inv src st →
  run_op op (_CachedDataSource src st) = _CachedDataSource src st' →
  retain_inv src st'.
Proof.
  intros (Hflag & l & Hcache & Hlen & Hsrc). destruct op as [index|index|].
  - rewrite run_op_prefetch. intros [= <-].
    unfold CachedState_prefetch.
    rewrite prefetch_loop_spec by by rewrite Hflag, Hcache.
    rewrite Hflag, Hcache. simpl.
    set (k := Z.to_nat (index - _max_index st)).
    destruct (decide (k ≤ length (pending (_iter st)))%nat) as [Hk|Hk];
      (split; [done|]); simpl.
    + exists (l ++ take k (pending (_iter st))). split; [done|]. split.
      * rewrite len_app. unfold len at 2. rewrite length_take. lia.
      * by rewrite <- app_assoc, take_drop.
    + exists (l ++ pending (_iter st)). split; [done|]. split.
      * rewrite len_app. lia.
      * by rewrite app_nil_r.
  - rewrite run_op_getitem, CachedState_getitem_retain by done.
    intros [= <-]. split; [done|]. by exists l.
  - simpl. rewrite Hflag. intros [= <-]. split; [done|]. by exists l.
Qed.

End CachedRuns.

(** C6.  On every cached source, no run of prefetch and read operations
    lowers [max_index]; [reset] sets it to -1 in erase-after-access mode and
    leaves it alone otherwise (after the constructor and any run, [max_index]
    is at least -1 and the buffer has the kind the flag asks for); and for
    [j < i], [prefetch(j)] right after [prefetch(i)] changes nothing, neither
    [max_index] nor the buffer, and succeeds when the first call did. *)
Theorem C6_prefetch_monotone (Obj : Type) :
  (∀ (src : DataSource Obj) st ops,
      forallb (λ op, negb (is_reset op)) ops = true →
      ∃ st', run_ops ops (_CachedDataSource src st) =
               _CachedDataSource src st' ∧
             _max_index st ≤ _max_index st') ∧
  (∀ (src : DataSource Obj) st,
      ∃ st', run_op OpReset (_CachedDataSource src st) =
               _CachedDataSource src st' ∧
             _max_index st' =
               (if _erase_after_access st then -1 else _max_index st) ∧
             _cache st' = _cache st) ∧
  (∀ (src : DataSource Obj) erase ops,
      ∃ st', run_ops ops (new_CachedDataSource src erase) =
               _CachedDataSource src st' ∧
             cache_kind_ok st' = true ∧ -1 ≤ _max_index st') ∧
  (∀ (src : DataSource Obj) st i j,
      cache_kind_ok st = true → j < i →
      let s1 := snd (prefetch i (_CachedDataSource src st)) in
      snd (prefetch j s1) = s1 ∧
      (fst (prefetch i (_CachedDataSource src st)) = Ok tt →
       fst (prefetch j s1) = Ok tt)).
Proof.
  split; [|split; [|split]].
  - intros src st ops. revert st.
    induction ops as [|op ops IH]; intros st Hops.
    + by exists st.
    + simpl in Hops. apply andb_true_iff in Hops as [Hop Hops].
      apply negb_true_iff in Hop.
      rewrite run_ops_cons.
      destruct (run_op_cached op src st) as [st1 Hst1]. rewrite Hst1.
      destruct (IH st1 Hops) as (st' & -> & Hle).
      exists st'. split; [done|].
      pose proof (max_index_step op src st st1 Hop Hst1). lia.
  - intros src st. simpl. destruct (_erase_after_access st); by eexists.
  - intros src erase ops.
    destruct (run_ops_invariant
                (λ st, cache_kind_ok st = true ∧ -1 ≤ _max_index st) src
                (λ op st st', kind_step op src st st') ops
                {| _iter := DataSource_iter src; _max_index := -1;
                   _erase_after_access := erase;
                   _cache := if erase then DictCache ∅ else ListCache [] |})
      as (st' & Hrun & Hkind & Hm).
    { by destruct erase. }
    by exists st'.
  - intros src st i j Hkind Hlt. cbn zeta.
    destruct (prefetch i (_CachedDataSource src st)) as [r1 s1] eqn:H1.
    simpl in H1. unfold CachedState_prefetch in H1.
    rewrite prefetch_loop_spec in H1 by done. simpl in H1.
    destruct (decide _) as [Hk|Hk]; inversion H1; subst; clear H1; simpl;
      unfold CachedState_prefetch; simpl.
    + by rewrite prefetch_loop_reached by lia.
    + by destruct (_ <? j).
Qed.

Lemma C6_prefetch_monotone_witness :
  (∃ st',
      run_ops [OpPrefetch 1; OpGetitem 0; OpPrefetch 0]
        (new_CachedDataSource (IterDataSource [10; 20; 30]) true) =
        _CachedDataSource (IterDataSource [10; 20; 30]) st' ∧
      -1 ≤ _max_index st') ∧
  (let s1 := snd (prefetch 2
                    (new_CachedDataSource (IterDataSource [10; 20; 30]) false))
   in snd (prefetch 1 s1) = s1).
Proof.
  split.
  - apply (proj1 (C6_prefetch_monotone Z) (IterDataSource [10; 20; 30])).
    reflexivity.
  - apply (proj2 (proj2 (proj2 (C6_prefetch_monotone Z)))
             (IterDataSource [10; 20; 30])); [reflexivity|lia].
Defined.

(** C10.  In retain mode, after the constructor and every run of prefetch,
    read and reset operations, the buffer is the list of the first
    [max_index + 1] elements of the wrapped source, in source order, and so
    has that length.  [prefetch] appends what it pulls from the iterator, a
    read leaves the cached source as it is, and so does [reset]. *)
Theorem C10_retained_buffer_is_source_prefix (Obj : Type) :
  (∀ (src : DataSource Obj) ops,
      ∃ st l,
        run_ops ops (new_CachedDataSource src false) =
          _CachedDataSource src st ∧
        _erase_after_access st = false ∧
        _cache st = ListCache l ∧
        l = take (Z.to_nat (_max_index st + 1))
              (pending (DataSource_iter src)) ∧
        len l = _max_index st + 1) ∧
  (∀ (src : DataSource Obj) it m l index,
      let st := {| _iter := it; _max_index := m;
                   _erase_after_access := false; _cache := ListCache l |} in
      (∃ pulled rest,
          pending it = pulled ++ rest ∧
          pending (_iter (snd (CachedState_prefetch index st))) = rest ∧
          _cache (snd (CachedState_prefetch index st)) =
            ListCache (l ++ pulled)) ∧
      snd (DataSource_getitem (_CachedDataSource src st) index) =
        _CachedDataSource src st ∧
      snd (reset (_CachedDataSource src st)) = _CachedDataSource src st).
Proof.
  split.
  - intros src ops.
    destruct (run_ops_invariant (retain_inv src) src
                (λ op st st', retain_step op src st st') ops
                {| _iter := DataSource_iter src; _max_index := -1;
                   _erase_after_access := false; _cache := ListCache [] |})
      as (st' & Hrun & Hflag & l & Hcache & Hlen & Hsrc).
    { split; [done|]. by exists []. }
    exists st', l. repeat split; try done.
    rewrite Hsrc, <- Hlen. unfold len. rewrite Nat2Z.id.
    by rewrite take_app_length.
  - intros src it m l index st. repeat split.
    + unfold CachedState_prefetch. rewrite prefetch_loop_spec by done.
      simpl. set (k := Z.to_nat (index - m)).
      destruct (decide (k ≤ length (pending it))%nat); simpl.
      * exists (take k (pending it)), (drop k (pending it)).
        by rewrite take_drop.
      * exists (pending it), []. by rewrite app_nil_r.
    + simpl. unfold CachedState_getitem. simpl.
      by destruct (list_getitem l index).
Qed.

(** ** Reads that erase, reads that do not *)

Section Reads.
Context {Obj : Type}.
Implicit Types (s src : DataSource Obj) (st : CachedState Obj).
Implicit Types (self : DataBase Obj).



Lemma set_source_id self : set_source self (_source self) = self.
Proof. by destruct self. Qed.











End Reads.




(** ** The full prefetch *)

Section FullPrefetch.
Context {Obj : Type}.
Implicit Types (s src : DataSource Obj) (st : CachedState Obj).
Implicit Types (self : DataBase Obj).

Lemma at_cached_source_state {A} (m : M (DataSource Obj) A) self src st
    (r : result A) st' :
  cached_state_of self = Some (src, st) →
  m (_CachedDataSource src st) = (r, _CachedDataSource src st') →
  ∃ self',
    at_cached_source m self = (r, self') ∧
    cached_state_of self' = Some (src, st') ∧
    self' = set_source self (_source self').
Proof.
  unfold cached_state_of, at_cached_source. intros Hself Hm.
  destruct self as [source ? ? ? ? ? ? sra ? ? ? ? ? ? ?]; simpl in *.
  destruct sra; [done|].
  destruct source as [| | | |src' f|src' st0]; try done.
  - destruct src' as [| | | | |src'' st0]; try done.
    inversion Hself; subst. rewrite Hm. by eexists.
  - inversion Hself; subst. rewrite Hm. by eexists.
Qed.

Lemma at_cached_prefetch target self src st :
  cached_state_of self = Some (src, st) →
  ∃ self',
    at_cached_source (prefetch target) self =
      (fst (CachedState_prefetch target st), self') ∧
    cached_state_of self' =
      Some (src, snd (CachedState_prefetch target st)) ∧
    self' = set_source self (_source self').
Proof.
  intros Hself. eapply at_cached_source_state; [done|].
  simpl. by destruct (CachedState_prefetch target st).
Qed.

Lemma at_cached_max_index self src st :
  cached_state_of self = Some (src, st) →
  at_cached_source cached_max_index self = (Ok (_max_index st), self).
Proof.
  unfold cached_state_of, at_cached_source. intros Hself.
  destruct self as [source ? ? ? ? ? ? sra ? ? ? ? ? ? ?]; simpl in *.
  destruct sra; [done|].
  destruct source as [| | | |src' f|src' st0]; try done.
  - destruct src' as [| | | | |src'' st0]; try done.
    by inversion Hself; subst.
  - by inversion Hself; subst.
Qed.

(** A target at or beyond the number of elements: [prefetch] pulls what is
    left and raises the iterator's signal. *)
Lemma prefetch_exhausts target st :
  cache_kind_ok st = true →
  elements_in_all st ≤ target →
  fst (CachedState_prefetch target st) = Raise (final (_iter st)) ∧
  _max_index (snd (CachedState_prefetch target st)) = elements_in_all st - 1 ∧
  _iter (snd (CachedState_prefetch target st)) = exhausted.
Proof.
  intros Hkind Hle. unfold CachedState_prefetch, elements_in_all, len in *.
  rewrite prefetch_loop_spec by done. simpl.
  rewrite decide_False by lia. simpl. unfold len. repeat split; lia.
Qed.

(** A target below the number of elements: [prefetch] succeeds, and the
    elements pulled and those still to come add up as before. *)
Lemma prefetch_within target st :
  cache_kind_ok st = true →
  target < elements_in_all st →
  fst (CachedState_prefetch target st) = Ok tt ∧
  elements_in_all (snd (CachedState_prefetch target st)) = elements_in_all st ∧
  final (_iter (snd (CachedState_prefetch target st))) = final (_iter st) ∧
  cache_kind_ok (snd (CachedState_prefetch target st)) = true.
Proof.
  intros Hkind Hlt.
  pose proof (CachedState_prefetch_kind target st Hkind) as Hkind'.
  unfold CachedState_prefetch, elements_in_all, len in *.
  rewrite prefetch_loop_spec in * by done. simpl in *.
  rewrite decide_True in * by lia. simpl in *.
  repeat split; try done. unfold len. rewrite length_drop. lia.
Qed.

(** The doubling loop ends as soon as the target passes the number of
    elements, which [fuel] doublings are enough for. *)
Lemma prefetch_doubling_ends fuel target self src st :
  cached_state_of self = Some (src, st) →
  cache_kind_ok st = true →
  final (_iter st) = StopIteration →
  0 < target < elements_in_all st →
  elements_in_all st ≤ target * 2 ^ Z.of_nat fuel →
  ∃ self' st',
    prefetch_doubling fuel target self = Some (StopIteration, self') ∧
    cached_state_of self' = Some (src, st') ∧
    _max_index st' = elements_in_all st - 1 ∧
    _iter st' = exhausted ∧
    self' = set_source self (_source self').
Proof.
  revert target self st.
  induction fuel as [|fuel IH]; intros target self st Hself Hkind Hfin Hpos
    Henough.
  - simpl in Henough. lia.
  - simpl.
    destruct (at_cached_prefetch (target * 2) self src st Hself)
      as (self1 & -> & Hself1 & Hframe1).
    destruct (decide (elements_in_all st ≤ target * 2)) as [Hle|Hgt].
    + destruct (prefetch_exhausts (target * 2) st Hkind Hle)
        as (-> & Hm & Hit).
      rewrite Hfin. by exists self1, (snd (CachedState_prefetch (target * 2) st)).
    + destruct (prefetch_within (target * 2) st Hkind ltac:(lia))
        as (-> & Hall & Hfin' & Hkind').
      destruct (IH (target * 2) self1
                  (snd (CachedState_prefetch (target * 2) st)))
        as (self' & st' & Hloop & Hself' & Hm & Hit & Hframe');
        try done; try congruence; try lia.
      * rewrite Hall.
        replace (target * 2 * 2 ^ Z.of_nat fuel)
          with (target * 2 ^ Z.of_nat (S fuel)); [done|].
        rewrite Nat2Z.inj_succ, Z.pow_succ_r by lia. lia.
      * exists self', st'. rewrite Hloop, <- Hall. repeat split; try done.
        rewrite Hframe', Hframe1. done.
Qed.

End FullPrefetch.

(** C4.  On an engine whose cached source has a buffer of the right kind and
    an iterator that ends with the end-of-source signal, the full prefetch
    returns as soon as the fuel covers the doublings needed, with the number
    of elements pulled so far plus those the iterator still held; that number
    is the new [_dataset_size] and is [max_index + 1] of the exhausted
    cached source, and the warning is given exactly when the first target
    10^8 was reached.  For a cached source just constructed over a source
    that ends normally, this is the number of elements of the source, and
    some amount of fuel is always enough. *)
Theorem C4_full_prefetch_terminates (Obj : Type) :
  (∀ (self : DataBase Obj) src st fuel,
      cached_state_of self = Some (src, st) →
      cache_kind_ok st = true →
      final (_iter st) = StopIteration →
      elements_in_all st ≤ 10 ^ 8 * 2 ^ Z.of_nat fuel →
      ∃ self' st',
        _prefetch_all_source fuel self =
          Some (Ok (elements_in_all st), self') ∧
        _dataset_size self' = Some (elements_in_all st) ∧
        cached_state_of self' = Some (src, st') ∧
        _max_index st' + 1 = elements_in_all st ∧
        _iter st' = exhausted ∧
        warnings self' =
          warnings self ++
          (if 10 ^ 8 <? elements_in_all st then [WarnMoreThan (10 ^ 8)]
           else [])) ∧
  (∀ (self : DataBase Obj) src erase,
      cached_state_of self =
        Some (src, {| _iter := DataSource_iter src; _max_index := -1;
                      _erase_after_access := erase;
                      _cache := if erase then DictCache ∅
                                else ListCache [] |}) →
      final (DataSource_iter src) = StopIteration →
      ∃ fuel0, ∀ fuel, (fuel0 ≤ fuel)%nat →
        ∃ self',
          _prefetch_all_source fuel self =
            Some (Ok (len (pending (DataSource_iter src))), self') ∧
          _dataset_size self' = Some (len (pending (DataSource_iter src))) ∧
          at_cached_source cached_max_index self' =
            (Ok (len (pending (DataSource_iter src)) - 1), self')).
Proof.
  assert (∀ (self : DataBase Obj) src st fuel,
      cached_state_of self = Some (src, st) →
      cache_kind_ok st = true →
      final (_iter st) = StopIteration →
      elements_in_all st ≤ 10 ^ 8 * 2 ^ Z.of_nat fuel →
      ∃ self' st',
        _prefetch_all_source fuel self =
          Some (Ok (elements_in_all st), self') ∧
        _dataset_size self' = Some (elements_in_all st) ∧
        cached_state_of self' = Some (src, st') ∧
        _max_index st' + 1 = elements_in_all st ∧
        _iter st' = exhausted ∧
        warnings self' =
          warnings self ++
          (if 10 ^ 8 <? elements_in_all st then [WarnMoreThan (10 ^ 8)]
           else [])) as Hmain.
  { intros self src st fuel Hself Hkind Hfin Hfuel.
    unfold _prefetch_all_source. cbv zeta.
    set (big := 10 ^ 8) in *.
    assert (0 < big) as Hbig by done.
    destruct (at_cached_prefetch big self src st Hself)
      as (self1 & -> & Hself1 & Hframe1).
    destruct (Z.ltb_spec big (elements_in_all st)) as [Hlt|Hge].
    - destruct (prefetch_within big st Hkind Hlt)
        as (-> & Hall & Hfin' & Hkind').
      destruct (prefetch_doubling_ends fuel big
                  (warn self1 (WarnMoreThan big)) src
                  (snd (CachedState_prefetch big st)))
        as (self2 & st2 & -> & Hself2 & Hm & Hit & Hframe2);
        try done; try congruence; try lia.
      rewrite (at_cached_max_index self2 src st2 Hself2).
      rewrite Hm, Hall.
      replace (elements_in_all st - 1 + 1) with (elements_in_all st) by lia.
      eexists _, st2. split; [done|]. repeat split; try done; try lia.
      simpl. rewrite Hframe2. simpl. by rewrite Hframe1.
    - destruct (prefetch_exhausts big st Hkind Hge) as (-> & Hm & Hit).
      rewrite Hfin.
      rewrite (at_cached_max_index self1 src _ Hself1).
      rewrite Hm.
      replace (elements_in_all st - 1 + 1) with (elements_in_all st) by lia.
      eexists _, _. split; [done|]. repeat split; try done; try lia.
      simpl. rewrite Hframe1. simpl. by rewrite app_nil_r. }
  split; [exact Hmain|].
  intros self src erase Hself Hfin.
  set (st := Build_CachedState _ _ _ _ _) in Hself.
  assert (elements_in_all st = len (pending (DataSource_iter src))) as Hall.
  { unfold elements_in_all, st. simpl. lia. }
  exists (Z.to_nat (len (pending (DataSource_iter src)))).
  intros fuel Hfuel.
  destruct (Hmain self src st fuel Hself)
    as (self' & st' & Hrun & Hsize & Hself' & Hm & _); try done.
  { by destruct erase. }
  { rewrite Hall. pose proof (len_nonneg (pending (DataSource_iter src))).
    set (n := len (pending (DataSource_iter src))) in *.
    assert (n < 2 ^ n) by (apply Z.pow_gt_lin_r; lia).
    assert (2 ^ n ≤ 2 ^ Z.of_nat fuel) by (apply Z.pow_le_mono_r; lia).
    assert (0 < 2 ^ Z.of_nat fuel) by (apply Z.pow_pos_nonneg; lia).
    assert (1 ≤ 10 ^ 8) by done. nia. }
  exists self'. rewrite <- Hall. repeat split; try done.
  rewrite (at_cached_max_index self' src st' Hself'). do 2 f_equal. lia.
Qed.

Lemma C4_full_prefetch_terminates_witness :
  ∃ self,
    DataBase_init Z.succ 0 (IterDataSource [10; 20; 30])
      {| num_parallel_calls := 1; max_dataset_size := -1;
         lazy_strategy := LazyALL; cache_strategy := CacheNONE;
         parallelize_processing := true |} = Some (Ok self) ∧
    ∃ self',
      _prefetch_all_source 0 self = Some (Ok 3, self') ∧
      _dataset_size self' = Some 3 ∧
      warnings self' = [].
Proof.
  eexists. split; [vm_compute; reflexivity|].
  match goal with
  | |- ∃ self', _prefetch_all_source _ ?self = _ ∧ _ =>
      destruct (proj1 (C4_full_prefetch_terminates Z) self
                  (IterDataSource [10; 20; 30])
                  {| _iter := {| pending := [10; 20; 30];
                                 final := StopIteration |};
                     _max_index := -1;
                     _erase_after_access := true;
                     _cache := DictCache ∅ |} 0%nat)
        as (self' & st' & Hrun & Hsize & _ & _ & _ & Hwarn)
  end.
  - reflexivity.
  - reflexivity.
  - reflexivity.
  - vm_compute. discriminate.
  - exists self'. split; [exact Hrun|]. split; [exact Hsize|exact Hwarn].
Defined.

(** ** Ingesting processed examples *)

Section Ingest.
Context {Obj : Type}.
Implicit Types (self : DataBase Obj) (reorder : gmap Z Obj).
Implicit Types (cache moved : list Obj).

(** The loop that drains the reorder buffer: given fuel for every entry, it
    ends; it moves to the cache the entries found under the consecutive keys
    that follow the cache, removes exactly those, and stops at a key that is
    absent. *)
Lemma drain_spec fuel cache reorder :
  (size reorder ≤ fuel)%nat →
  ∃ moved reorder',
    drain fuel cache reorder = Some (cache ++ moved, reorder') ∧
    reorder' !! len (cache ++ moved) = None ∧
    (∀ k, (k < length moved)%nat →
          reorder !! (len cache + Z.of_nat k) = moved !! k) ∧
    (∀ j, reorder' !! j =
            if decide (len cache ≤ j < len cache + len moved) then None
            else reorder !! j).
Proof.
  revert cache reorder.
  induction fuel as [|fuel IH]; intros cache reorder Hsize.
  - apply Nat.le_0_r, map_size_empty_inv in Hsize as ->.
    exists [], ∅. simpl. rewrite lookup_empty, app_nil_r.
    split; [done|]. split; [apply lookup_empty|]. split.
    + intros k; simpl; lia.
    + intros j. rewrite lookup_empty. by destruct (decide _).
  - simpl. destruct (reorder !! len cache) as [example|] eqn:Hhead.
    + destruct (IH (cache ++ [example]) (delete (len cache) reorder))
        as (moved & reorder' & -> & Hstop & Hmoved & Hrest).
      { rewrite map_size_delete, Hhead. simpl. lia. }
      exists (example :: moved), reorder'.
      rewrite <- app_assoc in *. simpl in *.
      split; [done|]. split; [done|]. split.
      * intros [|k] Hk; simpl.
        -- by rewrite Z.add_0_r.
        -- rewrite <- Hmoved by lia.
           rewrite len_app. change (len [example]) with 1.
           rewrite lookup_delete_ne by lia. f_equal. lia.
      * intros j. rewrite Hrest, len_app, !len_cons, len_nil.
        pose proof (len_nonneg moved).
        destruct (decide (j = len cache)) as [->|Hne].
        -- rewrite decide_False by lia. rewrite decide_True by lia.
           apply lookup_delete_eq.
        -- rewrite lookup_delete_ne by done.
           destruct (decide (len cache + (1 + 0) ≤ j <
                             len cache + (1 + 0) + len moved));
             [by rewrite decide_True by lia|by rewrite decide_False by lia].
    + exists [], reorder. rewrite app_nil_r.
      split; [done|]. split; [done|]. split.
      * intros k; simpl; lia.
      * intros j. rewrite len_nil. by rewrite decide_False by lia.
Qed.

(** The [for] loop over the pairs never fails when the reorder buffer
    exists; it touches the two caches only. *)
Lemma ingest_spec pairs self reorder :
  _reorder_cache self = Some reorder →
  ∃ self1 reorder1,
    ingest pairs self = (Ok tt, self1) ∧
    _reorder_cache self1 = Some reorder1 ∧
    (size reorder1 ≤ size reorder + length pairs)%nat ∧
    _dataset_size self1 = _dataset_size self ∧
    _fully_cached self1 = _fully_cached self ∧
    _source self1 = _source self.
Proof.
  revert self reorder.
  induction pairs as [|[index example] pairs IH]; intros self reorder Hre.
  - exists self, reorder. simpl. repeat split; try done. lia.
  - simpl. destruct (index =? len (_processed_cache self)).
    + destruct (IH (set_processed_cache self
                      (_processed_cache self ++ [example])) reorder Hre)
        as (self1 & reorder1 & -> & Hre1 & Hsize & Hds & Hfc & Hsrc).
      exists self1, reorder1. repeat split; try done. lia.
    + rewrite Hre.
      destruct (IH (set_reorder_cache self (Some (<[index:=example]> reorder)))
                  (<[index:=example]> reorder) eq_refl)
        as (self1 & reorder1 & -> & Hre1 & Hsize & Hds & Hfc & Hsrc).
      exists self1, reorder1. repeat split; try done.
      rewrite map_size_insert in Hsize.
      destruct (reorder !! index); simpl in Hsize; lia.
Qed.

(** Deleting raw examples from the cached source leaves the caches of the
    engine alone. *)
Lemma delete_cached_frame indices self r self' :
  delete_cached indices self = (r, self') →
  self' = set_source self (_source self').
Proof.
  revert self. induction indices as [|index indices IH]; intros self H;
    simpl in H.
  - inversion H; subst. by rewrite set_source_id.
  - destruct (at_cached_source (del_cache index) self) as [[u|e] self1] eqn:H1;
      apply at_cached_source_frame in H1.
    + apply IH in H. rewrite H, H1. done.
    + by inversion H; subst.
Qed.

End Ingest.

(** C2.  [_add_cached_examples] takes the pairs in the order given: a pair
    whose index is the current length of the processed cache is appended to
    it, any other pair goes to the reorder buffer.  After the batch the loop
    moves to the cache the entries under the keys that follow it, one after
    the other, and stops at the first key that is absent, so the buffer holds
    no entry for the next index; with fuel for every buffered entry the call
    returns.  Fed the indices 2, 0, 1 one call at a time, an engine over
    three elements holds the cache [e0; e1; e2] at the end and is fully
    cached after the third call only; fed as one batch the result is the
    same. *)
Theorem C2_add_cached_examples (Obj : Type) :
  (∀ (self : DataBase Obj) reorder index example pairs,
      _reorder_cache self = Some reorder →
      ingest ((index, example) :: pairs) self =
        ingest pairs
          (if index =? len (_processed_cache self)
           then set_processed_cache self (_processed_cache self ++ [example])
           else set_reorder_cache self
                  (Some (<[index:=example]> reorder)))) ∧
  (∀ (self : DataBase Obj) reorder fuel indices examples self0,
      _reorder_cache self = Some reorder →
      (if _should_delete_source_in_add_cache self
       then delete_cached indices self else (Ok tt, self)) = (Ok tt, self0) →
      (size reorder + length indices ≤ fuel)%nat →
      ∃ self1 reorder1 moved reorder',
        ingest (zip indices examples) self0 = (Ok tt, self1) ∧
        _reorder_cache self1 = Some reorder1 ∧
        _add_cached_examples fuel indices examples self =
          Some (Ok tt,
                mark_fully_cached
                  (set_reorder_cache
                     (set_processed_cache self1
                        (_processed_cache self1 ++ moved))
                     (Some reorder'))) ∧
        reorder' !! len (_processed_cache self1 ++ moved) = None ∧
        (∀ k, (k < length moved)%nat →
              reorder1 !! (len (_processed_cache self1) + Z.of_nat k) =
                moved !! k) ∧
        (∀ j, reorder' !! j =
                if decide (len (_processed_cache self1) ≤ j <
                           len (_processed_cache self1) + len moved)
                then None else reorder1 !! j)) ∧
  (∀ (process : Obj → Obj) r0 r1 r2 e0 e1 e2,
      ∃ self0 self1 self2 self3,
        DataBase_init process 0 (SequenceDataSource [r0; r1; r2])
          {| num_parallel_calls := 1; max_dataset_size := -1;
             lazy_strategy := LazyALL; cache_strategy := CachePROCESSED;
             parallelize_processing := true |} = Some (Ok self0) ∧
        _dataset_size self0 = Some 3 ∧
        _add_cached_examples 3 [2] [e2] self0 = Some (Ok tt, self1) ∧
        _processed_cache self1 = [] ∧ _fully_cached self1 = false ∧
        _add_cached_examples 3 [0] [e0] self1 = Some (Ok tt, self2) ∧
        _processed_cache self2 = [e0] ∧ _fully_cached self2 = false ∧
        _add_cached_examples 3 [1] [e1] self2 = Some (Ok tt, self3) ∧
        _processed_cache self3 = [e0; e1; e2] ∧
        _fully_cached self3 = true ∧
        _reorder_cache self3 = Some ∅ ∧
        ∃ self3',
          _add_cached_examples 3 [2; 0; 1] [e2; e0; e1] self0 =
            Some (Ok tt, self3') ∧
          _processed_cache self3' = [e0; e1; e2] ∧
          _fully_cached self3' = true).
Proof.
  split; [|split].
  - intros self reorder index example pairs Hre. simpl.
    destruct (index =? len (_processed_cache self)); [done|]. by rewrite Hre.
  - intros self reorder fuel indices examples self0 Hre Hdel Hfuel.
    assert (_reorder_cache self0 = Some reorder) as Hre0.
    { destruct (_should_delete_source_in_add_cache self).
      - apply delete_cached_frame in Hdel. rewrite Hdel. done.
      - by inversion Hdel; subst. }
    destruct (ingest_spec (zip indices examples) self0 reorder Hre0)
      as (self1 & reorder1 & Hing & Hre1 & Hsize & _).
    destruct (drain_spec fuel (_processed_cache self1) reorder1)
      as (moved & reorder' & Hdrain & Hstop & Hmoved & Hrest).
    { rewrite length_zip in Hsize. lia. }
    exists self1, reorder1, moved, reorder'.
    split; [done|]. split; [done|]. split; [|done].
    unfold _add_cached_examples. by rewrite Hdel, Hing, Hre1, Hdrain.
  - intros process r0 r1 r2 e0 e1 e2.
    eexists _, _, _, _.
    split; [vm_compute; reflexivity|]. split; [reflexivity|].
    split; [vm_compute; reflexivity|]. split; [reflexivity|].
    split; [reflexivity|].
    split; [vm_compute; reflexivity|]. split; [reflexivity|].
    split; [reflexivity|].
    split; [vm_compute; reflexivity|]. split; [reflexivity|].
    split; [reflexivity|]. split; [reflexivity|].
    eexists. split; [vm_compute; reflexivity|]. by split.
Qed.

Lemma C2_add_cached_examples_witness :
  ∃ self,
    DataBase_init Z.succ 0 (SequenceDataSource [1; 2; 3])
      {| num_parallel_calls := 1; max_dataset_size := -1;
         lazy_strategy := LazyALL; cache_strategy := CachePROCESSED;
         parallelize_processing := true |} = Some (Ok self) ∧
    ∃ self1 reorder1 moved reorder',
      ingest (zip [2; 0] [30; 10]) self = (Ok tt, self1) ∧
      _reorder_cache self1 = Some reorder1 ∧
      _add_cached_examples 2 [2; 0] [30; 10] self =
        Some (Ok tt,
              mark_fully_cached
                (set_reorder_cache
                   (set_processed_cache self1
                      (_processed_cache self1 ++ moved))
                   (Some reorder'))) ∧
      reorder' !! len (_processed_cache self1 ++ moved) = None.
Proof.
  eexists. split; [vm_compute; reflexivity|].
  match goal with
  | |- ∃ self1 _ _ _, ingest _ ?self = _ ∧ _ =>
      destruct (proj1 (proj2 (C2_add_cached_examples Z)) self ∅ 2%nat
                  [2; 0] [30; 10] self)
        as (self1 & reorder1 & moved & reorder' & H1 & H2 & H3 & H4 & _)
  end.
  - reflexivity.
  - reflexivity.
  - vm_compute. lia.
  - exists self1, reorder1, moved, reorder'. by repeat split.
Defined.

(** ** Eager construction against lazy reads *)

Section EagerLazy.
Context {Obj : Type}.
Implicit Types (self : DataBase Obj) (xs : list Obj).

Lemma get_each_unchanged process (f : Z → result Obj) indices self :
  (∀ i, i ∈ indices →
        DataBase_getitem process (IntIndex i) self = (f i, self)) →
  get_each process indices self = map f indices.
Proof.
  induction indices as [|i indices IH]; intros Hget; [done|].
  change (get_each process (i :: indices) self)
    with (let (r, self') := DataBase_getitem process (IntIndex i) self in
          r :: get_each process indices self').
  rewrite Hget by apply list_elem_of_here. simpl.
  f_equal. apply IH. intros j Hj. apply Hget. by apply list_elem_of_further.
Qed.

Lemma map_seqZ_lookup (f : Z → result Obj) (g : Obj → result Obj) pre xs :
  (∀ k x, (pre ++ xs) !! k = Some x → f (Z.of_nat k) = g x) →
  map f (seqZ (len pre) (len xs)) = map g xs.
Proof.
  revert pre. induction xs as [|x xs IH]; intros pre Hf.
  - done.
  - rewrite len_cons, seqZ_cons by (pose proof (len_nonneg xs); lia).
    simpl. f_equal.
    + apply (Hf (length pre)). by rewrite list_lookup_middle.
    + replace (Z.succ (len pre)) with (len (pre ++ [x]))
        by (rewrite len_app; change (len [x]) with 1; lia).
      replace (Z.pred (1 + len xs)) with (len xs) by lia.
      apply IH. intros k y. rewrite <- app_assoc. apply Hf.
Qed.

(** Reading every index of a sequence through an engine that is not fully
    cached, when every read goes through the processing routine once:
    either the engine applies it to what the plain sequence gives, or the
    sequence was wrapped to apply it and the engine passes the result on. *)
Lemma lazy_reads_processed process xs self :
  _fully_cached self = false →
  (_parallelize_processing self = true ∧
   _source self = SequenceDataSource xs) ∨
  (_parallelize_processing self = false ∧
   _source self =
     _TransformedDataSource (SequenceDataSource xs) process) →
  get_each process (seqZ 0 (len xs)) self =
    map (λ x, Ok (process x)) xs.
Proof.
  intros Hfull Hshape.
  rewrite (get_each_unchanged process
             (λ i, result_map process (list_getitem xs i))).
  - apply (map_seqZ_lookup _ (λ x, Ok (process x)) []).
    intros k x Hk. simpl in Hk.
    rewrite (list_getitem_nonneg xs (Z.of_nat k) x); [done|lia|].
    by rewrite Nat2Z.id.
  - intros i _. unfold DataBase_getitem, source_getitem. rewrite Hfull.
    destruct Hshape as [[-> Hsrc]|[-> Hsrc]]; simpl; rewrite Hsrc; simpl;
      rewrite <- Hsrc; by rewrite set_source_id.
Qed.

End EagerLazy.

(** Eager construction over a sequence processes every element, in order. *)
Lemma eager_construction {Obj : Type} (process : Obj → Obj) fuel xs hparams :
  lazy_strategy hparams = LazyNONE →
  max_dataset_size hparams = -1 →
  ∃ self,
    DataBase_init process fuel (SequenceDataSource xs) hparams =
      Some (Ok self) ∧
    _processed_cache self = map process xs ∧
    _fully_cached self = true ∧
    _dataset_size self = Some (len (map process xs)).
Proof.
  destruct hparams as [calls size lazy cache par]; simpl.
  intros -> ->. unfold DataBase_init; simpl.
  destruct cache, par; simpl; eexists; (split; [reflexivity|done]).
Qed.

(** Lazy construction over a non-empty sequence, and the reads of all its
    indices in order: they are the processed elements, except under the
    [process] lazy strategy with the [processed] cache strategy and
    processing kept on the caller's side. *)
Lemma lazy_construction_reads {Obj : Type} (process : Obj → Obj) fuel x xs
    hparams :
  lazy_strategy hparams ≠ LazyNONE →
  max_dataset_size hparams = -1 →
  ¬ (lazy_strategy hparams = LazyPROCESS ∧
     cache_strategy hparams = CachePROCESSED ∧
     parallelize_processing hparams = false) →
  ∃ self,
    DataBase_init process fuel (SequenceDataSource (x :: xs)) hparams =
      Some (Ok self) ∧
    get_each process (seqZ 0 (len (x :: xs))) self =
      map (λ y, Ok (process y)) (x :: xs).
Proof.
  destruct hparams as [calls size lazy cache par]; simpl.
  intros Hlazy -> Hbad. unfold DataBase_init.
  destruct lazy, cache, par; try done; try (destruct Hbad; done);
    eexists; (split; [simpl; reflexivity|]);
    (apply (lazy_reads_processed process (x :: xs)); [done|simpl; auto]).
Qed.

(** C1.  The code at two inputs where eager construction and lazy reads part
    ways.  Over the one-element sequence [5] with the successor as processing
    routine, eager construction caches [6]; the engine built under the
    [process] lazy strategy with the [processed] cache strategy and
    [parallelize_processing] off reads index 0 as 5, unprocessed.  Over the
    empty sequence eager construction gives the empty cache, and
    construction under a lazy strategy raises [IndexError]. *)
Theorem C1_eager_lazy_divergence :
  (∃ eager lazy,
      DataBase_init Z.succ 0 (SequenceDataSource [5])
        {| num_parallel_calls := 1; max_dataset_size := -1;
           lazy_strategy := LazyNONE; cache_strategy := CachePROCESSED;
           parallelize_processing := false |} = Some (Ok eager) ∧
      _processed_cache eager = [6] ∧
      DataBase_init Z.succ 0 (SequenceDataSource [5])
        {| num_parallel_calls := 1; max_dataset_size := -1;
           lazy_strategy := LazyPROCESS; cache_strategy := CachePROCESSED;
           parallelize_processing := false |} = Some (Ok lazy) ∧
      get_each Z.succ (seqZ 0 1) lazy = [Ok 5]) ∧
  (∃ eager,
      DataBase_init Z.succ 0 (SequenceDataSource [])
        {| num_parallel_calls := 1; max_dataset_size := -1;
           lazy_strategy := LazyNONE; cache_strategy := CachePROCESSED;
           parallelize_processing := true |} = Some (Ok eager) ∧
      _processed_cache eager = [] ∧
      DataBase_init Z.succ 0 (SequenceDataSource [])
        {| num_parallel_calls := 1; max_dataset_size := -1;
           lazy_strategy := LazyALL; cache_strategy := CachePROCESSED;
           parallelize_processing := true |} = Some (Raise IndexError)).
Proof.
  split.
  - eexists _, _. split; [vm_compute; reflexivity|]. split; [reflexivity|].
    split; [vm_compute; reflexivity|]. reflexivity.
  - eexists. split; [vm_compute; reflexivity|]. by split.
Qed.

(** Where the two ways of building the engine agree: over a non-empty
    sequence, outside the combination singled out above, the lazy reads of
    all indices in order are the elements of the eagerly built cache. *)
Lemma eager_matches_lazy_reads {Obj : Type} (process : Obj → Obj) fuel x xs
    eager_hparams lazy_hparams :
  lazy_strategy eager_hparams = LazyNONE →
  max_dataset_size eager_hparams = -1 →
  lazy_strategy lazy_hparams ≠ LazyNONE →
  max_dataset_size lazy_hparams = -1 →
  ¬ (lazy_strategy lazy_hparams = LazyPROCESS ∧
     cache_strategy lazy_hparams = CachePROCESSED ∧
     parallelize_processing lazy_hparams = false) →
  ∃ eager lazy,
    DataBase_init process fuel (SequenceDataSource (x :: xs)) eager_hparams =
      Some (Ok eager) ∧
    DataBase_init process fuel (SequenceDataSource (x :: xs)) lazy_hparams =
      Some (Ok lazy) ∧
    get_each process (seqZ 0 (len (x :: xs))) lazy =
      map Ok (_processed_cache eager).
Proof.
  intros He Hesize Hl Hlsize Hbad.
  destruct (eager_construction process fuel (x :: xs) eager_hparams He Hesize)
    as (eager & Heager & Hcache & _).
  destruct (lazy_construction_reads process fuel x xs lazy_hparams Hl Hlsize
              Hbad) as (lazy & Hlazy & Hreads).
  exists eager, lazy. split; [done|]. split; [done|].
  rewrite Hreads, Hcache. by rewrite <- list_fmap_compose.
Qed.

(** * Further properties *)

(** ** Random access against iteration *)

Section RandomAccess.
Context {Obj : Type}.
Implicit Types (s src : DataSource Obj) (xs : list Obj).

Lemma builtin_len_idemp r : builtin_len (builtin_len r) = builtin_len r.
Proof.
  destruct r as [n|e]; simpl; [|done].
  destruct (n <? 0) eqn:Hn; simpl; [done|]. by rewrite Hn.
Qed.

Lemma builtin_len_Ok r n : builtin_len r = Ok n → r = Ok n ∧ 0 ≤ n.
Proof.
  destruct r as [m|e]; simpl; [|done].
  destruct (Z.ltb_spec m 0); [done|]. by intros [= ->].
Qed.

Lemma list_getitem_Ok_nonneg xs i x :
  0 ≤ i → list_getitem xs i = Ok x → xs !! Z.to_nat i = Some x.
Proof.
  intros Hi. unfold list_getitem, norm_index.
  destruct (Z.ltb_spec i 0); [lia|].
  destruct (_ && _); [|done].
  by destruct (xs !! Z.to_nat i); intros [= ->].
Qed.

(** A chain over a sequence never answers [len] with [TypeError]. *)
Lemma random_access_len s :
  random_access s = true →
  builtin_len (DataSource_len s) ≠ Raise TypeError.
Proof.
  induction s as [seq|it|src IH f|src IH n|src IH f|src IH st];
    intros Hra; simpl in *; try done.
  - pose proof (len_nonneg seq). by destruct (Z.ltb_spec (len seq) 0).
  - specialize (IH Hra).
    destruct (builtin_len (DataSource_len src)) as [m|[]]; simpl; try done.
    by destruct (Z.min m n <? 0).
  - rewrite builtin_len_idemp. by apply IH.
Qed.

(** On a chain over a sequence whose length is known to be [n], iteration
    yields [n] elements and reading index [i < n] returns the [i]-th of
    them, leaving the chain as it is. *)
Lemma random_access_reads s n :
  random_access s = true →
  builtin_len (DataSource_len s) = Ok n →
  len (pending (DataSource_iter s)) = n ∧
  ∀ i, 0 ≤ i < n →
       ∃ x, pending (DataSource_iter s) !! Z.to_nat i = Some x ∧
            DataSource_getitem s i = (Ok x, s).
Proof.
  revert n.
  induction s as [seq|it|src IH f|src IH N|src IH f|src IH st];
    intros n Hra Hlen; simpl in *; try done.
  - destruct (Z.ltb_spec (len seq) 0); [done|]. injection Hlen as <-.
    split; [done|]. intros i Hi.
    destruct (lookup_lt_is_Some_2 seq (Z.to_nat i)) as [x Hx];
      [unfold len in Hi; lia|].
    exists x. split; [done|].
    rewrite (list_getitem_nonneg seq i x); [done|lia|done].
  - pose proof (random_access_len src Hra) as Hnot.
    destruct (builtin_len (DataSource_len src)) as [m|e] eqn:Hm;
      [|by destruct e].
    apply builtin_len_Ok in Hlen as [[= <-] Hnn].
    destruct (IH m Hra eq_refl) as [Hall Hread].
    set (rest := pending (DataSource_iter src)) in *.
    destruct (decide (N ≤ len rest)) as [Hle|Hgt].
    + rewrite truncated_gen_enough by lia. simpl. rewrite Z.sub_0_r. split.
      * unfold len in *. rewrite length_take. lia.
      * intros i Hi. destruct (Z.geb_spec i N); [lia|].
        destruct (Hread i) as (x & Hx & ->); [lia|].
        exists x. split; [|done]. by rewrite lookup_take_lt by lia.
    + rewrite truncated_gen_short by lia. simpl. split; [lia|].
      intros i Hi. destruct (Z.geb_spec i N); [lia|].
      destruct (Hread i) as (x & Hx & ->); [lia|]. by exists x.
  - rewrite builtin_len_idemp in Hlen.
    destruct (IH n Hra Hlen) as [Hall Hread]. split.
    + unfold len in *. by rewrite length_map.
    + intros i Hi. destruct (Hread i Hi) as (x & Hx & ->).
      exists (f x). split; [|done].
      change (map f ?l) with (f <$> l). by rewrite list_lookup_fmap, Hx.
Qed.

End RandomAccess.

(** X1.  On a sequence source, possibly truncated and transformed, whose
    [len] is [n]: iterating yields exactly [n] elements, and for every
    [0 <= i < n] reading index [i] returns the [i]-th element of the
    iteration and leaves the source unchanged. *)
Theorem X1_random_access_agrees_with_iteration
    (Obj : Type) (s : DataSource Obj) (n : Z) :
  random_access s = true →
  builtin_len (DataSource_len s) = Ok n →
  len (pending (DataSource_iter s)) = n ∧
  ∀ i, 0 ≤ i < n →
       ∃ x, pending (DataSource_iter s) !! Z.to_nat i = Some x ∧
            DataSource_getitem s i = (Ok x, s).
Proof. apply random_access_reads. Qed.

Lemma X1_random_access_agrees_with_iteration_witness :
  len (pending (DataSource_iter
                  (_TransformedDataSource
                     (_TruncatedDataSource
                        (SequenceDataSource [1; 2; 3; 4]) 3) Z.succ))) = 3 ∧
  ∀ i, 0 ≤ i < 3 →
       ∃ x, pending (DataSource_iter
                       (_TransformedDataSource
                          (_TruncatedDataSource
                             (SequenceDataSource [1; 2; 3; 4]) 3) Z.succ))
              !! Z.to_nat i = Some x ∧
            DataSource_getitem
              (_TransformedDataSource
                 (_TruncatedDataSource
                    (SequenceDataSource [1; 2; 3; 4]) 3) Z.succ) i =
              (Ok x, _TransformedDataSource
                       (_TruncatedDataSource
                          (SequenceDataSource [1; 2; 3; 4]) 3) Z.succ).
Proof.
  apply (X1_random_access_agrees_with_iteration Z
           (_TransformedDataSource
              (_TruncatedDataSource (SequenceDataSource [1; 2; 3; 4]) 3)
              Z.succ) 3); reflexivity.
Defined.

(** X2.  A negative index passes the bound check of a truncated source and
    is resolved by the wrapped sequence from its end: for a bound [N >= 0]
    and [-len(xs) <= i < 0], reading index [i] of the truncation of [xs]
    returns [xs[len(xs) + i]], also when that position lies at or beyond
    [N]. *)
Theorem X2_truncated_negative_index
    (Obj : Type) (xs : list Obj) (N i : Z) :
  0 ≤ N → - len xs ≤ i < 0 →
  ∃ x, xs !! Z.to_nat (len xs + i) = Some x ∧
       DataSource_getitem (_TruncatedDataSource (SequenceDataSource xs) N) i =
         (Ok x, _TruncatedDataSource (SequenceDataSource xs) N).
Proof.
  intros HN Hi. simpl. destruct (Z.geb_spec i N); [lia|].
  destruct (lookup_lt_is_Some_2 xs (Z.to_nat (len xs + i))) as [x Hx];
    [unfold len in *; lia|].
  exists x. split; [done|]. unfold list_getitem, norm_index.
  destruct (Z.ltb_spec i 0); [|lia].
  destruct (Z.leb_spec 0 (i + len xs)); [|lia].
  destruct (Z.ltb_spec (i + len xs) (len xs)); [|lia]. simpl.
  by rewrite (Z.add_comm i), Hx.
Qed.

Lemma X2_truncated_negative_index_witness :
  ∃ x, [1; 2; 3; 4; 5] !! Z.to_nat (len [1; 2; 3; 4; 5] + -1) = Some x ∧
       DataSource_getitem
         (_TruncatedDataSource (SequenceDataSource [1; 2; 3; 4; 5]) 2) (-1) =
         (Ok x, _TruncatedDataSource (SequenceDataSource [1; 2; 3; 4; 5]) 2).
Proof.
  apply (X2_truncated_negative_index Z [1; 2; 3; 4; 5] 2 (-1)).
  - lia.
  - unfold len. simpl. lia.
Defined.

(** ** What a cached source hands out *)

Section CachedSound.
Context {Obj : Type}.
Implicit Types (s src : DataSource Obj) (st : CachedState Obj).

Lemma in_step_kind first later st :
  in_step first later st → cache_kind_ok st = true.
Proof.
  intros (cur & pulled & _ & _ & _ & Hc). unfold cache_kind_ok, kind_ok.
  destruct (_cache st); by destruct Hc as [-> _].
Qed.

(** Iterators obtained later do not disturb it. *)
Lemma in_step_more first later more st :
  in_step first later st → in_step first (later ++ more) st.
Proof.
  intros (cur & pulled & Hcur & Hpend & Hlen & Hc).
  assert (∀ it, it ∈ first :: later → it ∈ first :: later ++ more) as Hin.
  { intros it [->|Hit]%elem_of_cons; [by left|right].
    apply elem_of_app. by left. }
  exists cur, pulled. split; [by apply Hin|]. split; [done|]. split; [done|].
  destruct (_cache st); [|done].
  destruct Hc as [Hflag Hkeys]. split; [done|].
  intros k x Hk. destruct (Hkeys k x Hk) as (Hk0 & it & Hit & Hx).
  split; [done|]. exists it. split; [by apply Hin|done].
Qed.

(** Pulling the next elements keeps the cached source in step. *)
Lemma in_step_pull first later st xs rest it :
  pending (_iter st) = xs ++ rest →
  pending it = rest →
  in_step first later st →
  in_step first later
    {| _iter := it; _max_index := _max_index st + len xs;
       _erase_after_access := _erase_after_access st;
       _cache := extend_cache (_cache st) (_max_index st) xs |}.
Proof.
  intros Hpend Hit (cur & pulled & Hcur & Hsrc & Hlen & Hc).
  exists cur, (pulled ++ xs). simpl. rewrite Hit.
  split; [done|].
  split; [by rewrite <- app_assoc, <- Hpend|].
  split; [rewrite len_app; lia|].
  destruct (_cache st) as [d|l]; simpl.
  - destruct Hc as [Hflag Hkeys]. split; [done|].
    intros j x. rewrite store_from_lookup.
    pose proof (len_nonneg pulled).
    destruct (decide _) as [Hj|Hj]; [|apply Hkeys].
    intros Hx. split; [lia|]. exists cur. split; [done|].
    rewrite Hsrc, Hpend, lookup_app_r by (unfold len in *; lia).
    apply lookup_app_l_Some.
    by replace (Z.to_nat j - length pulled)%nat
      with (Z.to_nat (j - _max_index st - 1)) by (unfold len in *; lia).
  - destruct Hc as (Hflag & -> & ->). done.
Qed.

(** Every call keeps the cached source in step, a [reset] with the
    iterator it obtained. *)
Lemma in_step_call call first later src st :
  in_step first later st →
  ∃ st',
    run_call call (_CachedDataSource src st) = _CachedDataSource src st' ∧
    in_step first (later ++ resets_of [call]) st' ∧
    _erase_after_access st' = _erase_after_access st.
Proof.
  intros Hstep. pose proof (in_step_kind first later st Hstep) as Hkind.
  destruct call as [index|index|fresh]; simpl.
  - rewrite app_nil_r.
    exists (snd (CachedState_prefetch index st)).
    split; [by destruct (CachedState_prefetch index st)|].
    unfold CachedState_prefetch. rewrite prefetch_loop_spec by done. simpl.
    set (k := Z.to_nat (index - _max_index st)).
    destruct (decide (k ≤ length (pending (_iter st)))%nat) as [Hk|Hk];
      (split; [|done]).
    + replace (Z.of_nat k) with (len (take k (pending (_iter st))))
        by (unfold len; rewrite length_take; lia).
      apply (in_step_pull first later st (take k (pending (_iter st)))
               (drop k (pending (_iter st))));
        [by rewrite take_drop|done|done].
    + apply (in_step_pull first later st (pending (_iter st)) []);
        [by rewrite app_nil_r|done|done].
  - rewrite app_nil_r.
    exists (snd (CachedState_getitem index st)).
    split; [by destruct (CachedState_getitem index st)|].
    destruct Hstep as (cur & pulled & Hcur & Hsrc & Hlen & Hc).
    unfold CachedState_getitem.
    destruct (cache_getitem _ _); [|split; [by exists cur, pulled|done]].
    destruct (_cache st) as [d|l] eqn:Hcache.
    + destruct Hc as [Hflag Hkeys]. rewrite Hflag. simpl.
      destruct (d !! index); simpl.
      * split; [|done]. exists cur, pulled. simpl.
        split; [done|]. split; [done|]. split; [done|].
        split; [done|]. intros j y Hj. apply Hkeys.
        destruct (decide (index = j)) as [->|Hne].
        -- by rewrite lookup_delete_eq in Hj.
        -- by rewrite lookup_delete_ne in Hj.
      * split; [|done]. exists cur, pulled. simpl. by rewrite Hcache.
    + destruct Hc as (Hflag & Hl & Hfirst). rewrite Hflag.
      split; [|done]. exists cur, pulled. simpl. by rewrite Hcache.
  - destruct (_erase_after_access st) eqn:Hflag.
    + eexists. split; [done|]. split; [|done].
      destruct Hstep as (cur & pulled & Hcur & Hsrc & Hlen & Hc).
      exists fresh, []. simpl.
      split; [right; apply elem_of_app; right; by left|].
      split; [done|]. split; [done|].
      destruct (_cache st) as [d|l]; [|destruct Hc as [Hf _]; congruence].
      destruct Hc as [_ Hkeys]. split; [done|].
      intros k x Hk. destruct (Hkeys k x Hk) as (Hk0 & it & Hit & Hx).
      split; [done|]. exists it. split; [|done].
      apply elem_of_cons in Hit as [->|Hit]; [by left|right].
      apply elem_of_app. by left.
    + exists st. split; [done|]. split; [|done].
      by apply in_step_more.
Qed.

(** A run of calls from a state in step ends in a state in step with the
    iterators of its resets added. *)
Lemma run_calls_in_step calls first later src st :
  in_step first later st →
  ∃ st',
    run_calls calls (_CachedDataSource src st) = _CachedDataSource src st' ∧
    in_step first (later ++ resets_of calls) st' ∧
    _erase_after_access st' = _erase_after_access st.
Proof.
  revert later st. induction calls as [|call calls IH]; intros later st Hstep.
  - exists st. simpl. by rewrite app_nil_r.
  - destruct (in_step_call call first later src st Hstep)
      as (st1 & Hrun1 & Hstep1 & Hflag1).
    destruct (IH _ st1 Hstep1) as (st' & Hrun & Hstep' & Hflag').
    exists st'. split; [|split; [|congruence]].
    + unfold run_calls in *. simpl. by rewrite Hrun1.
    + replace (resets_of (call :: calls))
        with (resets_of [call] ++ resets_of calls)
        by (by destruct call).
      by rewrite app_assoc.
Qed.

Lemma in_step_new src erase :
  in_step (DataSource_iter src) []
    {| _iter := DataSource_iter src; _max_index := -1;
       _erase_after_access := erase;
       _cache := if erase then DictCache ∅ else ListCache [] |}.
Proof.
  exists (DataSource_iter src), []. simpl.
  split; [by left|]. split; [done|]. split; [done|].
  destruct erase; [|done]. split; [done|].
  intros k x Hx. by rewrite lookup_empty in Hx.
Qed.

Lemma CachedState_getitem_Ok index st x :
  fst (CachedState_getitem index st) = Ok x →
  cache_getitem (_cache st) index = Ok x.
Proof.
  unfold CachedState_getitem.
  destruct (cache_getitem _ _) as [y|e]; [|done].
  destruct (_erase_after_access st); [|done].
  by destruct (cache_delitem _ _).
Qed.

(** A [prefetch] that returns has reached its target. *)
Lemma prefetch_ok_covers index st :
  cache_kind_ok st = true →
  fst (CachedState_prefetch index st) = Ok tt →
  index ≤ _max_index (snd (CachedState_prefetch index st)).
Proof.
  intros Hkind. unfold CachedState_prefetch.
  rewrite prefetch_loop_spec by done. simpl.
  destruct (decide _); simpl; [lia|done].
Qed.

End CachedSound.

(** X3.  A cached source hands out nothing but what the iterators it was
    given yield, each element at its position.  After the constructor and
    any run of prefetch, read and reset calls, in either mode, a read of an
    index [i >= 0] that succeeds returns the [i]-th element yielded by the
    iterator that the constructor obtained from the source, or by one that
    a reset obtained.  In retain mode, and whenever every reset obtained an
    iterator that yields what the source yields from its start (a sequence,
    an iterable that can be iterated again), that is the [i]-th element of
    the source.  An [IterDataSource] that holds an iterator or a generator
    hands the same object to every reset, with the elements it has left, and
    an index then holds an element counted from where a reset found it. *)
Theorem X3_cached_reads_are_source_elements
    (Obj : Type) (src : DataSource Obj) (erase : bool)
    (calls : list (CachedCall Obj)) (i : Z) (x : Obj) :
  0 ≤ i →
  fst (DataSource_getitem
         (run_calls calls (new_CachedDataSource src erase)) i) = Ok x →
  (∃ it, it ∈ DataSource_iter src :: resets_of calls ∧
         pending it !! Z.to_nat i = Some x) ∧
  (erase = false ∨
   Forall (λ it, pending it = pending (DataSource_iter src))
     (resets_of calls) →
   pending (DataSource_iter src) !! Z.to_nat i = Some x).
Proof.
  intros Hi. unfold new_CachedDataSource.
  destruct (run_calls_in_step calls (DataSource_iter src) [] src _
              (in_step_new src erase))
    as (st & -> & (cur & pulled & Hcur & Hsrc & Hlen & Hc) & Hflag).
  simpl in *.
  destruct (CachedState_getitem i st) as [r st'] eqn:Hget. simpl.
  intros ->.
  pose proof (CachedState_getitem_Ok i st x) as Hx.
  rewrite Hget in Hx. specialize (Hx eq_refl).
  destruct (_cache st) as [d|l]; simpl in Hx.
  - destruct Hc as [Herase Hkeys]. destruct (d !! i) as [y|] eqn:Hd; [|done].
    injection Hx as ->. destruct (Hkeys i x Hd) as (_ & it & Hit & Hitx).
    split; [by exists it|].
    intros [->|Hall]; [congruence|].
    apply elem_of_cons in Hit as [->|Hit]; [done|].
    rewrite Forall_forall in Hall. by rewrite <- (Hall it Hit).
  - destruct Hc as (_ & -> & ->).
    assert (pending (DataSource_iter src) !! Z.to_nat i = Some x) as Hfirst.
    { rewrite Hsrc. apply lookup_app_l_Some.
      by apply list_getitem_Ok_nonneg. }
    split; [|done]. exists (DataSource_iter src). split; [by left|done].
Qed.

Lemma X3_cached_reads_are_source_elements_witness :
  ∃ it, it ∈ DataSource_iter (IterDataSource [10; 20; 30]) ::
               resets_of [CallPrefetch 1; CallGetitem 0;
                          CallReset {| pending := [30];
                                       final := StopIteration |};
                          CallPrefetch 0] ∧
        pending it !! Z.to_nat 0 = Some 30.
Proof.
  apply (X3_cached_reads_are_source_elements Z (IterDataSource [10; 20; 30])
           true
           [CallPrefetch 1; CallGetitem 0;
            CallReset {| pending := [30]; final := StopIteration |};
            CallPrefetch 0] 0 30).
  - lia.
  - reflexivity.
Defined.

(** X4.  In retain mode, once [prefetch(k)] has returned, every index from 0
    to [k] can be read, any number of times: the read returns the element of
    the wrapped source at that index and leaves the cached source as it
    is. *)
Theorem X4_retained_prefix_is_readable
    (Obj : Type) (src : DataSource Obj) ops (k j : Z) :
  fst (prefetch k (run_ops ops (new_CachedDataSource src false))) = Ok tt →
  0 ≤ j ≤ k →
  ∃ x, pending (DataSource_iter src) !! Z.to_nat j = Some x ∧
       DataSource_getitem
         (snd (prefetch k (run_ops ops (new_CachedDataSource src false)))) j =
         (Ok x,
          snd (prefetch k (run_ops ops (new_CachedDataSource src false)))).
Proof.
  unfold new_CachedDataSource.
  destruct (run_ops_invariant (retain_inv src) src
              (λ op st st', retain_step op src st st') ops
              {| _iter := DataSource_iter src; _max_index := -1;
                 _erase_after_access := false; _cache := ListCache [] |})
    as (st & -> & Hinv).
  { split; [done|]. by exists []. }
  intros Hok Hj.
  assert (cache_kind_ok st = true) as Hkind.
  { destruct Hinv as (Hflag & l & Hcache & _).
    unfold cache_kind_ok. by rewrite Hflag, Hcache. }
  pose proof (retain_step (OpPrefetch k) src st _ Hinv
                (run_op_prefetch k src st))
    as (Hflag & l & Hcache & Hlen & Hsrc).
  simpl in Hok |- *.
  pose proof (prefetch_ok_covers k st Hkind) as Hcover.
  destruct (CachedState_prefetch k st) as [r st'] eqn:Hpre. simpl in *.
  specialize (Hcover Hok).
  destruct (lookup_lt_is_Some_2 l (Z.to_nat j)) as [x Hx];
    [unfold len in *; lia|].
  exists x. split.
  - rewrite Hsrc. by apply lookup_app_l_Some.
  - unfold CachedState_getitem. rewrite Hcache, Hflag. simpl.
    rewrite (list_getitem_nonneg l j x); [done|lia|done].
Qed.

Lemma X4_retained_prefix_is_readable_witness :
  ∃ x, [10; 20; 30] !! Z.to_nat 1 = Some x ∧
       DataSource_getitem
         (snd (prefetch 1
                 (run_ops [OpPrefetch 0; OpGetitem 0]
                    (new_CachedDataSource (IterDataSource [10; 20; 30])
                       false)))) 1 =
         (Ok x,
          snd (prefetch 1
                 (run_ops [OpPrefetch 0; OpGetitem 0]
                    (new_CachedDataSource (IterDataSource [10; 20; 30])
                       false)))).
Proof.
  apply (X4_retained_prefix_is_readable Z (IterDataSource [10; 20; 30])
           [OpPrefetch 0; OpGetitem 0] 1 1).
  - reflexivity.
  - lia.
Defined.

(** X5.  In erase-after-access mode [reset] followed by a [prefetch(k)] that
    returns makes every index from 0 to [k] readable again, whatever was
    read and erased before: the read returns, once, the element at that
    position of the iterator that [reset] obtained from [iter(self._source)];
    the same read again raises [KeyError].  For a source that starts from
    its first element whenever it is iterated, [reset] obtains such an
    iterator and the read returns the element of the source at that index;
    an [IterDataSource] that holds an iterator or a generator hands [reset]
    that same object, and index [j] then holds the [j]-th of the elements it
    had left. *)
Theorem X5_reset_and_prefetch_restore_reads
    (Obj : Type) (src : DataSource Obj) it m (d : gmap Z Obj)
    (fresh : iterator Obj) (k j : Z) :
  let s := _CachedDataSource src
             {| _iter := it; _max_index := m;
                _erase_after_access := true; _cache := DictCache d |} in
  fst (prefetch k (snd (reset_to fresh s))) = Ok tt →
  0 ≤ j ≤ k →
  reset s = reset_to (DataSource_iter src) s ∧
  ∃ x, pending fresh !! Z.to_nat j = Some x ∧
       fst (DataSource_getitem (snd (prefetch k (snd (reset_to fresh s)))) j) =
         Ok x ∧
       fst (DataSource_getitem
              (snd (DataSource_getitem
                      (snd (prefetch k (snd (reset_to fresh s)))) j)) j) =
         Raise KeyError.
Proof.
  cbn zeta. simpl. unfold CachedState_prefetch.
  rewrite prefetch_loop_spec by done. simpl.
  set (rest := pending fresh).
  set (n := Z.to_nat (k - -1)).
  destruct (decide (n ≤ length rest)%nat) as [Hn|Hn]; simpl; [|done].
  intros _ Hj. split; [done|].
  destruct (lookup_lt_is_Some_2 rest (Z.to_nat j)) as [x Hx];
    [unfold n in *; lia|].
  exists x. split; [done|].
  set (d' := store_from d (-1) (take n rest)).
  assert (d' !! j = Some x) as Hd.
  { unfold d'. rewrite store_from_lookup.
    assert (len (take n rest) = Z.of_nat n) as ->.
    { unfold len. by rewrite length_take_le. }
    rewrite decide_True by (unfold n; lia).
    rewrite lookup_take_lt by (unfold n; lia).
    by replace (Z.to_nat (j - -1 - 1)) with (Z.to_nat j) by lia. }
  rewrite (CachedState_getitem_erase j _ d') by done.
  rewrite Hd. simpl.
  rewrite (CachedState_getitem_erase j _ (delete j d')) by done.
  by rewrite lookup_delete_eq.
Qed.

Lemma X5_reset_and_prefetch_restore_reads_witness :
  ∃ x, [30] !! Z.to_nat 0 = Some x ∧
       fst (DataSource_getitem
              (snd (prefetch 0
                      (snd (reset_to
                              {| pending := [30]; final := StopIteration |}
                              (_CachedDataSource (IterDataSource [10; 20; 30])
                                 {| _iter := {| pending := [30];
                                                final := StopIteration |};
                                    _max_index := 1;
                                    _erase_after_access := true;
                                    _cache := DictCache {[1 := 20]} |})))))
              0) = Ok x.
Proof.
  destruct (X5_reset_and_prefetch_restore_reads Z
              (IterDataSource [10; 20; 30])
              {| pending := [30]; final := StopIteration |} 1 {[1 := 20]}
              {| pending := [30]; final := StopIteration |} 0 0)
    as (_ & x & Hx & Hread & _).
  - reflexivity.
  - lia.
  - exists x. split; [exact Hx|exact Hread].
Defined.

(** ** What no call takes away from an engine *)

Section Grown.
Context {Obj : Type}.
Variable process : Obj → Obj.
Implicit Types (self : DataBase Obj).

Lemma grown_refl self : grown self self.
Proof. by repeat split. Qed.

Lemma grown_trans self1 self2 self3 :
  grown self1 self2 → grown self2 self3 → grown self1 self3.
Proof.
  intros (Hp1 & Hf1 & Hl1 & Hc1 & Hs1 & Hr1) (Hp2 & Hf2 & Hl2 & Hc2 & Hs2 & Hr2).
  repeat split; [by etrans|auto|congruence..].
Qed.

(** Assignments that keep the processed cache as a prefix and do not clear
    [_fully_cached]. *)
Lemma grown_fields self self' :
  _processed_cache self `prefix_of` _processed_cache self' →
  (_fully_cached self = true → _fully_cached self' = true) →
  _lazy_strategy self' = _lazy_strategy self →
  _cache_strategy self' = _cache_strategy self →
  _supports_random_access self' = _supports_random_access self →
  _parallelize_processing self' = _parallelize_processing self →
  grown self self'.
Proof. by repeat split. Qed.

Lemma grown_set_source self v : grown self (set_source self v).
Proof. by apply grown_fields. Qed.

Lemma grown_mark self : grown self (mark_fully_cached self).
Proof.
  unfold mark_fully_cached. destruct (bool_decide _); [|apply grown_refl].
  by apply grown_fields.
Qed.

Lemma grown_at_cached_source {A} (m : M (DataSource Obj) A) self r self' :
  at_cached_source m self = (r, self') → grown self self'.
Proof.
  intros H%at_cached_source_frame. rewrite H. apply grown_set_source.
Qed.

Lemma grown_source_getitem item self :
  grown self (snd (source_getitem item self)).
Proof.
  unfold source_getitem. destruct (DataSource_getitem _ _).
  apply grown_set_source.
Qed.

Lemma grown_getitem index self :
  grown self (snd (DataBase_getitem process index self)).
Proof.
  unfold DataBase_getitem. destruct index as [i|i raw].
  - destruct (_fully_cached self); [apply grown_refl|].
    pose proof (grown_source_getitem i self) as Hg.
    destruct (negb _); [done|]. by destruct (source_getitem i self).
  - destruct (negb _); apply grown_refl.
Qed.

Lemma grown_delete_cached indices self :
  grown self (snd (delete_cached indices self)).
Proof.
  destruct (delete_cached indices self) as [r self'] eqn:H.
  apply delete_cached_frame in H. simpl. rewrite H. apply grown_set_source.
Qed.

Lemma grown_ingest pairs self : grown self (snd (ingest pairs self)).
Proof.
  revert self. induction pairs as [|[index example] pairs IH]; intros self;
    simpl; [apply grown_refl|].
  destruct (index =? _).
  - eapply grown_trans; [|apply IH].
    apply grown_fields; try done. simpl. by apply prefix_app_r.
  - destruct (_reorder_cache self); [|apply grown_refl].
    eapply grown_trans; [|apply IH]. by apply grown_fields.
Qed.

Lemma drain_prefix fuel (cache : list Obj) reorder cache' reorder' :
  drain fuel cache reorder = Some (cache', reorder') →
  cache `prefix_of` cache'.
Proof.
  revert cache reorder. induction fuel as [|fuel IH]; intros cache reorder;
    simpl; destruct (reorder !! len cache); try done.
  - by intros [= <- <-].
  - intros H%IH. etrans; [|done]. by apply prefix_app_r.
  - by intros [= <- <-].
Qed.

Lemma grown_add_cached fuel indices examples self r self' :
  _add_cached_examples fuel indices examples self = Some (r, self') →
  grown self self'.
Proof.
  unfold _add_cached_examples.
  assert (grown self
            (snd (if _should_delete_source_in_add_cache self
                  then delete_cached indices self else (Ok tt, self))))
    as H1.
  { destruct (_should_delete_source_in_add_cache self);
      [apply grown_delete_cached|apply grown_refl]. }
  destruct (if _should_delete_source_in_add_cache self then _ else _)
    as [[u|e] self1]; simpl in H1; [|by intros [= <- <-]].
  pose proof (grown_ingest (zip indices examples) self1) as H2.
  destruct (ingest _ self1) as [[u'|e] self2]; simpl in H2;
    [|intros [= <- <-]; by eapply grown_trans].
  assert (grown self self2) as H12 by by eapply grown_trans.
  destruct (_reorder_cache self2) as [reorder|]; [|by intros [= <- <-]].
  destruct (drain _ _ _) as [[cache' reorder']|] eqn:Hd; [|done].
  apply drain_prefix in Hd. intros [= <- <-].
  eapply grown_trans; [exact H12|].
  eapply grown_trans; [|apply grown_mark]. by apply grown_fields.
Qed.

Lemma grown_extend_processed n x self :
  grown self (snd (extend_processed process n x self)).
Proof.
  revert x self. induction n as [|n IH]; intros x self; simpl;
    [apply grown_refl|].
  pose proof (grown_source_getitem x self) as Hg.
  destruct (source_getitem x self) as [[raw|e] self1]; simpl in Hg; [|done].
  eapply grown_trans; [exact Hg|]. eapply grown_trans; [|apply IH].
  apply grown_fields; try done. simpl. by apply prefix_app_r.
Qed.

Lemma grown_prefetch_processed index self :
  grown self (snd (_prefetch_processed process index self)).
Proof.
  unfold _prefetch_processed. destruct (_ <=? index); [|apply grown_refl].
  pose proof (grown_extend_processed
                (Z.to_nat (index + 1 - len (_processed_cache self)))
                (len (_processed_cache self)) self) as Hg.
  destruct (extend_processed _ _ _ _) as [[u|e] self1]; simpl in *; [|done].
  eapply grown_trans; [exact Hg|apply grown_mark].
Qed.

Lemma grown_prefetch_doubling fuel target self e self' :
  prefetch_doubling fuel target self = Some (e, self') → grown self self'.
Proof.
  revert target self. induction fuel as [|fuel IH]; intros target self H;
    simpl in H; [done|].
  destruct (at_cached_source _ self) as [[u|e'] self1] eqn:H1;
    apply grown_at_cached_source in H1.
  - eapply grown_trans; [exact H1|by eapply IH].
  - by inversion H; subst.
Qed.

Lemma grown_prefetch_all fuel self r self' :
  _prefetch_all_source fuel self = Some (r, self') → grown self self'.
Proof.
  unfold _prefetch_all_source.
  destruct (at_cached_source (prefetch (10 ^ 8)) self) as [[u|e] self1] eqn:H1;
    apply grown_at_cached_source in H1.
  - destruct (prefetch_doubling _ _ _) as [[e self2]|] eqn:H2; [|done].
    apply grown_prefetch_doubling in H2.
    assert (grown self self2) as H12.
    { eapply grown_trans; [exact H1|].
      eapply grown_trans; [|exact H2]. by apply grown_fields. }
    destruct e; try (intros [= <- <-]; done).
    destruct (at_cached_source cached_max_index self2) as [[m|e] self3] eqn:H3;
      apply grown_at_cached_source in H3; intros [= <- <-].
    + eapply grown_trans; [exact H12|].
      eapply grown_trans; [exact H3|]. by apply grown_fields.
    + by eapply grown_trans.
  - destruct e; try (intros [= <- <-]; done).
    destruct (at_cached_source cached_max_index self1) as [[m|e] self3] eqn:H3;
      apply grown_at_cached_source in H3; intros [= <- <-].
    + eapply grown_trans; [exact H1|].
      eapply grown_trans; [exact H3|]. by apply grown_fields.
    + by eapply grown_trans.
Qed.

Lemma grown_prefetch_source index self :
  grown self (snd (_prefetch_source process index self)).
Proof.
  unfold _prefetch_source. destruct (negb _).
  - destruct (at_cached_source (prefetch index) self) as [[u|e] self1] eqn:H1;
      apply grown_at_cached_source in H1.
    + destruct (_should_call_prefetch_processed self1); [|done].
      pose proof (grown_prefetch_processed index self1) as H2.
      destruct (_prefetch_processed _ _ _) as [[u'|e] self2]; simpl in *;
        by eapply grown_trans.
    + destruct e; try done.
      destruct (at_cached_source cached_max_index self1)
        as [[m|e] self2] eqn:H2;
        apply grown_at_cached_source in H2; [|by eapply grown_trans].
      assert (grown self (set_dataset_size self2 (Some (m + 1)))) as H3.
      { eapply grown_trans; [exact H1|].
        eapply grown_trans; [exact H2|]. by apply grown_fields. }
      destruct (_should_call_prefetch_processed _); [|done].
      pose proof (grown_prefetch_processed (m + 1 - 1)
                    (set_dataset_size self2 (Some (m + 1)))) as H4.
      destruct (_prefetch_processed _ _ _) as [[u'|e] self3]; simpl in *;
        by eapply grown_trans.
  - destruct (_dataset_size self); [|apply grown_refl].
    destruct (_ >=? _); apply grown_refl.
Qed.

Lemma grown_len fuel self r self' :
  DataBase_len fuel self = Some (r, self') → grown self self'.
Proof.
  unfold DataBase_len. destruct (_dataset_size self).
  - intros [= <- <-]. apply grown_refl.
  - destruct (_prefetch_all_source _ _) as [[[n|e] self1]|] eqn:H1; [| |done];
      apply grown_prefetch_all in H1; intros [= <- <-];
      (eapply grown_trans; [|exact H1]); by apply grown_fields.
Qed.

Lemma grown_start_iteration self :
  grown self (snd (_start_iteration self)).
Proof.
  unfold _start_iteration. destruct (negb _); [|apply grown_refl].
  destruct (at_cached_source reset self) as [r self'] eqn:H.
  by apply grown_at_cached_source in H.
Qed.

Lemma grown_step op self self' :
  engine_step process op self = Some self' → grown self self'.
Proof.
  destruct op as [index|fuel indices examples|index|index|fuel|fuel|]; simpl.
  - intros [= <-]. apply grown_getitem.
  - destruct (_add_cached_examples _ _ _ _) as [[r self1]|] eqn:H; [|done].
    intros [= <-]. by eapply grown_add_cached.
  - intros [= <-]. apply grown_prefetch_source.
  - intros [= <-]. apply grown_prefetch_processed.
  - destruct (_prefetch_all_source _ _) as [[r self1]|] eqn:H; [|done].
    intros [= <-]. by eapply grown_prefetch_all.
  - destruct (DataBase_len _ _) as [[r self1]|] eqn:H; [|done].
    intros [= <-]. by eapply grown_len.
  - intros [= <-]. apply grown_start_iteration.
Qed.

End Grown.

(** X6.  No sequence of calls on an engine ([__getitem__],
    [_add_cached_examples], [_prefetch_source], [_prefetch_processed],
    [_prefetch_all_source], [__len__], [_start_iteration]), whether they
    return or raise, removes or changes an entry of the processed cache, clears
    [_fully_cached], or changes the strategies, the outcome of the probe for
    random access or the parallelization setting: the cache before is a
    prefix of the cache after. *)
Theorem X6_engine_calls_only_append
    (Obj : Type) (process : Obj → Obj) (ops : list (EngineOp Obj))
    (self self' : DataBase Obj) :
  engine_run process ops self = Some self' →
  _processed_cache self `prefix_of` _processed_cache self' ∧
  (_fully_cached self = true → _fully_cached self' = true) ∧
  _lazy_strategy self' = _lazy_strategy self ∧
  _cache_strategy self' = _cache_strategy self ∧
  _supports_random_access self' = _supports_random_access self ∧
  _parallelize_processing self' = _parallelize_processing self.
Proof.
  revert self. induction ops as [|op ops IH]; intros self; simpl.
  - intros [= <-]. apply grown_refl.
  - destruct (engine_step process op self) as [self1|] eqn:Hstep; [|done].
    intros Hrun. eapply grown_trans; [by eapply grown_step|by apply IH].
Qed.

Lemma X6_engine_calls_only_append_witness :
  ∃ self self',
    DataBase_init Z.succ 3 (IterDataSource [10; 20; 30])
      {| num_parallel_calls := 1; max_dataset_size := -1;
         lazy_strategy := LazyALL; cache_strategy := CachePROCESSED;
         parallelize_processing := true |} = Some (Ok self) ∧
    engine_run Z.succ
      [EPrefetchSource 1; EAddCached 2 [1; 0] [21; 11];
       EGetitem (IntIndex 2); EStartIteration; ELen 3;
       EAddCached 2 [2] [31]; EPrefetchProcessed 5] self = Some self' ∧
    _processed_cache self `prefix_of` _processed_cache self' ∧
    (_fully_cached self = true → _fully_cached self' = true) ∧
    _lazy_strategy self' = _lazy_strategy self ∧
    _cache_strategy self' = _cache_strategy self ∧
    _supports_random_access self' = _supports_random_access self ∧
    _parallelize_processing self' = _parallelize_processing self.
Proof.
  eexists _, _. split; [vm_compute; reflexivity|].
  split; [vm_compute; reflexivity|].
  match goal with
  | |- _processed_cache ?self `prefix_of` _processed_cache ?self' ∧ _ =>
      apply (X6_engine_calls_only_append Z Z.succ
               [EPrefetchSource 1; EAddCached 2 [1; 0] [21; 11];
                EGetitem (IntIndex 2); EStartIteration; ELen 3;
                EAddCached 2 [2] [31]; EPrefetchProcessed 5] self self')
  end.
  vm_compute. reflexivity.
Defined.

(** ** Processing on the caller's side *)

Section PrefetchProcessed.
Context {Obj : Type}.
Variable process : Obj → Obj.
Implicit Types (self : DataBase Obj) (xs : list Obj).

Lemma source_getitem_sequence self xs item :
  _source self = SequenceDataSource xs →
  source_getitem item self = (list_getitem xs item, self).
Proof.
  intros Hsrc. unfold source_getitem. rewrite Hsrc. simpl.
  by rewrite <- Hsrc, set_source_id.
Qed.

(** The generator behind [extend], over a plain sequence: it appends the
    processed elements from position [x] on, and an index past the end stops
    it with [IndexError] after the last element was appended. *)
Lemma extend_processed_sequence n self xs (x : nat) :
  _source self = SequenceDataSource xs →
  (x ≤ length xs)%nat →
  extend_processed process n (Z.of_nat x) self =
    (if decide (x + n ≤ length xs)%nat then Ok tt else Raise IndexError,
     set_processed_cache self
       (_processed_cache self ++ map process (take n (drop x xs)))).
Proof.
  revert self x. induction n as [|n IH]; intros self x Hsrc Hx.
  - simpl. rewrite decide_True by lia. rewrite app_nil_r. by destruct self.
  - simpl. rewrite (source_getitem_sequence self xs) by done.
    destruct (xs !! x) as [raw|] eqn:Hraw.
    + rewrite (list_getitem_nonneg xs (Z.of_nat x) raw);
        [|lia|by rewrite Nat2Z.id].
      replace (Z.of_nat x + 1) with (Z.of_nat (S x)) by lia.
      apply lookup_lt_Some in Hraw as Hlt.
      rewrite IH by (done || lia). simpl.
      rewrite (drop_S xs raw x Hraw). simpl. rewrite <- app_assoc. simpl.
      f_equal. destruct (decide (S (x + n) ≤ length xs)%nat);
        [by rewrite decide_True by lia|by rewrite decide_False by lia].
    + apply lookup_ge_None in Hraw.
      rewrite list_getitem_ge by (unfold len; lia).
      rewrite decide_False by lia.
      rewrite drop_ge by done. rewrite take_nil. simpl.
      rewrite app_nil_r. by destruct self.
Qed.

Lemma _prefetch_processed_sequence self xs index :
  _source self = SequenceDataSource xs →
  let k := length (_processed_cache self) in
  (index < Z.of_nat k →
   _prefetch_processed process index self = (Ok tt, self)) ∧
  (Z.of_nat k ≤ index < len xs →
   _prefetch_processed process index self =
     (Ok tt,
      mark_fully_cached
        (set_processed_cache self
           (_processed_cache self ++
            map process (take (Z.to_nat (index + 1) - k) (drop k xs)))))) ∧
  (len xs ≤ index → (k ≤ length xs)%nat →
   _prefetch_processed process index self =
     (Raise IndexError,
      set_processed_cache self
        (_processed_cache self ++ map process (drop k xs)))).
Proof.
  intros Hsrc k. unfold _prefetch_processed, len. fold k.
  split; [|split].
  - intros Hlt. by destruct (Z.leb_spec (Z.of_nat k) index); [lia|].
  - intros Hin. destruct (Z.leb_spec (Z.of_nat k) index); [|lia].
    unfold len in Hin.
    rewrite (extend_processed_sequence _ self xs k Hsrc) by lia.
    rewrite decide_True by lia.
    by replace (Z.to_nat (index + 1 - Z.of_nat k))
      with (Z.to_nat (index + 1) - k)%nat by lia.
  - intros Hout Hk. destruct (Z.leb_spec (Z.of_nat k) index); [|lia].
    rewrite (extend_processed_sequence _ self xs k Hsrc) by lia.
    rewrite decide_False by lia.
    rewrite take_ge; [done|]. rewrite length_drop. lia.
Qed.

End PrefetchProcessed.

(** X7.  [_prefetch_processed(index)] on an engine whose source is a plain
    sequence [xs], with [k] examples in the processed cache: for [index < k]
    it does nothing; for [k <= index < len(xs)] it appends the processed
    elements [xs[k..index]], in order, and sets [_fully_cached] when the
    cache has reached the dataset size; for [index >= len(xs)] it raises
    [IndexError], and the processed elements up to the end of [xs] have been
    appended all the same. *)
Theorem X7_prefetch_processed_on_sequence
    (Obj : Type) (process : Obj → Obj) (self : DataBase Obj) xs (index : Z) :
  _source self = SequenceDataSource xs →
  let k := length (_processed_cache self) in
  (index < Z.of_nat k →
   _prefetch_processed process index self = (Ok tt, self)) ∧
  (Z.of_nat k ≤ index < len xs →
   _prefetch_processed process index self =
     (Ok tt,
      mark_fully_cached
        (set_processed_cache self
           (_processed_cache self ++
            map process (take (Z.to_nat (index + 1) - k) (drop k xs)))))) ∧
  (len xs ≤ index → (k ≤ length xs)%nat →
   _prefetch_processed process index self =
     (Raise IndexError,
      set_processed_cache self
        (_processed_cache self ++ map process (drop k xs)))).
Proof. apply _prefetch_processed_sequence. Qed.

Lemma X7_prefetch_processed_on_sequence_witness :
  ∃ self,
    DataBase_init Z.succ 0 (SequenceDataSource [10; 20; 30])
      {| num_parallel_calls := 1; max_dataset_size := -1;
         lazy_strategy := LazyPROCESS; cache_strategy := CachePROCESSED;
         parallelize_processing := false |} = Some (Ok self) ∧
    _prefetch_processed Z.succ 1 self =
      (Ok tt,
       mark_fully_cached
         (set_processed_cache self
            (_processed_cache self ++
             map Z.succ (take (Z.to_nat (1 + 1) - length (_processed_cache self))
                           (drop (length (_processed_cache self))
                              [10; 20; 30]))))).
Proof.
  eexists. split; [vm_compute; reflexivity|].
  match goal with
  | |- _prefetch_processed _ _ ?self = _ =>
      apply (proj1 (proj2 (X7_prefetch_processed_on_sequence Z Z.succ self
                             [10; 20; 30] 1 eq_refl)))
  end.
  vm_compute. split; [discriminate|reflexivity].
Defined.

(** X8.  Over a non-empty sequence, with no maximum dataset size, under the
    [process] lazy strategy with the [processed] cache strategy and
    [parallelize_processing] off, one call of [_prefetch_processed] with the
    last index makes the engine fully cached, with the processed elements of
    the sequence in order as its cache; from then on the reads of all
    indices return them. *)
Theorem X8_prefetch_processed_completes_the_cache
    (Obj : Type) (process : Obj → Obj) (fuel : nat) (x : Obj) xs
    (hparams : HParams) :
  lazy_strategy hparams = LazyPROCESS →
  cache_strategy hparams = CachePROCESSED →
  parallelize_processing hparams = false →
  max_dataset_size hparams = -1 →
  ∃ self self',
    DataBase_init process fuel (SequenceDataSource (x :: xs)) hparams =
      Some (Ok self) ∧
    _prefetch_processed process (len (x :: xs) - 1) self = (Ok tt, self') ∧
    _fully_cached self' = true ∧
    _processed_cache self' = map process (x :: xs) ∧
    get_each process (seqZ 0 (len (x :: xs))) self' =
      map (λ y, Ok (process y)) (x :: xs).
Proof.
  destruct hparams as [calls size lazy cache par].
  cbn [lazy_strategy cache_strategy parallelize_processing max_dataset_size].
  intros -> -> -> ->.
  eexists _, _. split; [unfold DataBase_init; simpl; reflexivity|].
  set (self := set_reorder_cache _ _).
  pose proof (len_nonneg xs) as Hxs.
  pose proof (proj1 (proj2 (_prefetch_processed_sequence process
                              self (x :: xs) (len (x :: xs) - 1) eq_refl)))
    as Hrun.
  cbv zeta in Hrun. change (length (_processed_cache self)) with 0%nat in Hrun.
  rewrite Hrun by (rewrite len_cons; lia). clear Hrun.
  rewrite take_ge by (rewrite length_drop; unfold len; lia).
  change (drop 0 (x :: xs)) with (x :: xs).
  change (_processed_cache self ++ map process (x :: xs))
    with (map process (x :: xs)).
  assert (mark_fully_cached
            (set_processed_cache self (map process (x :: xs))) =
          set_fully_cached
            (set_processed_cache self (map process (x :: xs))) true)
    as ->.
  { unfold mark_fully_cached.
    rewrite bool_decide_eq_true_2; [done|].
    change (_dataset_size (set_processed_cache self (map process (x :: xs))))
      with (Some (len (x :: xs))).
    f_equal. unfold len.
    change (_processed_cache
              (set_processed_cache self (map process (x :: xs))))
      with (map process (x :: xs)).
    by rewrite length_map. }
  split; [reflexivity|]. split; [done|]. split; [done|].
  rewrite (get_each_unchanged process
             (λ i, list_getitem (map process (x :: xs)) i)).
  - replace (len (x :: xs)) with (len (map process (x :: xs)))
      by (unfold len; by rewrite length_map).
    rewrite (map_seqZ_lookup _ Ok [] (map process (x :: xs))).
    + by rewrite <- list_fmap_compose.
    + intros k y Hk. simpl in Hk.
      apply list_getitem_nonneg; [lia|by rewrite Nat2Z.id].
  - intros i _. done.
Qed.

Lemma X8_prefetch_processed_completes_the_cache_witness :
  ∃ self self',
    DataBase_init Z.succ 0 (SequenceDataSource [10; 20])
      {| num_parallel_calls := 1; max_dataset_size := -1;
         lazy_strategy := LazyPROCESS; cache_strategy := CachePROCESSED;
         parallelize_processing := false |} = Some (Ok self) ∧
    _prefetch_processed Z.succ (len [10; 20] - 1) self = (Ok tt, self') ∧
    _fully_cached self' = true ∧
    _processed_cache self' = map Z.succ [10; 20] ∧
    get_each Z.succ (seqZ 0 (len [10; 20])) self' =
      map (λ y, Ok (Z.succ y)) [10; 20].
Proof.
  apply (X8_prefetch_processed_completes_the_cache Z Z.succ 0 10 [20]
           {| num_parallel_calls := 1; max_dataset_size := -1;
              lazy_strategy := LazyPROCESS; cache_strategy := CachePROCESSED;
              parallelize_processing := false |}); reflexivity.
Defined.

(** ** The engine over a source without random access *)

Section Sequential.
Context {Obj : Type}.
Implicit Types (self : DataBase Obj) (src : DataSource Obj).
Implicit Types (st : CachedState Obj).

Lemma cached_state_of_no_random_access self src st :
  cached_state_of self = Some (src, st) →
  _supports_random_access self = false.
Proof. unfold cached_state_of. by destruct (_supports_random_access self). Qed.

(** The outcome of the full prefetch on a cached source that ends
    normally. *)
Lemma _prefetch_all_source_result self src st fuel :
  cached_state_of self = Some (src, st) →
  cache_kind_ok st = true →
  final (_iter st) = StopIteration →
  elements_in_all st ≤ 10 ^ 8 * 2 ^ Z.of_nat fuel →
  ∃ self' st',
    _prefetch_all_source fuel self = Some (Ok (elements_in_all st), self') ∧
    _dataset_size self' = Some (elements_in_all st) ∧
    cached_state_of self' = Some (src, st') ∧
    _max_index st' + 1 = elements_in_all st ∧
    _iter st' = exhausted ∧
    warnings self' =
      warnings self ++
      (if 10 ^ 8 <? elements_in_all st then [WarnMoreThan (10 ^ 8)] else []).
Proof.
  intros Hself Hkind Hfin Hfuel.
  unfold _prefetch_all_source. cbv zeta.
  set (big := 10 ^ 8) in *.
  assert (0 < big) as Hbig by done.
  destruct (at_cached_prefetch big self src st Hself)
    as (self1 & -> & Hself1 & Hframe1).
  destruct (Z.ltb_spec big (elements_in_all st)) as [Hlt|Hge].
  - destruct (prefetch_within big st Hkind Hlt)
      as (-> & Hall & Hfin' & Hkind').
    destruct (prefetch_doubling_ends fuel big
                (warn self1 (WarnMoreThan big)) src
                (snd (CachedState_prefetch big st)))
      as (self2 & st2 & -> & Hself2 & Hm & Hit & Hframe2);
      try done; try congruence; try lia.
    rewrite (at_cached_max_index self2 src st2 Hself2), Hm, Hall.
    replace (elements_in_all st - 1 + 1) with (elements_in_all st) by lia.
    eexists _, st2. split; [done|]. repeat split; try done; try lia.
    simpl. rewrite Hframe2. simpl. by rewrite Hframe1.
  - destruct (prefetch_exhausts big st Hkind Hge) as (-> & Hm & Hit).
    rewrite Hfin, (at_cached_max_index self1 src _ Hself1), Hm.
    replace (elements_in_all st - 1 + 1) with (elements_in_all st) by lia.
    eexists _, _. split; [done|]. repeat split; try done; try lia.
    simpl. rewrite Hframe1. simpl. by rewrite app_nil_r.
Qed.

(** No read raises the end-of-source signal. *)
Lemma DataSource_getitem_not_stop src item :
  fst (DataSource_getitem src item) ≠ Raise StopIteration.
Proof.
  induction src as [seq|it|src IH f|src IH n|src IH f|src IH st]; simpl;
    try done.
  - unfold list_getitem. destruct (norm_index _ _); [|done].
    by destruct (seq !! _).
  - destruct (item >=? n); [done|].
    by destruct (DataSource_getitem src item) as [[x|e] src'].
  - by destruct (DataSource_getitem src item) as [[x|e] src'].
  - assert (fst (CachedState_getitem item st) ≠ Raise StopIteration) as H.
    { unfold CachedState_getitem, cache_getitem, cache_delitem.
      destruct (_cache st) as [d|l].
      - destruct (d !! item); [|done]. by destruct (_erase_after_access st).
      - unfold list_getitem, list_delitem.
        destruct (norm_index _ _); [|done].
        destruct (l !! _); [|done]. by destruct (_erase_after_access st). }
    by destruct (CachedState_getitem item st) as [[x|e] st'].
Qed.

Lemma extend_processed_not_stop process n x self :
  fst (extend_processed process n x self) ≠ Raise StopIteration.
Proof.
  revert x self. induction n as [|n IH]; intros x self; simpl; [done|].
  unfold source_getitem.
  pose proof (DataSource_getitem_not_stop (_source self) x) as Hget.
  destruct (DataSource_getitem (_source self) x) as [[raw|e] src'];
    simpl in *; [apply IH|].
  intros [= ->]. by apply Hget.
Qed.

Lemma _prefetch_processed_not_stop process index self :
  fst (_prefetch_processed process index self) ≠ Raise StopIteration.
Proof.
  unfold _prefetch_processed. destruct (_ <=? _); [|done].
  pose proof (extend_processed_not_stop process
                (Z.to_nat (index + 1 - len (_processed_cache self)))
                (len (_processed_cache self)) self) as Hext.
  destruct (extend_processed _ _ _ _) as [[u|e] self']; [done|].
  simpl in *. intros [= ->]. by apply Hext.
Qed.

Lemma cached_max_index_not_stop self :
  fst (at_cached_source cached_max_index self) ≠ Raise StopIteration.
Proof.
  unfold at_cached_source. destruct (_supports_random_access self); [done|].
  destruct (_source self) as [| | | |[]|]; by simpl.
Qed.

(** [_prefetch_source] catches the end-of-source signal of the cached
    source, and nothing else in it raises that signal. *)
Lemma _prefetch_source_not_stop process index self :
  fst (_prefetch_source process index self) ≠ Raise StopIteration.
Proof.
  unfold _prefetch_source.
  destruct (negb (_supports_random_access self)).
  - destruct (at_cached_source (prefetch index) self) as [[u|e] self1].
    + destruct (_should_call_prefetch_processed self1); [|done].
      pose proof (_prefetch_processed_not_stop process index self1) as H.
      destruct (_prefetch_processed process index self1) as [[u'|e] ?];
        [done|]. simpl in *. intros [= ->]. by apply H.
    + assert (match at_cached_source cached_max_index self1 with
              | (Raise e, self) => (Raise e, self)
              | (Ok m, self) =>
                  let self := set_dataset_size self (Some (m + 1)) in
                  if _should_call_prefetch_processed self then
                    match _prefetch_processed process (m + 1 - 1) self with
                    | (Raise e, self) => (Raise e, self)
                    | (Ok _, self) => (Ok (_dataset_size self), self)
                    end
                  else (Ok (_dataset_size self), self)
              end.1 ≠ Raise StopIteration) as Hcaught.
      { pose proof (cached_max_index_not_stop self1) as Hm.
        destruct (at_cached_source cached_max_index self1)
          as [[m|e'] self2];
          [|simpl in *; intros [= ->]; by apply Hm].
        cbv zeta. destruct (_should_call_prefetch_processed _); [|done].
        pose proof (_prefetch_processed_not_stop process (m + 1 - 1)
                      (set_dataset_size self2 (Some (m + 1)))) as H.
        destruct (_prefetch_processed process _ _) as [[u'|e'] ?]; [done|].
        simpl in *. intros [= ->]. by apply H. }
      by destruct e.
  - destruct (_dataset_size self); [|done]. by destruct (_ >=? _).
Qed.

End Sequential.

(** X9.  [_prefetch_source(index)] never lets the end-of-source signal out:
    on no engine and for no index does it raise [StopIteration].  Over a
    source with random access and a known dataset size it changes nothing
    and returns the dataset size exactly when [index] is at or beyond it.
    Over a cached source whose iterator ends normally, on an engine that
    does not process on the caller's side, with [N] the number of elements
    pulled so far or still to come: for [index < N] it returns [None] after
    pulling up to [index], leaving the dataset size as it was; for
    [index >= N] it returns [N] and records it as the dataset size. *)
Theorem X9_prefetch_source_reports_the_size
    (Obj : Type) (process : Obj → Obj) (self : DataBase Obj) (index : Z) :
  fst (_prefetch_source process index self) ≠ Raise StopIteration ∧
  (∀ size,
      _supports_random_access self = true →
      _dataset_size self = Some size →
      _prefetch_source process index self =
        (Ok (if index >=? size then Some size else None), self)) ∧
  (∀ src st,
      cached_state_of self = Some (src, st) →
      cache_kind_ok st = true →
      final (_iter st) = StopIteration →
      _should_call_prefetch_processed self = false →
      ∃ self',
        _prefetch_source process index self =
          (Ok (if elements_in_all st <=? index then Some (elements_in_all st)
               else None), self') ∧
        cached_state_of self' =
          Some (src, snd (CachedState_prefetch index st)) ∧
        _dataset_size self' =
          (if elements_in_all st <=? index then Some (elements_in_all st)
           else _dataset_size self) ∧
        (index < elements_in_all st →
         index ≤ _max_index (snd (CachedState_prefetch index st)))).
Proof.
  split; [apply _prefetch_source_not_stop|]. split.
  - intros size Hsra Hsize. unfold _prefetch_source.
    rewrite Hsra, Hsize. simpl. by destruct (index >=? size).
  - intros src st Hself Hkind Hfin Hflag. unfold _prefetch_source.
    rewrite (cached_state_of_no_random_access self src st Hself). simpl.
    destruct (at_cached_prefetch index self src st Hself)
      as (self1 & -> & Hself1 & Hframe1).
    assert (_should_call_prefetch_processed self1 = false) as Hflag1.
    { rewrite Hframe1. exact Hflag. }
    destruct (Z.leb_spec (elements_in_all st) index) as [Hle|Hlt].
    + destruct (prefetch_exhausts index st Hkind Hle) as (-> & Hm & Hit).
      rewrite Hfin, (at_cached_max_index self1 src _ Hself1), Hm.
      replace (elements_in_all st - 1 + 1) with (elements_in_all st) by lia.
      unfold _should_call_prefetch_processed in *. simpl. rewrite Hflag1.
      eexists. split; [done|]. repeat split; try done. lia.
    + destruct (prefetch_within index st Hkind Hlt)
        as (Hok & Hall & Hfin' & Hkind').
      rewrite Hok, Hflag1.
      exists self1. split; [done|]. split; [done|]. split.
      * rewrite Hframe1. done.
      * intros _. by apply prefetch_ok_covers.
Qed.

Lemma X9_prefetch_source_reports_the_size_witness :
  ∃ self,
    DataBase_init Z.succ 0 (IterDataSource [10; 20; 30])
      {| num_parallel_calls := 1; max_dataset_size := -1;
         lazy_strategy := LazyALL; cache_strategy := CacheNONE;
         parallelize_processing := true |} = Some (Ok self) ∧
    ∃ self',
      _prefetch_source Z.succ 7 self = (Ok (Some 3), self') ∧
      _dataset_size self' = Some 3.
Proof.
  eexists. split; [vm_compute; reflexivity|].
  match goal with
  | |- ∃ self', _prefetch_source _ _ ?self = _ ∧ _ =>
      destruct (proj2 (proj2
                         (X9_prefetch_source_reports_the_size Z Z.succ self
                            7))
                  (IterDataSource [10; 20; 30])
                  {| _iter := {| pending := [10; 20; 30];
                                 final := StopIteration |};
                     _max_index := -1;
                     _erase_after_access := true;
                     _cache := DictCache ∅ |})
        as (self' & Hrun & _ & Hsize & _)
  end.
  - reflexivity.
  - reflexivity.
  - reflexivity.
  - reflexivity.
  - exists self'. split; [exact Hrun|exact Hsize].
Defined.

(** X10.  [__len__] of the engine.  A known dataset size is returned as it
    is, without a warning and without touching the engine.  When the size is
    unknown and the cached source ends normally, the call warns, pulls the
    whole source (given fuel for the doublings) and returns the number of
    elements, which it records; any later call returns the same number and
    changes nothing. *)
Theorem X10_len_of_the_engine
    (Obj : Type) (self : DataBase Obj) (fuel : nat) :
  (∀ size, _dataset_size self = Some size →
           DataBase_len fuel self = Some (Ok size, self)) ∧
  (∀ src st,
      _dataset_size self = None →
      cached_state_of self = Some (src, st) →
      cache_kind_ok st = true →
      final (_iter st) = StopIteration →
      elements_in_all st ≤ 10 ^ 8 * 2 ^ Z.of_nat fuel →
      ∃ self',
        DataBase_len fuel self = Some (Ok (elements_in_all st), self') ∧
        _dataset_size self' = Some (elements_in_all st) ∧
        warnings self' =
          warnings self ++
          WarnNoRandomAccess ::
          (if 10 ^ 8 <? elements_in_all st then [WarnMoreThan (10 ^ 8)]
           else []) ∧
        ∀ fuel', DataBase_len fuel' self' =
                   Some (Ok (elements_in_all st), self')).
Proof.
  split.
  - intros size Hsize. unfold DataBase_len. by rewrite Hsize.
  - intros src st Hnone Hself Hkind Hfin Hfuel. unfold DataBase_len.
    rewrite Hnone.
    destruct (_prefetch_all_source_result (warn self WarnNoRandomAccess)
                src st fuel)
      as (self' & st' & -> & Hsize & _ & _ & _ & Hwarn); try done.
    exists self'. split; [done|]. split; [done|]. split.
    + rewrite Hwarn. simpl. by rewrite <- app_assoc.
    + intros fuel'. by rewrite Hsize.
Qed.

Lemma X10_len_of_the_engine_witness :
  ∃ self,
    DataBase_init Z.succ 0 (IterDataSource [10; 20; 30])
      {| num_parallel_calls := 1; max_dataset_size := -1;
         lazy_strategy := LazyALL; cache_strategy := CacheLOADED;
         parallelize_processing := true |} = Some (Ok self) ∧
    ∃ self',
      DataBase_len 0 self = Some (Ok 3, self') ∧
      warnings self' = [WarnNoRandomAccess] ∧
      ∀ fuel', DataBase_len fuel' self' = Some (Ok 3, self').
Proof.
  eexists. split; [vm_compute; reflexivity|].
  match goal with
  | |- ∃ self', DataBase_len _ ?self = _ ∧ _ =>
      destruct (proj2 (X10_len_of_the_engine Z self 0)
                  (IterDataSource [10; 20; 30])
                  {| _iter := {| pending := [10; 20; 30];
                                 final := StopIteration |};
                     _max_index := -1;
                     _erase_after_access := false;
                     _cache := ListCache [] |})
        as (self' & Hrun & _ & Hwarn & Hagain)
  end.
  - reflexivity.
  - reflexivity.
  - reflexivity.
  - reflexivity.
  - vm_compute. discriminate.
  - exists self'. split; [exact Hrun|]. split; [exact Hwarn|exact Hagain].
Defined.

(** X11.  A new round of iteration over an engine whose source is an erasing
    cached source, with processing done in [__getitem__].  [_start_iteration]
    resets the cached source, which obtains an iterator from
    [iter(self._source)]; after it and a [_prefetch_source(k)] within what
    that iterator holds, every index from 0 to [k] is read as the processed
    element at that position of the iterator, whatever was read in the
    round before; the raw example is erased by the read, so the same read
    again raises [KeyError].  For a source that starts from its first
    element whenever it is iterated this is the processed element of the
    source at that index; an [IterDataSource] that holds an iterator or a
    generator hands over that same object, and index [j] is then read as
    the [j]-th of the elements it had left. *)
Theorem X11_new_round_reads_again
    (Obj : Type) (process : Obj → Obj) (self : DataBase Obj)
    (src : DataSource Obj) st (d : gmap Z Obj) (fresh : iterator Obj)
    (k j : Z) (x : Obj) :
  _supports_random_access self = false →
  _source self = _CachedDataSource src st →
  _erase_after_access st = true →
  _cache st = DictCache d →
  _parallelize_processing self = true →
  _fully_cached self = false →
  _should_call_prefetch_processed self = false →
  0 ≤ j ≤ k →
  k < len (pending fresh) →
  pending fresh !! Z.to_nat j = Some x →
  _start_iteration self = _start_iteration_to (DataSource_iter src) self ∧
  ∃ self2,
    _prefetch_source process k (snd (_start_iteration_to fresh self)) =
      (Ok None, self2) ∧
    fst (DataBase_getitem process (IntIndex j) self2) = Ok (process x) ∧
    fst (DataBase_getitem process (IntIndex j)
           (snd (DataBase_getitem process (IntIndex j) self2))) =
      Raise KeyError.
Proof.
  destruct self as [source ? ? ? par cache full sra ? ? ? flag ? ? ?].
  destruct st as [it m erase c].
  unfold _should_call_prefetch_processed. simpl.
  intros -> -> -> -> -> -> -> Hj Hk Hx.
  split; [done|].
  unfold _start_iteration_to, _prefetch_source, at_cached_source. simpl.
  unfold CachedState_prefetch. rewrite prefetch_loop_spec by done. simpl.
  set (rest := pending fresh) in *.
  set (n := Z.to_nat (k - -1)).
  assert (n ≤ length rest)%nat as Hn by (unfold n, len in *; lia).
  rewrite decide_True by done. simpl.
  eexists. split; [reflexivity|].
  unfold DataBase_getitem, source_getitem. simpl.
  set (d' := store_from d (-1) (take n rest)).
  assert (d' !! j = Some x) as Hd.
  { unfold d'. rewrite store_from_lookup.
    assert (len (take n rest) = Z.of_nat n) as ->.
    { unfold len. by rewrite length_take_le. }
    rewrite decide_True by (unfold n; lia).
    rewrite lookup_take_lt by (unfold n; lia).
    by replace (Z.to_nat (j - -1 - 1)) with (Z.to_nat j) by lia. }
  rewrite (CachedState_getitem_erase j _ d') by done.
  rewrite Hd. simpl.
  rewrite (CachedState_getitem_erase j _ (delete j d')) by done.
  by rewrite lookup_delete_eq.
Qed.

Lemma X11_new_round_reads_again_witness :
  ∃ self,
    DataBase_init Z.succ 0 (IterDataSource [10; 20; 30])
      {| num_parallel_calls := 1; max_dataset_size := -1;
         lazy_strategy := LazyALL; cache_strategy := CacheNONE;
         parallelize_processing := true |} = Some (Ok self) ∧
    ∃ self2,
      _prefetch_source Z.succ 0
        (snd (_start_iteration_to
                {| pending := [30]; final := StopIteration |} self)) =
        (Ok None, self2) ∧
      fst (DataBase_getitem Z.succ (IntIndex 0) self2) = Ok (Z.succ 30) ∧
      fst (DataBase_getitem Z.succ (IntIndex 0)
             (snd (DataBase_getitem Z.succ (IntIndex 0) self2))) =
        Raise KeyError.
Proof.
  eexists. split; [vm_compute; reflexivity|].
  match goal with
  | |- ∃ self2,
         _prefetch_source _ _ (snd (_start_iteration_to _ ?self)) = _ ∧ _ =>
      apply (X11_new_round_reads_again Z Z.succ self
               (IterDataSource [10; 20; 30])
               {| _iter := {| pending := [10; 20; 30];
                              final := StopIteration |};
                  _max_index := -1;
                  _erase_after_access := true;
                  _cache := DictCache ∅ |} ∅
               {| pending := [30]; final := StopIteration |} 0 0 30)
  end; first [reflexivity | lia | vm_compute; reflexivity].
Defined.

(** ** The engine that construction returns *)

Section Constructed.
Context {Obj : Type}.
Variable process : Obj → Obj.
Implicit Types (self : DataBase Obj) (src : DataSource Obj).
Implicit Types (st : CachedState Obj).

Lemma only_pulled_refl self : only_pulled self self.
Proof. repeat split. intros src st H. by exists st. Qed.

Lemma only_pulled_trans self1 self2 self3 :
  only_pulled self1 self2 → only_pulled self2 self3 →
  only_pulled self1 self3.
Proof.
  intros (Hp1 & Hf1 & Hr1 & Hs1 & Hc1) (Hp2 & Hf2 & Hr2 & Hs2 & Hc2).
  repeat split; [congruence..|].
  intros src st H. destruct (Hc1 src st H) as (st1 & H1 & He1 & Hk1).
  destruct (Hc2 src st1 H1) as (st2 & H2 & He2 & Hk2).
  exists st2. repeat split; [done|congruence|auto].
Qed.

(** Assignments to the dataset size and to the warnings. *)
Lemma only_pulled_fields self self' :
  _source self' = _source self →
  _processed_cache self' = _processed_cache self →
  _fully_cached self' = _fully_cached self →
  _reorder_cache self' = _reorder_cache self →
  _supports_random_access self' = _supports_random_access self →
  only_pulled self self'.
Proof.
  intros Hsrc Hp Hf Hr Hs. repeat split; try done.
  intros src st H. exists st. repeat split; [|done].
  unfold cached_state_of in *. by rewrite Hs, Hsrc.
Qed.

Lemma only_pulled_prefetch target self r self' :
  at_cached_source (prefetch target) self = (r, self') →
  only_pulled self self'.
Proof.
  intros H. pose proof (at_cached_source_frame _ _ _ _ H) as Hframe.
  repeat split; try by rewrite Hframe.
  intros src st Hself.
  destruct (at_cached_prefetch target self src st Hself)
    as (self1 & H1 & Hstate & _).
  rewrite H in H1. injection H1 as _ <-.
  eexists. split; [done|]. split.
  - apply prefetch_loop_flag.
  - apply CachedState_prefetch_kind.
Qed.

Lemma only_pulled_max_index self r self' :
  at_cached_source cached_max_index self = (r, self') →
  only_pulled self self'.
Proof.
  intros H. pose proof (at_cached_source_frame _ _ _ _ H) as Hframe.
  repeat split; try by rewrite Hframe.
  intros src st Hself.
  rewrite (at_cached_max_index self src st Hself) in H.
  injection H as _ <-. by exists st.
Qed.

Lemma only_pulled_doubling fuel target self e self' :
  prefetch_doubling fuel target self = Some (e, self') →
  only_pulled self self'.
Proof.
  revert target self. induction fuel as [|fuel IH]; intros target self H;
    simpl in H; [done|].
  destruct (at_cached_source _ self) as [[u|e'] self1] eqn:H1;
    apply only_pulled_prefetch in H1.
  - eapply only_pulled_trans; [exact H1|by eapply IH].
  - by inversion H; subst.
Qed.

(** The full prefetch only pulls, and a size it returns is the dataset size
    it has recorded. *)
Lemma _prefetch_all_source_only_pulls fuel self r self' :
  _prefetch_all_source fuel self = Some (r, self') →
  only_pulled self self' ∧ ∀ n, r = Ok n → _dataset_size self' = Some n.
Proof.
  unfold _prefetch_all_source.
  assert (∀ self1 e,
            only_pulled self self1 →
            match e with
            | StopIteration =>
                let (r0, self2) := at_cached_source cached_max_index self1 in
                match r0 with
                | Ok m => Some (Ok (m + 1),
                                set_dataset_size self2 (Some (m + 1)))
                | Raise e0 => Some (Raise e0, self2)
                end
            | _ => Some (Raise e, self1)
            end = Some (r, self') →
            only_pulled self self' ∧
            ∀ n, r = Ok n → _dataset_size self' = Some n) as Hend.
  { intros self1 e H1 H.
    destruct e; try (injection H as <- <-; by split).
    destruct (at_cached_source cached_max_index self1)
      as [[m|e] self2] eqn:H2; apply only_pulled_max_index in H2;
      injection H as <- <-.
    - split; [|by intros n [= <-]].
      eapply only_pulled_trans; [exact H1|].
      eapply only_pulled_trans; [exact H2|]. by apply only_pulled_fields.
    - split; [|done]. by eapply only_pulled_trans. }
  destruct (at_cached_source (prefetch (10 ^ 8)) self) as [[u|e] self1] eqn:H1;
    apply only_pulled_prefetch in H1.
  - destruct (prefetch_doubling _ _ _) as [[e self2]|] eqn:H2; [|done].
    apply only_pulled_doubling in H2. apply Hend.
    eapply only_pulled_trans; [exact H1|].
    eapply only_pulled_trans; [|exact H2]. by apply only_pulled_fields.
  - by apply Hend.
Qed.

(** The outcomes of the probe. *)
Lemma probe_random_access_outcome lazy cache src src' sra size :
  probe_random_access lazy cache src = Ok (src', sra, size) →
  (lazy = LazyNONE ∧ sra = true ∧ size = None) ∨
  (lazy ≠ LazyNONE ∧ sra = true ∧ ∃ n, size = Some n) ∨
  (lazy ≠ LazyNONE ∧ sra = false ∧ size = None ∧
   ∃ wrapped,
     src' = new_CachedDataSource wrapped (bool_decide (cache ≠ CacheLOADED))).
Proof.
  unfold probe_random_access. case_bool_decide as Hlazy.
  - destruct (builtin_len _) as [n|[]]; try done.
    + destruct (DataSource_getitem src 0) as [[x|[]] s']; try done;
        intros [= <- <- <-]; right; [left|right]; eauto 10.
    + intros [= <- <- <-]. right; right. eauto 10.
  - intros [= <- <- <-]. left. split; [|done].
    by destruct (decide (lazy = LazyNONE)).
Qed.

End Constructed.

(** X12.  What every engine returned by [__init__] looks like.  Under the
    [none] lazy strategy it is fully cached, its dataset size is the length
    of its processed cache, and it has no reorder buffer.  Under the other
    lazy strategies it starts with an empty processed cache, not fully
    cached, and has an (empty) reorder buffer exactly under the [processed]
    cache strategy.  When the probe found no random access, the engine holds
    a cached source, which erases after access unless the cache strategy is
    [loaded] and whose buffer is of the matching kind.  Under the [process]
    lazy strategy the dataset size is known after construction; it is
    unknown only under [all] over a source without random access. *)
Theorem X12_engine_after_construction
    (Obj : Type) (process : Obj → Obj) (fuel : nat)
    (source : DataSource Obj) (hparams : HParams) (self : DataBase Obj) :
  DataBase_init process fuel source hparams = Some (Ok self) →
  (lazy_strategy hparams = LazyNONE →
   _fully_cached self = true ∧
   _dataset_size self = Some (len (_processed_cache self)) ∧
   _supports_random_access self = true ∧
   _reorder_cache self = None) ∧
  (lazy_strategy hparams ≠ LazyNONE →
   _fully_cached self = false ∧
   _processed_cache self = [] ∧
   _reorder_cache self =
     (if bool_decide (_cache_strategy self = CachePROCESSED) then Some ∅
      else None)) ∧
  (_supports_random_access self = false →
   lazy_strategy hparams ≠ LazyNONE ∧
   ∃ src st,
     cached_state_of self = Some (src, st) ∧
     cache_kind_ok st = true ∧
     _erase_after_access st =
       bool_decide (_cache_strategy self ≠ CacheLOADED)) ∧
  (lazy_strategy hparams = LazyPROCESS → ∃ n, _dataset_size self = Some n) ∧
  (_dataset_size self = None →
   lazy_strategy hparams = LazyALL ∧ _supports_random_access self = false).
Proof.
  unfold DataBase_init.
  destruct (resolve_strategies _ _) as [cache warned].
  set (src2 := if negb _ && _ && _ then _ else _).
  destruct (probe_random_access _ _ src2) as [[[src3 sra] size]|e] eqn:Hp;
    [|done].
  apply probe_random_access_outcome in Hp.
  set (src4 := if negb _ && bool_decide (cache = CacheLOADED) then _ else _).
  set (self0 := Build_DataBase _ _ _ _ _ _ _ _ _ _ _ _ _ _ _ _).
  assert (sra = false →
          ∃ src st, cached_state_of self0 = Some (src, st) ∧
                    cache_kind_ok st = true ∧
                    _erase_after_access st =
                      bool_decide (cache ≠ CacheLOADED)) as Hcached.
  { intros ->.
    destruct Hp as [(_ & ? & _)|[(_ & ? & _)|(_ & _ & _ & wrapped & ->)]];
      try done.
    exists wrapped,
      {| _iter := DataSource_iter wrapped; _max_index := -1;
         _erase_after_access := bool_decide (cache ≠ CacheLOADED);
         _cache := if bool_decide (cache ≠ CacheLOADED) then DictCache ∅
                   else ListCache [] |}.
    unfold cached_state_of, self0, src4, new_CachedDataSource. simpl.
    split; [by destruct (negb (parallelize_processing hparams) &&
                         bool_decide (cache = CacheLOADED))|].
    split; [|done]. unfold cache_kind_ok. simpl.
    by destruct (bool_decide (cache ≠ CacheLOADED)). }
  destruct (bool_decide (lazy_strategy hparams = LazyNONE)) eqn:Hnone.
  - apply bool_decide_eq_true in Hnone.
    destruct (consume _) as [raws|e]; [|done]. intros [= <-]. simpl.
    destruct Hp as [(_ & -> & ->)|[(? & _)|(? & _)]]; try done.
    repeat split; try done; intros; try congruence.
  - apply bool_decide_eq_false in Hnone.
    change (_supports_random_access self0) with sra.
    assert (∀ self1 : DataBase Obj,
              _fully_cached self1 = false →
              _processed_cache self1 = [] →
              _reorder_cache self1 = None →
              _cache_strategy self1 = cache →
              _supports_random_access self1 = sra →
              (sra = false →
               ∃ src st, cached_state_of self1 = Some (src, st) ∧
                         cache_kind_ok st = true ∧
                         _erase_after_access st =
                           bool_decide (cache ≠ CacheLOADED)) →
              (lazy_strategy hparams = LazyPROCESS →
               ∃ n, _dataset_size self1 = Some n) →
              (_dataset_size self1 = None →
               lazy_strategy hparams = LazyALL ∧ sra = false) →
              (if bool_decide (cache = CachePROCESSED)
               then Some (Ok (set_reorder_cache self1 (Some ∅)))
               else Some (Ok self1)) = Some (Ok self) →
              (lazy_strategy hparams = LazyNONE →
               _fully_cached self = true ∧
               _dataset_size self = Some (len (_processed_cache self)) ∧
               _supports_random_access self = true ∧
               _reorder_cache self = None) ∧
              (lazy_strategy hparams ≠ LazyNONE →
               _fully_cached self = false ∧
               _processed_cache self = [] ∧
               _reorder_cache self =
                 (if bool_decide (_cache_strategy self = CachePROCESSED)
                  then Some ∅ else None)) ∧
              (_supports_random_access self = false →
               lazy_strategy hparams ≠ LazyNONE ∧
               ∃ src st,
                 cached_state_of self = Some (src, st) ∧
                 cache_kind_ok st = true ∧
                 _erase_after_access st =
                   bool_decide (_cache_strategy self ≠ CacheLOADED)) ∧
              (lazy_strategy hparams = LazyPROCESS →
               ∃ n, _dataset_size self = Some n) ∧
              (_dataset_size self = None →
               lazy_strategy hparams = LazyALL ∧
               _supports_random_access self = false)) as Hfinal.
    { intros self1 Hfc Hpc Hrc Hcs Hs Hst Hknown Hunknown Hself.
      assert (_fully_cached self = false ∧ _processed_cache self = [] ∧
              _cache_strategy self = cache ∧
              _supports_random_access self = sra ∧
              _dataset_size self = _dataset_size self1 ∧
              cached_state_of self = cached_state_of self1 ∧
              _reorder_cache self =
                (if bool_decide (cache = CachePROCESSED) then Some ∅
                 else None))
        as (Hfc' & Hpc' & Hcs' & Hs' & Hds' & Hcso' & Hrc').
      { destruct (bool_decide (cache = CachePROCESSED));
          injection Hself as <-; by repeat split. }
      rewrite Hfc', Hpc', Hcs', Hs', Hds', Hcso', Hrc'.
      split; [done|]. split; [done|]. split; [|done].
      intros Hsra. split; [done|]. by apply Hst. }
    destruct (bool_decide (lazy_strategy hparams = LazyPROCESS) && negb sra)
      eqn:Hload.
    + apply andb_true_iff in Hload as [Hprocess Hsra].
      apply bool_decide_eq_true in Hprocess. apply negb_true_iff in Hsra.
      destruct (_prefetch_all_source fuel self0) as [[[n|e] self1]|] eqn:Hall;
        simpl; [|done..].
      pose proof (_prefetch_all_source_same_policy _ _ _ _ Hall)
        as (_ & Hcs & _).
      apply _prefetch_all_source_only_pulls in Hall
        as [(Hpc & Hfc & Hrc & Hs & Hstate) Hsize].
      specialize (Hsize n eq_refl).
      apply Hfinal; try done.
      * intros _. destruct (Hcached Hsra) as (src & st & Hst & Hkind & Herase).
        destruct (Hstate src st Hst) as (st' & Hst' & Herase' & Hkind').
        exists src, st'. split; [done|]. split; [auto|congruence].
      * intros _. by exists n.
      * intros Hnone'. congruence.
    + apply Hfinal; try done.
      * intros Hprocess.
        rewrite bool_decide_eq_true_2 in Hload by done. simpl in Hload.
        apply negb_false_iff in Hload as ->.
        destruct Hp as [(? & _)|[(_ & _ & ?)|(_ & ? & _)]]; done.
      * simpl. intros ->.
        destruct Hp as [(? & _)|[(_ & _ & ? & ?)|(_ & -> & _)]]; try done.
        split; [|done].
        destruct (lazy_strategy hparams) eqn:Hl; done.
Qed.

Lemma X12_engine_after_construction_witness :
  ∃ self,
    DataBase_init Z.succ 0 (IterDataSource [10; 20; 30])
      {| num_parallel_calls := 1; max_dataset_size := -1;
         lazy_strategy := LazyPROCESS; cache_strategy := CachePROCESSED;
         parallelize_processing := true |} = Some (Ok self) ∧
    (_supports_random_access self = false →
     LazyPROCESS ≠ LazyNONE ∧
     ∃ src st,
       cached_state_of self = Some (src, st) ∧
       cache_kind_ok st = true ∧
       _erase_after_access st =
         bool_decide (_cache_strategy self ≠ CacheLOADED)) ∧
    (LazyPROCESS = LazyPROCESS → ∃ n, _dataset_size self = Some n).
Proof.
  eexists. split; [vm_compute; reflexivity|].
  match goal with
  | |- (_supports_random_access ?self = _ → _) ∧ _ =>
      destruct (X12_engine_after_construction Z Z.succ 0
                  (IterDataSource [10; 20; 30])
                  {| num_parallel_calls := 1; max_dataset_size := -1;
                     lazy_strategy := LazyPROCESS;
                     cache_strategy := CachePROCESSED;
                     parallelize_processing := true |} self)
        as (_ & _ & Hcached & Hknown & _)
  end.
  - vm_compute. reflexivity.
  - split; [exact Hcached|exact Hknown].
Defined.

(** ** Examples that arrive out of order *)

Section Reassembly.
Context {Obj : Type}.
Implicit Types (self : DataBase Obj) (reorder : gmap Z Obj).
Implicit Types (cache : list Obj) (pairs : list (Z * Obj)).

Lemma held_below cache reorder j :
  0 ≤ j < len cache → held cache reorder j = cache !! Z.to_nat j.
Proof. intros Hj. unfold held. by rewrite decide_True. Qed.

Lemma held_beyond cache reorder j :
  ¬ (0 ≤ j < len cache) → held cache reorder j = reorder !! j.
Proof. intros Hj. unfold held. by rewrite decide_False. Qed.

Lemma held_fresh_beyond cache reorder j :
  held cache reorder j = None → ¬ (0 ≤ j < len cache).
Proof.
  intros Hheld Hj. rewrite held_below in Hheld by done.
  apply lookup_ge_None in Hheld. unfold len in Hj. lia.
Qed.

Lemma held_append cache reorder example j :
  held (cache ++ [example]) reorder j =
    if decide (j = len cache) then Some example
    else if decide (0 ≤ j < len cache) then cache !! Z.to_nat j
         else reorder !! j.
Proof.
  unfold held. rewrite len_app. change (len [example]) with 1.
  pose proof (len_nonneg cache).
  destruct (decide (j = len cache)) as [->|Hne].
  - rewrite decide_True by lia. unfold len. rewrite Nat2Z.id.
    by rewrite list_lookup_middle.
  - destruct (decide (0 ≤ j < len cache)) as [Hj|Hj].
    + rewrite decide_True by lia. apply lookup_app_l. unfold len in Hj. lia.
    + by rewrite decide_False by lia.
Qed.

Lemma held_insert cache reorder index example j :
  held cache (<[index:=example]> reorder) j =
    if decide (0 ≤ j < len cache) then cache !! Z.to_nat j
    else if decide (j = index) then Some example
         else reorder !! j.
Proof.
  unfold held. destruct (decide (0 ≤ j < len cache)); [done|].
  destruct (decide (j = index)) as [->|Hne].
  - apply lookup_insert_eq.
  - by apply lookup_insert_ne.
Qed.

(** The [for] loop over pairs with distinct indices, none of them held yet:
    afterwards the engine holds each example of the batch under its index,
    and what it held before. *)
Lemma ingest_held pairs self reorder :
  _reorder_cache self = Some reorder →
  settled (_processed_cache self) reorder →
  NoDup pairs.*1 →
  (∀ i, i ∈ pairs.*1 → held (_processed_cache self) reorder i = None) →
  ∃ self1 reorder1,
    ingest pairs self = (Ok tt, self1) ∧
    _reorder_cache self1 = Some reorder1 ∧
    (size reorder1 ≤ size reorder + length pairs)%nat ∧
    _dataset_size self1 = _dataset_size self ∧
    _fully_cached self1 = _fully_cached self ∧
    _should_delete_source_in_add_cache self1 =
      _should_delete_source_in_add_cache self ∧
    settled (_processed_cache self1) reorder1 ∧
    ∀ j, held (_processed_cache self1) reorder1 j =
           match (list_to_map pairs : gmap Z Obj) !! j with
           | Some example => Some example
           | None => held (_processed_cache self) reorder j
           end.
Proof.
  revert self reorder.
  induction pairs as [|[index example] pairs IH];
    intros self reorder Hre Hset Hnd Hfresh.
  - exists self, reorder. simpl. repeat split; try done. lia.
  - rewrite fmap_cons in Hnd, Hfresh. simpl in Hnd, Hfresh.
    apply NoDup_cons in Hnd as [Hnotin Hnd].
    pose proof (Hfresh index ltac:(left)) as Hidx.
    pose proof (held_fresh_beyond _ _ _ Hidx) as Hout.
    rewrite held_beyond in Hidx by done.
    assert (∀ j, match (list_to_map ((index, example) :: pairs)
                          : gmap Z Obj) !! j with
                 | Some e => Some e
                 | None => held (_processed_cache self) reorder j
                 end =
                 match (list_to_map pairs : gmap Z Obj) !! j with
                 | Some e => Some e
                 | None => if decide (j = index) then Some example
                           else held (_processed_cache self) reorder j
                 end) as Hmap.
    { intros j. rewrite list_to_map_cons.
      destruct (decide (j = index)) as [->|Hne].
      - rewrite lookup_insert_eq.
        by rewrite (not_elem_of_list_to_map_1 pairs index).
      - by rewrite lookup_insert_ne. }
    simpl. destruct (Z.eqb_spec index (len (_processed_cache self)))
      as [->|Hne].
    + destruct (IH (set_processed_cache self
                      (_processed_cache self ++ [example])) reorder)
        as (self1 & reorder1 & -> & Hre1 & Hsize & Hds & Hfc & Hfl & Hset1 &
            Hheld);
        [done| | done | |].
      { intros j. simpl. rewrite len_app. change (len [example]) with 1.
        intros Hj.
        destruct (decide (j = len (_processed_cache self))) as [->|Hj'];
          [done|]. apply Hset. lia. }
      { intros i Hi. simpl. rewrite held_append.
        rewrite decide_False by (intros ->; done).
        apply (Hfresh i). by right. }
      exists self1, reorder1. repeat split; try done; [lia|].
      intros j. rewrite Hheld, Hmap. simpl. by rewrite held_append.
    + rewrite Hre.
      destruct (IH (set_reorder_cache self (Some (<[index:=example]> reorder)))
                  (<[index:=example]> reorder))
        as (self1 & reorder1 & -> & Hre1 & Hsize & Hds & Hfc & Hfl & Hset1 &
            Hheld);
        [done| | done | |].
      { intros j Hj. simpl in Hj. rewrite lookup_insert_ne by (intros ->; done).
        by apply Hset. }
      { intros i Hi. simpl. rewrite held_insert.
        pose proof (Hfresh i ltac:(by right)) as Hi'.
        pose proof (held_fresh_beyond _ _ _ Hi').
        rewrite decide_False by done.
        rewrite decide_False by (intros ->; done).
        by rewrite held_beyond in Hi'. }
      exists self1, reorder1. repeat split; try done.
      { rewrite map_size_insert, Hidx in Hsize. simpl in Hsize. lia. }
      intros j. rewrite Hheld, Hmap. simpl. rewrite held_insert.
      unfold held. destruct (decide (0 ≤ j < len (_processed_cache self)));
        [|done].
      rewrite decide_False; [done|]. intros ->. done.
Qed.

(** The [while] loop moves entries from the buffer to the cache: it adds
    none and drops none. *)
Lemma drain_held fuel cache reorder :
  (size reorder ≤ fuel)%nat →
  settled cache reorder →
  ∃ cache' reorder',
    drain fuel cache reorder = Some (cache', reorder') ∧
    reorder' !! len cache' = None ∧
    settled cache' reorder' ∧
    (∀ j, held cache' reorder' j = held cache reorder j) ∧
    (size reorder' ≤ size reorder)%nat.
Proof.
  intros Hsize Hset.
  destruct (drain_spec fuel cache reorder Hsize)
    as (moved & reorder' & Hdrain & Hstop & Hmoved & Hrest).
  exists (cache ++ moved), reorder'. split; [done|]. split; [done|].
  pose proof (len_nonneg cache). pose proof (len_nonneg moved).
  split; [|split].
  - intros j. rewrite len_app. intros Hj. rewrite Hrest.
    destruct (decide (len cache ≤ j < len cache + len moved)); [done|].
    apply Hset. lia.
  - intros j. unfold held. rewrite len_app.
    destruct (decide (0 ≤ j < len cache + len moved)) as [Hj|Hj].
    + destruct (decide (0 ≤ j < len cache)) as [Hj'|Hj'].
      * apply lookup_app_l. unfold len in Hj'. lia.
      * rewrite lookup_app_r by (unfold len in *; lia).
        rewrite <- Hmoved by (unfold len in *; lia).
        f_equal. unfold len in *. lia.
    + rewrite decide_False by lia. rewrite Hrest.
      by rewrite decide_False by lia.
  - apply map_subseteq_size, map_subseteq_spec. intros j x.
    rewrite Hrest. by destruct (decide _).
Qed.

Lemma _add_cached_examples_held fuel pairs self self0 reorder :
  _reorder_cache self = Some reorder →
  (if _should_delete_source_in_add_cache self
   then delete_cached pairs.*1 self else (Ok tt, self)) = (Ok tt, self0) →
  settled (_processed_cache self) reorder →
  NoDup pairs.*1 →
  (∀ i, i ∈ pairs.*1 → held (_processed_cache self) reorder i = None) →
  (size reorder + length pairs ≤ fuel)%nat →
  ∃ self' reorder',
    _add_cached_examples fuel pairs.*1 pairs.*2 self = Some (Ok tt, self') ∧
    _reorder_cache self' = Some reorder' ∧
    settled (_processed_cache self') reorder' ∧
    reorder' !! len (_processed_cache self') = None ∧
    (∀ j, held (_processed_cache self') reorder' j =
            match (list_to_map pairs : gmap Z Obj) !! j with
            | Some example => Some example
            | None => held (_processed_cache self) reorder j
            end) ∧
    _dataset_size self' = _dataset_size self ∧
    _fully_cached self' =
      bool_decide (_dataset_size self = Some (len (_processed_cache self')))
      || _fully_cached self ∧
    _should_delete_source_in_add_cache self' =
      _should_delete_source_in_add_cache self ∧
    (size reorder' ≤ size reorder + length pairs)%nat.
Proof.
  intros Hre Hdel Hset Hnd Hfresh Hfuel.
  assert (self0 = set_source self (_source self0)) as Hframe.
  { destruct (_should_delete_source_in_add_cache self).
    - by apply delete_cached_frame in Hdel.
    - inversion Hdel; subst. by rewrite set_source_id. }
  destruct (ingest_held pairs self0 reorder)
    as (self1 & reorder1 & Hing & Hre1 & Hsize & Hds & Hfc & Hfl & Hset1 &
        Hheld1);
    try done; try (rewrite Hframe; done).
  destruct (drain_held fuel (_processed_cache self1) reorder1)
    as (cache' & reorder' & Hdrain & Hstop & Hset' & Hheld' & Hsize');
    [lia|done|].
  eexists _, reorder'. split.
  { unfold _add_cached_examples.
    by rewrite Hdel, zip_fst_snd, Hing, Hre1, Hdrain. }
  assert (_dataset_size self1 = _dataset_size self) as Hds'
    by (by rewrite Hds, Hframe).
  assert (_fully_cached self1 = _fully_cached self) as Hfc'
    by (by rewrite Hfc, Hframe).
  assert (_should_delete_source_in_add_cache self1 =
            _should_delete_source_in_add_cache self) as Hfl'
    by (by rewrite Hfl, Hframe).
  unfold mark_fully_cached. cbn [_dataset_size _processed_cache
    set_reorder_cache set_processed_cache].
  rewrite Hds'.
  destruct (bool_decide (_dataset_size self = Some (len cache'))) eqn:Hb;
    simpl; rewrite ?Hb; simpl;
    (split; [done|]); (split; [done|]); (split; [done|]);
    (split; [intros j; rewrite Hheld', Hheld1; by rewrite Hframe|]);
    (split; [done|]); (split; [done|]); (split; [done|lia]).
Qed.

(** Calls that together hand over distinct indices, none of them held
    yet. *)
Lemma add_batches_held (process : Obj → Obj) fuel
    (batches : list (list (Z * Obj))) self reorder :
  _reorder_cache self = Some reorder →
  _should_delete_source_in_add_cache self = false →
  settled (_processed_cache self) reorder →
  reorder !! len (_processed_cache self) = None →
  NoDup (mjoin batches).*1 →
  (∀ i, i ∈ (mjoin batches).*1 →
        held (_processed_cache self) reorder i = None) →
  (size reorder + length (mjoin batches) ≤ fuel)%nat →
  ∃ self' reorder',
    engine_run process
      (map (λ pairs, EAddCached fuel pairs.*1 pairs.*2) batches) self =
      Some self' ∧
    _reorder_cache self' = Some reorder' ∧
    settled (_processed_cache self') reorder' ∧
    reorder' !! len (_processed_cache self') = None ∧
    _processed_cache self `prefix_of` _processed_cache self' ∧
    (∀ i example, (i, example) ∈ mjoin batches →
                  held (_processed_cache self') reorder' i = Some example) ∧
    (∀ j, j ∉ (mjoin batches).*1 →
          held (_processed_cache self') reorder' j =
            held (_processed_cache self) reorder j) ∧
    _dataset_size self' = _dataset_size self ∧
    (batches ≠ [] →
     _dataset_size self = Some (len (_processed_cache self')) →
     _fully_cached self' = true).
Proof.
  revert self reorder.
  induction batches as [|pairs batches IH];
    intros self reorder Hre Hfl Hset Hstop Hnd Hfresh Hfuel.
  - exists self, reorder. simpl. repeat split; try done.
    intros i example Hi. by apply elem_of_nil in Hi.
  - simpl in Hnd, Hfresh, Hfuel.
    rewrite fmap_app in Hnd, Hfresh. rewrite length_app in Hfuel.
    apply NoDup_app in Hnd as (Hnd1 & Hdisj & Hnd2).
    destruct (_add_cached_examples_held fuel pairs self self reorder)
      as (self1 & reorder1 & Hadd & Hre1 & Hset1 & Hstop1 & Hheld1 & Hds1 &
          Hfc1 & Hfl1 & Hsize1); try done.
    { by rewrite Hfl. }
    { intros i Hi. apply Hfresh, elem_of_app. by left. }
    { lia. }
    pose proof (grown_add_cached _ _ _ _ _ _ Hadd) as [Hpre _].
    destruct (IH self1 reorder1)
      as (self' & reorder' & Hrun & Hre' & Hset' & Hstop' & Hpre' & Hin' &
          Hout' & Hds' & Hfc'); try done.
    { congruence. }
    { intros i Hi. rewrite Hheld1.
      rewrite (not_elem_of_list_to_map_1 pairs i).
      - apply Hfresh, elem_of_app. by right.
      - intros Hi1. by apply (Hdisj i). }
    { lia. }
    exists self', reorder'. simpl. rewrite Hadd. simpl.
    split; [exact Hrun|]. split; [done|]. split; [done|]. split; [done|].
    split; [by etrans|].
    split; [|split; [|split]].
    + intros i example [Hi|Hi]%elem_of_app.
      * rewrite Hout'.
        -- rewrite Hheld1.
           by rewrite (elem_of_list_to_map_1 pairs i example).
        -- intros Hi'. apply (Hdisj i); [|done].
           apply list_elem_of_fmap. by exists (i, example).
      * by apply Hin'.
    + intros j Hj. simpl in Hj. rewrite fmap_app in Hj.
      rewrite Hout', Hheld1.
      * rewrite not_elem_of_list_to_map_1; [done|].
        intros Hj'. apply Hj, elem_of_app. by left.
      * intros Hj'. apply Hj, elem_of_app. by right.
    + congruence.
    + intros _ Hfull. destruct batches as [|b bs].
      * simpl in Hrun. injection Hrun as <-. rewrite Hfc1.
        by rewrite bool_decide_true by done.
      * apply Hfc'; [done|]. by rewrite Hds1.
Qed.

End Reassembly.

(** X13.  A batch handed to [_add_cached_examples] whose indices are
    distinct and not held yet, on an engine whose reorder buffer has no
    entry below the length of the processed cache; where the engine erases
    the raw examples of the batch from its cached source first, those
    deletions succeed (a raw example that is no longer buffered makes the
    call raise [KeyError] instead).  The call returns, and afterwards the engine holds, in the cache or in the buffer, each example
    of the batch under its index and what it held before under the other
    indices; the buffer again has no entry below the length of the cache,
    and none for the next index. *)
Theorem X13_out_of_order_examples_are_kept
    (Obj : Type) (fuel : nat) (pairs : list (Z * Obj))
    (self self0 : DataBase Obj) (reorder : gmap Z Obj) :
  _reorder_cache self = Some reorder →
  (if _should_delete_source_in_add_cache self
   then delete_cached pairs.*1 self else (Ok tt, self)) = (Ok tt, self0) →
  settled (_processed_cache self) reorder →
  NoDup pairs.*1 →
  (∀ i, i ∈ pairs.*1 → held (_processed_cache self) reorder i = None) →
  (size reorder + length pairs ≤ fuel)%nat →
  ∃ self' reorder',
    _add_cached_examples fuel pairs.*1 pairs.*2 self = Some (Ok tt, self') ∧
    _reorder_cache self' = Some reorder' ∧
    settled (_processed_cache self') reorder' ∧
    reorder' !! len (_processed_cache self') = None ∧
    ∀ j, held (_processed_cache self') reorder' j =
           match (list_to_map pairs : gmap Z Obj) !! j with
           | Some example => Some example
           | None => held (_processed_cache self) reorder j
           end.
Proof.
  intros Hre Hdel Hset Hnd Hfresh Hfuel.
  destruct (_add_cached_examples_held fuel pairs self self0 reorder)
    as (self' & reorder' & H1 & H2 & H3 & H4 & H5 & _); try done.
  by exists self', reorder'.
Qed.

Lemma X13_out_of_order_examples_are_kept_witness :
  ∃ self,
    DataBase_init Z.succ 0 (SequenceDataSource [1; 2; 3; 4])
      {| num_parallel_calls := 1; max_dataset_size := -1;
         lazy_strategy := LazyALL; cache_strategy := CachePROCESSED;
         parallelize_processing := true |} = Some (Ok self) ∧
    ∃ self' reorder',
      _add_cached_examples 3 [3; 0; 1] [40; 10; 20] self =
        Some (Ok tt, self') ∧
      _reorder_cache self' = Some reorder' ∧
      held (_processed_cache self') reorder' 3 = Some 40 ∧
      held (_processed_cache self') reorder' 1 = Some 20 ∧
      held (_processed_cache self') reorder' 2 = None.
Proof.
  eexists. split; [vm_compute; reflexivity|].
  match goal with
  | |- ∃ self' _, _add_cached_examples _ _ _ ?self = _ ∧ _ =>
      destruct (X13_out_of_order_examples_are_kept Z 3
                  [(3, 40); (0, 10); (1, 20)] self self ∅)
        as (self' & reorder' & Hadd & Hre & _ & _ & Hheld)
  end.
  - reflexivity.
  - reflexivity.
  - intros j _. apply lookup_empty.
  - apply (bool_decide_unpack _). vm_compute. exact I.
  - intros i Hi. apply list_elem_of_In in Hi. simpl in Hi.
    destruct Hi as [<-|[<-|[<-|[]]]]; reflexivity.
  - vm_compute. lia.
  - exists self', reorder'. split; [exact Hadd|]. split; [exact Hre|].
    rewrite !Hheld. by vm_compute.
Defined.

(** X14.  An engine with an empty reorder buffer, a known dataset size [N]
    and a processed cache of at most [N] entries receives, over any number
    of calls of [_add_cached_examples] and in any order, one example for each
    index from the length of its cache up to [N - 1] (the source is not
    erased by these calls).  Every call returns; afterwards the processed
    cache extends the old one, has [N] entries and holds each delivered
    example at its index, the reorder buffer is empty again and the engine
    is fully cached. *)
Theorem X14_any_delivery_order_completes_the_cache
    (Obj : Type) (process : Obj → Obj) (fuel : nat)
    (batches : list (list (Z * Obj))) (self : DataBase Obj) (N : Z) :
  _reorder_cache self = Some ∅ →
  _dataset_size self = Some N →
  _should_delete_source_in_add_cache self = false →
  batches ≠ [] →
  NoDup (mjoin batches).*1 →
  (∀ j, j ∈ (mjoin batches).*1 ↔ len (_processed_cache self) ≤ j < N) →
  len (_processed_cache self) ≤ N →
  (length (mjoin batches) ≤ fuel)%nat →
  ∃ self',
    engine_run process
      (map (λ pairs, EAddCached fuel pairs.*1 pairs.*2) batches) self =
      Some self' ∧
    _processed_cache self `prefix_of` _processed_cache self' ∧
    len (_processed_cache self') = N ∧
    (∀ i example, (i, example) ∈ mjoin batches →
                  _processed_cache self' !! Z.to_nat i = Some example) ∧
    _reorder_cache self' = Some ∅ ∧
    _fully_cached self' = true.
Proof.
  intros Hre Hds Hfl Hne Hnd Hall HLN Hfuel.
  pose proof (len_nonneg (_processed_cache self)) as HL0.
  assert (∀ j, ¬ (0 ≤ j < len (_processed_cache self)) →
               held (_processed_cache self) ∅ j = None) as Hempty.
  { intros j Hj. rewrite held_beyond by done. apply lookup_empty. }
  destruct (add_batches_held process fuel batches self ∅)
    as (self' & reorder' & Hrun & Hre' & Hset' & Hstop' & Hpre & Hin & Hout &
        Hds' & Hfc); try done.
  { intros i Hi%Hall. apply Hempty. lia. }
  pose proof (prefix_length _ _ Hpre) as Hlen.
  assert (len (_processed_cache self) ≤ len (_processed_cache self'))
    as HLL by (unfold len; lia).
  assert (len (_processed_cache self') = N) as HN.
  { destruct (Z.lt_trichotomy (len (_processed_cache self')) N)
      as [Hlt|[Heq|Hgt]]; [|done|].
    - assert (len (_processed_cache self') ∈ (mjoin batches).*1) as Hi
        by (apply Hall; lia).
      apply list_elem_of_fmap in Hi as ([i example] & Hi & Hmem).
      simpl in Hi. subst i. apply Hin in Hmem.
      rewrite held_beyond in Hmem by lia. congruence.
    - assert (N ∉ (mjoin batches).*1) as Hi by (rewrite Hall; lia).
      apply Hout in Hi. rewrite held_below in Hi by lia.
      rewrite Hempty in Hi by lia.
      apply lookup_ge_None in Hi. unfold len in *. lia. }
  exists self'. split; [done|]. split; [done|]. split; [done|].
  split; [|split].
  - intros i example Hmem. pose proof Hmem as Hi. apply Hin in Hi.
    rewrite held_below in Hi; [done|].
    assert (i ∈ (mjoin batches).*1) as Hi'%Hall
      by (apply list_elem_of_fmap; by exists (i, example)).
    lia.
  - rewrite Hre'. f_equal. apply map_empty. intros j.
    destruct (decide (0 ≤ j < len (_processed_cache self'))) as [Hj|Hj];
      [by apply Hset'|].
    rewrite <- (held_beyond (_processed_cache self')) by done.
    rewrite Hout; [apply Hempty; lia|]. rewrite Hall. lia.
  - apply Hfc; [done|]. by rewrite HN.
Qed.

Lemma X14_any_delivery_order_completes_the_cache_witness :
  ∃ self,
    DataBase_init Z.succ 0 (SequenceDataSource [1; 2; 3; 4])
      {| num_parallel_calls := 1; max_dataset_size := -1;
         lazy_strategy := LazyALL; cache_strategy := CachePROCESSED;
         parallelize_processing := true |} = Some (Ok self) ∧
    ∃ self',
      engine_run Z.succ
        [EAddCached 4 [3; 1] [40; 20]; EAddCached 4 [] [];
         EAddCached 4 [2; 0] [30; 10]] self = Some self' ∧
      len (_processed_cache self') = 4 ∧
      _reorder_cache self' = Some ∅ ∧
      _fully_cached self' = true.
Proof.
  eexists. split; [vm_compute; reflexivity|].
  match goal with
  | |- ∃ self', engine_run _ _ ?self = _ ∧ _ =>
      destruct (X14_any_delivery_order_completes_the_cache Z Z.succ 4
                  [[(3, 40); (1, 20)]; []; [(2, 30); (0, 10)]] self 4)
        as (self' & Hrun & _ & Hlen & _ & Hre & Hfc)
  end.
  - reflexivity.
  - reflexivity.
  - reflexivity.
  - done.
  - apply (bool_decide_unpack _). vm_compute. exact I.
  - intros j. simpl. rewrite !elem_of_cons, elem_of_nil. unfold len. simpl. lia.
  - vm_compute. discriminate.
  - simpl. lia.
  - exists self'. by repeat split.
Defined.

(** ** Eager construction *)

Section Eager.
Context {Obj : Type}.
Variable process : Obj → Obj.
Implicit Types (self : DataBase Obj) (source : DataSource Obj).

(** The source that construction iterates under the [none] lazy strategy:
    the one given, truncated when a maximum size is set, never wrapped to
    process or to cache. *)
Lemma eager_init fuel source hparams :
  lazy_strategy hparams = LazyNONE →
  ∀ src,
    src = (if bool_decide (max_dataset_size hparams ≠ -1)
           then _TruncatedDataSource source (max_dataset_size hparams)
           else source) →
    match consume (DataSource_iter src) with
    | Raise e => DataBase_init process fuel source hparams = Some (Raise e)
    | Ok raws =>
        ∃ self,
          DataBase_init process fuel source hparams = Some (Ok self) ∧
          _processed_cache self = map process raws ∧
          _fully_cached self = true ∧
          _dataset_size self = Some (len raws) ∧
          _source self = src ∧
          _cache_strategy self = CachePROCESSED ∧
          _supports_random_access self = true ∧
          _reorder_cache self = None
    end.
Proof.
  destruct hparams as [calls size lazy cache par]. simpl.
  intros -> src ->. unfold DataBase_init. simpl.
  assert (∀ b : bool, (if b && false && true then
                         _TransformedDataSource
                           (if bool_decide (size ≠ -1)
                            then _TruncatedDataSource source size else source)
                           process
                       else if bool_decide (size ≠ -1)
                            then _TruncatedDataSource source size
                            else source) =
                      (if bool_decide (size ≠ -1)
                       then _TruncatedDataSource source size else source))
    as Hwrap by (by intros []).
  rewrite Hwrap.
  assert (∀ (b : bool) (s : DataSource Obj),
            (if b && false then _TransformedDataSource s process else s) = s)
    as Hwrap' by (by intros []).
  cbn [_source]. rewrite Hwrap'.
  destruct (consume _) as [raws|e]; [|done].
  eexists. split; [reflexivity|]. simpl.
  unfold len. by rewrite length_map.
Qed.

End Eager.

(** X15.  Construction under the [none] lazy strategy, over any source and
    whatever the other hyperparameters: the engine iterates the source once,
    truncated when [max_dataset_size] is set; an exception of the iteration
    is the outcome of the construction; otherwise the processed cache holds
    the processed elements in order, the engine is fully cached and knows
    its size, its source is neither wrapped to process nor to cache, it has
    no reorder buffer, and every read by an integer index is the read of the
    cache list and leaves the engine as it is. *)
Theorem X15_eager_construction
    (Obj : Type) (process : Obj → Obj) (fuel : nat)
    (source src : DataSource Obj) (hparams : HParams) :
  lazy_strategy hparams = LazyNONE →
  src = (if bool_decide (max_dataset_size hparams ≠ -1)
         then _TruncatedDataSource source (max_dataset_size hparams)
         else source) →
  match consume (DataSource_iter src) with
  | Raise e => DataBase_init process fuel source hparams = Some (Raise e)
  | Ok raws =>
      ∃ self,
        DataBase_init process fuel source hparams = Some (Ok self) ∧
        _processed_cache self = map process raws ∧
        _fully_cached self = true ∧
        _dataset_size self = Some (len raws) ∧
        _source self = src ∧
        _reorder_cache self = None ∧
        ∀ i, DataBase_getitem process (IntIndex i) self =
               (list_getitem (map process raws) i, self)
  end.
Proof.
  intros Hlazy Hsrc.
  pose proof (eager_init process fuel source hparams Hlazy src Hsrc) as H.
  destruct (consume _) as [raws|e]; [|done].
  destruct H as (self & Hinit & Hcache & Hfull & Hsize & Hsource & _ & _ & Hre).
  exists self. repeat split; try done.
  intros i. unfold DataBase_getitem. by rewrite Hfull, Hcache.
Qed.

Lemma X15_eager_construction_witness :
  ∃ self,
    DataBase_init Z.succ 0
      (FilterDataSource (IterDataSource [1; 2; 3; 4; 5]) (Some Z.odd))
      {| num_parallel_calls := 1; max_dataset_size := 2;
         lazy_strategy := LazyNONE; cache_strategy := CacheLOADED;
         parallelize_processing := false |} = Some (Ok self) ∧
    _processed_cache self = [2; 4] ∧
    _fully_cached self = true ∧
    _dataset_size self = Some 2 ∧
    _source self =
      _TruncatedDataSource
        (FilterDataSource (IterDataSource [1; 2; 3; 4; 5]) (Some Z.odd)) 2 ∧
    _reorder_cache self = None ∧
    ∀ i, DataBase_getitem Z.succ (IntIndex i) self =
           (list_getitem [2; 4] i, self).
Proof.
  apply (X15_eager_construction Z Z.succ 0
           (FilterDataSource (IterDataSource [1; 2; 3; 4; 5]) (Some Z.odd))
           (_TruncatedDataSource
              (FilterDataSource (IterDataSource [1; 2; 3; 4; 5])
                 (Some Z.odd)) 2)
           {| num_parallel_calls := 1; max_dataset_size := 2;
              lazy_strategy := LazyNONE; cache_strategy := CacheLOADED;
              parallelize_processing := false |}).
  - reflexivity.
  - reflexivity.
Defined.

(** ** The maximum dataset size at construction *)

Section MaximumSize.
Context {Obj : Type}.
Variable process : Obj → Obj.
Implicit Types (self : DataBase Obj) (source : DataSource Obj).

Lemma truncated_len_no_room source N :
  N ≤ 0 →
  (∀ e, builtin_len (DataSource_len source) = Raise e → e = TypeError) →
  builtin_len (DataSource_len (_TruncatedDataSource source N)) =
    if decide (N = 0) then Ok 0 else Raise ValueError.
Proof.
  intros HN Hlen.
  change (DataSource_len (_TruncatedDataSource source N))
    with (match builtin_len (DataSource_len source) with
          | Ok n => Ok (Z.min n N)
          | Raise TypeError => Ok N
          | Raise e => Raise e
          end).
  destruct (builtin_len (DataSource_len source)) as [n|e] eqn:Hsrc.
  - apply builtin_len_Ok in Hsrc as [_ Hn].
    rewrite Z.min_r by lia. unfold builtin_len.
    destruct (Z.ltb_spec N 0), (decide (N = 0)); try lia; by subst.
  - rewrite (Hlen e eq_refl). unfold builtin_len.
    destruct (Z.ltb_spec N 0), (decide (N = 0)); try lia; by subst.
Qed.

Lemma probe_no_room lazy cache source N (wrap : bool) :
  lazy ≠ LazyNONE →
  N ≤ 0 →
  (∀ e, builtin_len (DataSource_len source) = Raise e → e = TypeError) →
  probe_random_access lazy cache
    (if wrap
     then _TransformedDataSource (_TruncatedDataSource source N) process
     else _TruncatedDataSource source N) =
    Raise (if decide (N = 0) then IndexError else ValueError).
Proof.
  intros Hlazy HN Hlen. unfold probe_random_access.
  rewrite bool_decide_true by done.
  assert (builtin_len
            (DataSource_len
               (if wrap
                then _TransformedDataSource (_TruncatedDataSource source N)
                       process
                else _TruncatedDataSource source N)) =
          if decide (N = 0) then Ok 0 else Raise ValueError) as ->.
  { destruct wrap.
    - change (DataSource_len (_TransformedDataSource ?s _))
        with (builtin_len (DataSource_len s)).
      rewrite builtin_len_idemp. by apply truncated_len_no_room.
    - by apply truncated_len_no_room. }
  destruct (decide (N = 0)) as [->|]; [|done].
  by destruct wrap.
Qed.

End MaximumSize.

(** X16.  Construction under the [none] lazy strategy with a maximum
    dataset size [N], over a source whose iteration ends normally.  When the
    source yields at least [N] elements the processed cache holds the first
    [N] of them, processed; when it yields fewer, construction raises
    [RuntimeError]: the iterator of the truncated source is a generator, and
    the [StopIteration] of the exhausted source escapes from its body. *)
Theorem X16_eager_construction_with_a_maximum_size
    (Obj : Type) (process : Obj → Obj) (fuel : nat)
    (source : DataSource Obj) (hparams : HParams) :
  lazy_strategy hparams = LazyNONE →
  max_dataset_size hparams ≠ -1 →
  final (DataSource_iter source) = StopIteration →
  (max_dataset_size hparams ≤ len (pending (DataSource_iter source)) →
   ∃ self,
     DataBase_init process fuel source hparams = Some (Ok self) ∧
     _processed_cache self =
       map process
         (take (Z.to_nat (max_dataset_size hparams))
            (pending (DataSource_iter source))) ∧
     _fully_cached self = true) ∧
  (len (pending (DataSource_iter source)) < max_dataset_size hparams →
   DataBase_init process fuel source hparams = Some (Raise RuntimeError)).
Proof.
  intros Hlazy Hmax Hfin.
  pose proof (eager_init process fuel source hparams Hlazy _ eq_refl) as H.
  rewrite bool_decide_true in H by done.
  change (DataSource_iter (_TruncatedDataSource source ?n))
    with (truncated_gen n 0 (pending (DataSource_iter source))
            (final (DataSource_iter source))) in H.
  split; intros Hlen.
  - rewrite truncated_gen_enough in H by lia.
    destruct H as (self & Hinit & Hcache & Hfull & _).
    exists self. split; [done|]. split; [|done].
    by rewrite Z.sub_0_r in Hcache.
  - rewrite truncated_gen_short, Hfin in H by lia. done.
Qed.

Lemma X16_eager_construction_with_a_maximum_size_witness :
  (∃ self,
     DataBase_init Z.succ 0 (SequenceDataSource [1; 2; 3])
       {| num_parallel_calls := 1; max_dataset_size := 2;
          lazy_strategy := LazyNONE; cache_strategy := CachePROCESSED;
          parallelize_processing := true |} = Some (Ok self) ∧
     _processed_cache self = [2; 3] ∧
     _fully_cached self = true) ∧
  DataBase_init Z.succ 0 (SequenceDataSource [1; 2; 3])
    {| num_parallel_calls := 1; max_dataset_size := 4;
       lazy_strategy := LazyNONE; cache_strategy := CachePROCESSED;
       parallelize_processing := true |} = Some (Raise RuntimeError).
Proof.
  split.
  - apply (X16_eager_construction_with_a_maximum_size Z Z.succ 0
             (SequenceDataSource [1; 2; 3])
             {| num_parallel_calls := 1; max_dataset_size := 2;
                lazy_strategy := LazyNONE; cache_strategy := CachePROCESSED;
                parallelize_processing := true |});
      [reflexivity|simpl; lia|reflexivity|vm_compute; discriminate].
  - apply (X16_eager_construction_with_a_maximum_size Z Z.succ 0
             (SequenceDataSource [1; 2; 3])
             {| num_parallel_calls := 1; max_dataset_size := 4;
                lazy_strategy := LazyNONE; cache_strategy := CachePROCESSED;
                parallelize_processing := true |});
      [reflexivity|simpl; lia|reflexivity|vm_compute; reflexivity].
Defined.

(** X17.  A maximum dataset size that leaves no room, under a lazy strategy.
    Construction probes the truncated source with [len] and with a read of
    index 0.  With [max_dataset_size = 0] the length is 0 and the read
    raises [IndexError], which the probe does not catch; with a negative
    size other than -1 the length is negative and [len] raises [ValueError].
    Either way construction fails, whatever the source, as long as [len] of
    the source itself returns or raises [TypeError]. *)
Theorem X17_lazy_construction_with_no_room
    (Obj : Type) (process : Obj → Obj) (fuel : nat)
    (source : DataSource Obj) (hparams : HParams) :
  lazy_strategy hparams ≠ LazyNONE →
  max_dataset_size hparams ≤ 0 →
  max_dataset_size hparams ≠ -1 →
  (∀ e, builtin_len (DataSource_len source) = Raise e → e = TypeError) →
  DataBase_init process fuel source hparams =
    Some (Raise (if decide (max_dataset_size hparams = 0)
                 then IndexError else ValueError)).
Proof.
  destruct hparams as [calls N lazy cache par]. simpl.
  intros Hlazy HN Hmax Hlen. unfold DataBase_init.
  cbn [lazy_strategy cache_strategy max_dataset_size parallelize_processing
       num_parallel_calls].
  destruct (resolve_strategies lazy cache) as [cache' warned].
  rewrite (bool_decide_true (N ≠ -1)) by done.
  by rewrite (probe_no_room process lazy cache' source N
                (negb par && bool_decide (lazy = LazyALL) &&
                 bool_decide (cache' ≠ CacheLOADED))).
Qed.

Lemma X17_lazy_construction_with_no_room_witness :
  DataBase_init Z.succ 0 (SequenceDataSource [1; 2; 3])
    {| num_parallel_calls := 1; max_dataset_size := 0;
       lazy_strategy := LazyALL; cache_strategy := CachePROCESSED;
       parallelize_processing := true |} = Some (Raise IndexError) ∧
  DataBase_init Z.succ 0 (IterDataSource [1; 2; 3])
    {| num_parallel_calls := 1; max_dataset_size := -2;
       lazy_strategy := LazyPROCESS; cache_strategy := CacheLOADED;
       parallelize_processing := false |} = Some (Raise ValueError).
Proof.
  split.
  - apply (X17_lazy_construction_with_no_room Z Z.succ 0
             (SequenceDataSource [1; 2; 3])
             {| num_parallel_calls := 1; max_dataset_size := 0;
                lazy_strategy := LazyALL; cache_strategy := CachePROCESSED;
                parallelize_processing := true |});
      [done|simpl; lia|simpl; lia|].
    intros e. vm_compute. discriminate.
  - apply (X17_lazy_construction_with_no_room Z Z.succ 0
             (IterDataSource [1; 2; 3])
             {| num_parallel_calls := 1; max_dataset_size := -2;
                lazy_strategy := LazyPROCESS; cache_strategy := CacheLOADED;
                parallelize_processing := false |});
      [done|simpl; lia|simpl; lia|].
    intros e. vm_compute. by intros [= <-].
Defined.

(** ** Without a reorder buffer *)

Section NoReorderBuffer.
Context {Obj : Type}.
Implicit Types (self : DataBase Obj) (pairs : list (Z * Obj)).

(** The [for] loop over the pairs without a reorder buffer: it appends as
    long as the indices continue the cache, and raises at the first one that
    does not. *)
Lemma ingest_without_buffer pairs self :
  _reorder_cache self = None →
  ∃ r self' (k : nat),
    ingest pairs self = (r, self') ∧
    _processed_cache self' = _processed_cache self ++ take k pairs.*2 ∧
    (∀ j : nat, (j < k)%nat →
       pairs.*1 !! j = Some (len (_processed_cache self) + Z.of_nat j)) ∧
    ((r = Ok tt ∧ k = length pairs) ∨
     (r = Raise AttributeError ∧
      ∃ i, pairs.*1 !! k = Some i ∧
           i ≠ len (_processed_cache self) + Z.of_nat k)) ∧
    _reorder_cache self' = None ∧
    _fully_cached self' = _fully_cached self.
Proof.
  revert self. induction pairs as [|[index example] pairs IH];
    intros self Hre.
  - exists (Ok tt), self, 0%nat. simpl. rewrite app_nil_r.
    repeat split; try done; [lia|by left].
  - simpl. destruct (Z.eqb_spec index (len (_processed_cache self)))
      as [->|Hne].
    + destruct (IH (set_processed_cache self
                      (_processed_cache self ++ [example])) Hre)
        as (r & self' & k & -> & Hcache & Hidx & Hend & Hre' & Hfc).
      exists r, self', (S k). simpl in *.
      rewrite len_app in Hidx, Hend. change (len [example]) with 1 in *.
      split; [done|]. split; [by rewrite Hcache, <- app_assoc|].
      split; [|split; [|done]].
      * intros [|j] Hj; simpl; [f_equal; lia|].
        rewrite Hidx by lia. f_equal. lia.
      * destruct Hend as [[-> ->]|[-> (i & Hi & Hne)]]; [by left|right].
        split; [done|]. exists i. split; [done|]. lia.
    + rewrite Hre. exists (Raise AttributeError), self, 0%nat. simpl.
      rewrite app_nil_r. split; [done|]. split; [done|].
      split; [lia|]. split; [|done]. right. split; [done|].
      exists index. split; [done|]. lia.
Qed.

End NoReorderBuffer.

(** X18.  [_add_cached_examples] on an engine that has no reorder buffer
    (construction creates it under the [processed] cache strategy with a lazy
    strategy only) and does not erase from the source.  The call raises
    [AttributeError], whatever the batch: at the first pair whose index is
    not the current length of the processed cache, or, when there is none,
    at the test that opens the [while] loop.  The examples of the pairs
    before that one stay appended to the processed cache, and
    [_fully_cached] is not set. *)
Theorem X18_add_cached_examples_needs_the_reorder_buffer
    (Obj : Type) (fuel : nat) (pairs : list (Z * Obj))
    (self : DataBase Obj) :
  _reorder_cache self = None →
  _should_delete_source_in_add_cache self = false →
  ∃ self' (k : nat),
    _add_cached_examples fuel pairs.*1 pairs.*2 self =
      Some (Raise AttributeError, self') ∧
    _processed_cache self' = _processed_cache self ++ take k pairs.*2 ∧
    (∀ j : nat, (j < k)%nat →
       pairs.*1 !! j = Some (len (_processed_cache self) + Z.of_nat j)) ∧
    (k = length pairs ∨
     ∃ i, pairs.*1 !! k = Some i ∧
          i ≠ len (_processed_cache self) + Z.of_nat k) ∧
    _fully_cached self' = _fully_cached self.
Proof.
  intros Hre Hfl.
  destruct (ingest_without_buffer pairs self Hre)
    as (r & self' & k & Hing & Hcache & Hidx & Hend & Hre' & Hfc).
  exists self', k. unfold _add_cached_examples.
  rewrite Hfl, zip_fst_snd, Hing.
  destruct Hend as [[-> ->]|[-> Hbad]].
  - rewrite Hre'. repeat split; try done. by left.
  - repeat split; try done. by right.
Qed.

Lemma X18_add_cached_examples_needs_the_reorder_buffer_witness :
  ∃ self,
    DataBase_init Z.succ 0 (SequenceDataSource [1; 2; 3])
      {| num_parallel_calls := 1; max_dataset_size := -1;
         lazy_strategy := LazyALL; cache_strategy := CacheNONE;
         parallelize_processing := true |} = Some (Ok self) ∧
    ∃ self',
      _add_cached_examples 3 [0; 2; 1] [10; 30; 20] self =
        Some (Raise AttributeError, self') ∧
      _fully_cached self' = false.
Proof.
  eexists. split; [vm_compute; reflexivity|].
  match goal with
  | |- ∃ self', _add_cached_examples _ _ _ ?self = _ ∧ _ =>
      destruct (X18_add_cached_examples_needs_the_reorder_buffer Z 3
                  [(0, 10); (2, 30); (1, 20)] self)
        as (self' & k & Hadd & _ & _ & _ & Hfc)
  end.
  - reflexivity.
  - reflexivity.
  - exists self'. split; [exact Hadd|exact Hfc].
Defined.

(** ** Zipped sources *)

Section ZipFacts.
Context {Obj : Type}.
Implicit Types (its : list (iterator Obj)) (sources : list (DataSource Obj)).
Implicit Types (xss : list (list Obj)).

(** A step of [zip] that yields: the tuple holds the next element of each
    iterator, and each iterator moves on by one. *)
Lemma zip_next_Ok its xs its' :
  zip_next its = (Ok xs, its') →
  Forall2 (λ it x, pending it !! 0%nat = Some x) its xs ∧
  its' = map (λ it, {| pending := tail (pending it); final := final it |})
           its.
Proof.
  revert xs its'. induction its as [|it its IH]; intros xs its'; simpl.
  - intros [= <- <-]. split; constructor.
  - unfold next. destruct (pending it) as [|x rest] eqn:Hp; [done|].
    destruct (zip_next its) as [[ys|e] its1]; [|done].
    intros [= <- <-]. destruct (IH ys its1 eq_refl) as [H1 H2]. split.
    + constructor; [by rewrite Hp|done].
    + simpl. by rewrite <- H2.
Qed.

(** A step of [zip] that raises: the first exhausted iterator, in order,
    ends it with what ends that iterator. *)
Lemma zip_next_Raise its e its' :
  zip_next its = (Raise e, its') →
  ∃ (j : nat) it,
    its !! j = Some it ∧ pending it = [] ∧ final it = e ∧
    ∀ (j' : nat) it', (j' < j)%nat → its !! j' = Some it' →
                      pending it' ≠ [].
Proof.
  revert e its'. induction its as [|it its IH]; intros e its'; simpl.
  - done.
  - unfold next. destruct (pending it) as [|x rest] eqn:Hp.
    + intros [= <- <-]. exists 0%nat, it. repeat split; try done.
      intros j' it' Hj'. lia.
    + destruct (zip_next its) as [[ys|e'] its1]; [done|].
      intros [= <- <-].
      destruct (IH e' its1 eq_refl) as (j & it0 & Hj & Hp0 & Hf & Hbefore).
      exists (S j), it0. repeat split; try done.
      intros [|j'] it' Hj' Hit'; simpl in Hit'.
      * injection Hit' as <-. by rewrite Hp.
      * apply (Hbefore j'); [lia|done].
Qed.

(** [zip] over at least one iterator, given fuel for the shortest: the
    rows in order, as many as the shortest iterator holds, ended by what
    ends the first of the shortest. *)
Lemma zip_steps_spec fuel its :
  (∃ it, it ∈ its ∧ (length (pending it) < fuel)%nat) →
  ∃ zit,
    zip_steps fuel its = Some zit ∧
    (∀ (k : nat) xs,
       pending zit !! k = Some xs →
       Forall2 (λ it x, pending it !! k = Some x) its xs) ∧
    ∃ (j : nat) it,
      its !! j = Some it ∧
      length (pending it) = length (pending zit) ∧
      final zit = final it ∧
      ∀ (j' : nat) it', (j' < j)%nat → its !! j' = Some it' →
                        (length (pending zit) < length (pending it'))%nat.
Proof.
  revert its. induction fuel as [|fuel IH]; intros its (it & Hin & Hlt);
    [lia|].
  simpl. destruct (zip_next its) as [[xs|e] its'] eqn:Hnext.
  - apply zip_next_Ok in Hnext as [Hhead ->].
    destruct (IH (map (λ it, {| pending := tail (pending it);
                                final := final it |}) its))
      as (zit & -> & Hrows & j & it' & Hj & Hlen & Hfin & Hbefore).
    { exists {| pending := tail (pending it); final := final it |}.
      split.
      - by apply (list_elem_of_fmap_2
                    (λ it, {| pending := tail (pending it);
                              final := final it |})).
      - simpl. apply list_elem_of_lookup_1 in Hin as [i Hi].
        destruct (Forall2_lookup_l _ _ _ _ _ Hhead Hi) as (x & _ & Hx).
        destruct (pending it); simpl in *; [done|lia]. }
    eexists. split; [done|]. simpl. split.
    + intros [|k] ys Hk; simpl in Hk.
      * by injection Hk as <-.
      * apply Hrows in Hk. apply Forall2_fmap_l in Hk.
        eapply Forall2_impl; [exact Hk|].
        intros it0 x. simpl. by rewrite lookup_tail.
    + change (map ?f its) with (f <$> its) in Hj, Hbefore.
      apply list_lookup_fmap_Some in Hj as (it0 & -> & Hit0).
      simpl in Hlen. exists j, it0. split; [done|].
      destruct (Forall2_lookup_l _ _ _ _ _ Hhead Hit0) as (x & _ & Hx).
      split; [|split; [done|]].
      * destruct (pending it0); simpl in *; [done|lia].
      * intros j' it1 Hj' Hit1.
        assert (pending it1 ≠ []) as Hne.
        { destruct (Forall2_lookup_l _ _ _ _ _ Hhead Hit1) as (y & _ & Hy).
          by destruct (pending it1). }
        specialize (Hbefore j' _ Hj'
                      (list_lookup_fmap_Some_2 _ _ _ _ Hit1)).
        simpl in Hbefore. destruct (pending it1); simpl in *; [done|lia].
  - apply zip_next_Raise in Hnext as (j & it0 & Hj & Hp & Hf & Hbefore).
    eexists. split; [done|]. simpl. split; [done|].
    exists j, it0. rewrite Hp. repeat split; try done.
    intros j' it' Hj' Hit'. specialize (Hbefore j' it' Hj' Hit').
    destruct (pending it'); simpl; [done|lia].
Qed.

Lemma ZipDataSource_iter_spec fuel sources :
  (∃ source, source ∈ sources ∧
             (length (pending (DataSource_iter source)) < fuel)%nat) →
  ∃ zit,
    ZipDataSource_iter fuel sources = Some zit ∧
    (∀ (k : nat) xs,
       pending zit !! k = Some xs →
       Forall2 (λ source x, pending (DataSource_iter source) !! k = Some x)
         sources xs) ∧
    (∀ source, source ∈ sources →
       (length (pending zit) ≤
        length (pending (DataSource_iter source)))%nat) ∧
    ∃ (j : nat) source,
      sources !! j = Some source ∧
      length (pending (DataSource_iter source)) = length (pending zit) ∧
      final zit = final (DataSource_iter source) ∧
      ∀ (j' : nat) source', (j' < j)%nat → sources !! j' = Some source' →
        (length (pending zit) <
         length (pending (DataSource_iter source')))%nat.
Proof.
  intros (source & Hin & Hlt).
  destruct (zip_steps_spec fuel (map DataSource_iter sources))
    as (zit & Hzit & Hrows & j & it & Hj & Hlen & Hfin & Hbefore).
  { exists (DataSource_iter source). split; [|done].
    by apply (list_elem_of_fmap_2 DataSource_iter). }
  assert (∀ (k : nat) xs,
            pending zit !! k = Some xs →
            Forall2 (λ source x,
                       pending (DataSource_iter source) !! k = Some x)
              sources xs) as Hrows'.
  { intros k xs Hk. apply Hrows in Hk. by apply Forall2_fmap_l in Hk. }
  exists zit. split.
  { unfold ZipDataSource_iter, zip_iter.
    destruct sources; [by apply elem_of_nil in Hin|done]. }
  split; [done|]. split.
  - intros source' Hin'.
    destruct (decide (length (pending zit) ≤
                      length (pending (DataSource_iter source')))%nat)
      as [|Hgt]; [done|exfalso].
    destruct (lookup_lt_is_Some_2 (pending zit)
                (length (pending (DataSource_iter source'))))
      as [xs Hxs]; [lia|].
    apply Hrows' in Hxs.
    apply list_elem_of_lookup_1 in Hin' as [i Hi].
    destruct (Forall2_lookup_l _ _ _ _ _ Hxs Hi) as (x & _ & Hx).
    apply lookup_lt_Some in Hx. lia.
  - change (map DataSource_iter sources) with (DataSource_iter <$> sources)
      in Hj, Hbefore.
    apply list_lookup_fmap_Some in Hj as (source0 & -> & Hsource0).
    exists j, source0. repeat split; try done.
    intros j' source' Hj' Hsource'.
    apply (Hbefore j'); [done|].
    by apply list_lookup_fmap_Some_2.
Qed.

End ZipFacts.



Section ZipSequences.
Context {Obj : Type}.
Implicit Types (xs ys : list Obj) (xss : list (list Obj)).

Lemma builtin_len_sequence xs :
  builtin_len (DataSource_len (SequenceDataSource xs)) = Ok (len xs).
Proof.
  simpl. pose proof (len_nonneg xs). by destruct (Z.ltb_spec (len xs) 0); [lia|].
Qed.

(** [min] over the lengths of sequences. *)
Lemma min_len_sequences xss least :
  xss ≠ [] ∨ is_Some least →
  ∃ m,
    min_len (map SequenceDataSource xss) least = Ok m ∧
    (∀ ys, ys ∈ xss → m ≤ len ys) ∧
    (∀ l, least = Some l → m ≤ l) ∧
    ((∃ ys, ys ∈ xss ∧ m = len ys) ∨ least = Some m).
Proof.
  revert least. induction xss as [|xs xss IH]; intros least Hsome.
  - destruct Hsome as [|[n ->]]; [done|]. exists n. simpl.
    split; [done|]. split; [by intros ys Hys%elem_of_nil|].
    split; [intros l [= ->]; lia|by right].
  - change (min_len (map SequenceDataSource (xs :: xss)) least)
      with (match builtin_len (DataSource_len (SequenceDataSource xs)) with
            | Ok n =>
                min_len (map SequenceDataSource xss)
                  (Some (match least with
                         | Some m => Z.min m n
                         | None => n
                         end))
            | Raise e => Raise e
            end).
    rewrite builtin_len_sequence.
    destruct (IH (Some (match least with
                        | Some m => Z.min m (len xs)
                        | None => len xs
                        end))) as (m & -> & Hall & Hleast & Hwhere);
      [by right|].
    specialize (Hleast _ eq_refl).
    exists m. split; [done|]. split; [|split].
    + intros ys [->|Hys]%elem_of_cons; [|by apply Hall].
      destruct least; lia.
    + intros l ->. lia.
    + destruct Hwhere as [(ys & Hys & ->)|[= Hm]].
      * left. exists ys. split; [by right|done].
      * destruct least as [l|].
        -- destruct (Z.min_spec l (len xs)) as [[_ Heq]|[_ Heq]].
           ++ right. f_equal. lia.
           ++ left. exists xs. split; [by left|lia].
        -- left. exists xs. split; [by left|done].
Qed.

Lemma list_getitem_cases xs i :
  (∃ x, list_getitem xs i = Ok x) ∨ list_getitem xs i = Raise IndexError.
Proof.
  unfold list_getitem. destruct (norm_index _ _) as [k|]; [|by right].
  destruct (xs !! k) as [x|]; [left; by exists x|by right].
Qed.

Lemma list_getitem_neg xs i :
  - len xs ≤ i < 0 →
  ∃ x, xs !! Z.to_nat (len xs + i) = Some x ∧ list_getitem xs i = Ok x.
Proof.
  intros Hi.
  destruct (lookup_lt_is_Some_2 xs (Z.to_nat (len xs + i))) as [x Hx];
    [unfold len in *; lia|].
  exists x. split; [done|]. unfold list_getitem, norm_index.
  destruct (Z.ltb_spec i 0); [|lia].
  destruct (Z.leb_spec 0 (i + len xs)); [|lia].
  destruct (Z.ltb_spec (i + len xs) (len xs)); [|lia]. simpl.
  by rewrite (Z.add_comm i), Hx.
Qed.

(** A read of a zip of sequences is the tuple of the reads. *)
Lemma ZipDataSource_getitem_sequences xss i xs :
  Forall2 (λ ys x, list_getitem ys i = Ok x) xss xs →
  ZipDataSource_getitem (map SequenceDataSource xss) i =
    (Ok xs, map SequenceDataSource xss).
Proof.
  induction 1 as [|ys x xss xs Hx _ IH]; [done|].
  simpl. by rewrite Hx, IH.
Qed.

Lemma ZipDataSource_getitem_sequences_raise xss i :
  (∃ ys, ys ∈ xss ∧ list_getitem ys i = Raise IndexError) →
  ZipDataSource_getitem (map SequenceDataSource xss) i =
    (Raise IndexError, map SequenceDataSource xss).
Proof.
  induction xss as [|xs xss IH]; intros (ys & Hin & Hys).
  - by apply elem_of_nil in Hin.
  - simpl. destruct (list_getitem_cases xs i) as [[x Hx]|Hx];
      rewrite Hx; [|done].
    apply elem_of_cons in Hin as [->|Hin]; [congruence|].
    rewrite IH; [done|]. by exists ys.
Qed.

Lemma Forall2_choice {A B : Type} (P : A → B → Prop) (l : list A) :
  (∀ a, a ∈ l → ∃ b, P a b) → ∃ k, Forall2 P l k.
Proof.
  induction l as [|a l IH]; intros H.
  - exists []. constructor.
  - destruct (H a) as [b Hb]; [by left|].
    destruct IH as [k Hk]; [intros a' Ha'; apply H; by right|].
    exists (b :: k). by constructor.
Qed.

(** Length and iteration of a zip of sequences. *)
Lemma zip_of_sequences fuel xss :
  (∃ ys, ys ∈ xss ∧ (length ys < fuel)%nat) →
  ∃ m zit,
    ZipDataSource_len (map SequenceDataSource xss) = Ok m ∧
    ZipDataSource_iter fuel (map SequenceDataSource xss) = Some zit ∧
    final zit = StopIteration ∧
    len (pending zit) = m ∧
    (∀ ys, ys ∈ xss → m ≤ len ys) ∧
    (∃ ys, ys ∈ xss ∧ m = len ys) ∧
    ∀ (k : nat) xs,
      pending zit !! k = Some xs →
      Forall2 (λ ys x, ys !! k = Some x) xss xs.
Proof.
  intros (ys & Hin & Hlt).
  assert (xss ≠ [] ∨ is_Some (@None Z)) as Hne.
  { left. intros ->. by apply elem_of_nil in Hin. }
  destruct (min_len_sequences xss None Hne)
    as (m & Hm & Hall & _ & [Hwhere|?]); [|done].
  destruct (ZipDataSource_iter_spec fuel (map SequenceDataSource xss))
    as (zit & Hzit & Hrows & Hshort & j & source & Hj & Hlen & Hfin & _).
  { exists (SequenceDataSource ys). split; [|done].
    by apply (list_elem_of_fmap_2 SequenceDataSource). }
  change (map SequenceDataSource xss) with (SequenceDataSource <$> xss)
    in Hj.
  apply list_lookup_fmap_Some in Hj as (zs & -> & Hzs).
  simpl in Hlen, Hfin.
  exists m, zit. split; [done|]. split; [done|]. split; [done|].
  split; [|split; [done|split; [done|]]].
  - destruct Hwhere as (ws & Hws & ->).
    apply list_elem_of_lookup_2 in Hzs.
    specialize (Hall zs Hzs).
    specialize (Hshort (SequenceDataSource ws)
                  (list_elem_of_fmap_2 SequenceDataSource _ _ Hws)).
    simpl in Hshort. unfold len in *. lia.
  - intros k xs Hk. apply Hrows in Hk. by apply Forall2_fmap_l in Hk.
Qed.

End ZipSequences.

(** X20.  A [ZipDataSource] over sequences, at least one: its length is
    the length of the shortest sequence, iterating it (with fuel for the
    shortest) yields that many tuples and ends normally, a read at an index
    from 0 up to the length returns the tuple that iteration yields at that
    position and leaves the sources as they are, and a read at the length
    or beyond raises [IndexError]. *)
Theorem X20_zip_of_sequences_reads_what_it_iterates
    (Obj : Type) (fuel : nat) (xss : list (list Obj)) :
  (∃ ys, ys ∈ xss ∧ (length ys < fuel)%nat) →
  ∃ m zit,
    ZipDataSource_len (map SequenceDataSource xss) = Ok m ∧
    ZipDataSource_iter fuel (map SequenceDataSource xss) = Some zit ∧
    final zit = StopIteration ∧
    len (pending zit) = m ∧
    (∀ ys, ys ∈ xss → m ≤ len ys) ∧
    (∀ i, 0 ≤ i < m →
       ∃ xs, pending zit !! Z.to_nat i = Some xs ∧
             ZipDataSource_getitem (map SequenceDataSource xss) i =
               (Ok xs, map SequenceDataSource xss)) ∧
    (∀ i, m ≤ i →
       ZipDataSource_getitem (map SequenceDataSource xss) i =
         (Raise IndexError, map SequenceDataSource xss)).
Proof.
  intros Hfuel.
  destruct (zip_of_sequences fuel xss Hfuel)
    as (m & zit & Hm & Hzit & Hfin & Hlen & Hall & (ws & Hws & Hmw) & Hrows).
  exists m, zit. repeat split; try done.
  - intros i Hi.
    destruct (lookup_lt_is_Some_2 (pending zit) (Z.to_nat i)) as [xs Hxs];
      [unfold len in *; lia|].
    exists xs. split; [done|].
    apply ZipDataSource_getitem_sequences.
    eapply Forall2_impl; [exact (Hrows _ _ Hxs)|].
    intros ys x Hx. apply list_getitem_nonneg; [lia|done].
  - intros i Hi. apply ZipDataSource_getitem_sequences_raise.
    exists ws. split; [done|]. apply list_getitem_ge. lia.
Qed.

Lemma X20_zip_of_sequences_reads_what_it_iterates_witness :
  ∃ m zit,
    ZipDataSource_len
      (map SequenceDataSource [[1; 2; 3]; [10; 20]; [7; 8; 9; 6]]) = Ok m ∧
    ZipDataSource_iter 3
      (map SequenceDataSource [[1; 2; 3]; [10; 20]; [7; 8; 9; 6]]) =
      Some zit ∧
    final zit = StopIteration ∧
    len (pending zit) = m.
Proof.
  destruct (X20_zip_of_sequences_reads_what_it_iterates Z 3
              [[1; 2; 3]; [10; 20]; [7; 8; 9; 6]])
    as (m & zit & Hm & Hzit & Hfin & Hlen & _).
  - exists [10; 20]. split; [|simpl; lia].
    apply list_elem_of_In. simpl. right. by left.
  - exists m, zit. by repeat split.
Defined.

(** X21.  A negative index on a [ZipDataSource] over sequences counts from
    the end of each sequence separately.  For [-m <= i < 0], with [m] the
    length of the zip, the read returns the tuple of the elements at
    [len(ys) + i] of each sequence [ys], while the tuple that iteration
    yields at position [m + i] holds the elements at [m + i]: the two
    differ in the component of every sequence longer than the shortest,
    unless the elements happen to be equal. *)
Theorem X21_zip_negative_index
    (Obj : Type) (fuel : nat) (xss : list (list Obj)) (i : Z) :
  (∃ ys, ys ∈ xss ∧ (length ys < fuel)%nat) →
  (∀ ys, ys ∈ xss → - len ys ≤ i) →
  i < 0 →
  ∃ m zit xs row,
    ZipDataSource_len (map SequenceDataSource xss) = Ok m ∧
    ZipDataSource_iter fuel (map SequenceDataSource xss) = Some zit ∧
    - m ≤ i ∧
    ZipDataSource_getitem (map SequenceDataSource xss) i =
      (Ok xs, map SequenceDataSource xss) ∧
    Forall2 (λ ys x, ys !! Z.to_nat (len ys + i) = Some x) xss xs ∧
    pending zit !! Z.to_nat (m + i) = Some row ∧
    Forall2 (λ ys x, ys !! Z.to_nat (m + i) = Some x) xss row.
Proof.
  intros Hfuel Hi Hneg.
  destruct (zip_of_sequences fuel xss Hfuel)
    as (m & zit & Hm & Hzit & Hfin & Hlen & Hall & (ws & Hws & Hmw) & Hrows).
  assert (- m ≤ i) as Hmi by (rewrite Hmw; by apply Hi).
  destruct (Forall2_choice
              (λ ys x, ys !! Z.to_nat (len ys + i) = Some x ∧
                       list_getitem ys i = Ok x) xss) as [xs Hxs].
  { intros ys Hys. destruct (list_getitem_neg ys i) as (x & Hx & Hget);
      [split; [by apply Hi|done]|]. by exists x. }
  destruct (lookup_lt_is_Some_2 (pending zit) (Z.to_nat (m + i)))
    as [row Hrow]; [unfold len in *; lia|].
  exists m, zit, xs, row. repeat split; try done.
  - apply ZipDataSource_getitem_sequences.
    eapply Forall2_impl; [exact Hxs|]. by intros ys x [_ Hx].
  - eapply Forall2_impl; [exact Hxs|]. by intros ys x [Hx _].
  - by apply Hrows.
Qed.

Lemma X21_zip_negative_index_witness :
  ∃ m zit xs row,
    ZipDataSource_len (map SequenceDataSource [[1; 2; 3]; [10; 20]]) =
      Ok m ∧
    ZipDataSource_iter 3 (map SequenceDataSource [[1; 2; 3]; [10; 20]]) =
      Some zit ∧
    ZipDataSource_getitem (map SequenceDataSource [[1; 2; 3]; [10; 20]])
      (-1) = (Ok xs, map SequenceDataSource [[1; 2; 3]; [10; 20]]) ∧
    Forall2 (λ ys x, ys !! Z.to_nat (len ys + -1) = Some x)
      [[1; 2; 3]; [10; 20]] xs ∧
    pending zit !! Z.to_nat (m + -1) = Some row ∧
    Forall2 (λ ys x, ys !! Z.to_nat (m + -1) = Some x)
      [[1; 2; 3]; [10; 20]] row.
Proof.
  destruct (X21_zip_negative_index Z 3 [[1; 2; 3]; [10; 20]] (-1))
    as (m & zit & xs & row & Hm & Hzit & _ & Hget & Hxs & Hrow & Hrows).
  - exists [10; 20]. split; [|simpl; lia].
    apply list_elem_of_In. simpl. right. by left.
  - intros ys Hys. apply list_elem_of_In in Hys. simpl in Hys.
    destruct Hys as [<-|[<-|[]]]; vm_compute; discriminate.
  - lia.
  - exists m, zit, xs, row. by repeat split.
Defined.

(** ** Records of sources *)

Section RecordFacts.
Context {K Obj : Type}.
Implicit Types (sources : list (K * DataSource Obj)).

(** Every tuple of [zip] has one component for each iterator. *)
Lemma zip_steps_rows fuel (its : list (iterator Obj)) zit :
  zip_steps fuel its = Some zit →
  Forall (λ xs, length xs = length its) (pending zit).
Proof.
  revert its zit. induction fuel as [|fuel IH]; intros its zit; [done|].
  simpl. destruct (zip_next its) as [[xs|e] its'] eqn:Hnext.
  - apply zip_next_Ok in Hnext as [Hhead ->].
    destruct (zip_steps fuel _) as [zit'|] eqn:Hsteps; [|done].
    intros [= <-]. simpl. constructor.
    + symmetry. by eapply Forall2_length.
    + apply IH in Hsteps. by rewrite length_map in Hsteps.
  - intros [= <-]. constructor.
Qed.

Lemma RecordDataSource_getitem_zip sources index :
  ZipDataSource_getitem sources.*2 index =
    (result_map (λ record, record.*2)
       (RecordDataSource_getitem sources index).1,
     (RecordDataSource_getitem sources index).2.*2) ∧
  (RecordDataSource_getitem sources index).2.*1 = sources.*1 ∧
  ∀ record, (RecordDataSource_getitem sources index).1 = Ok record →
            record.*1 = sources.*1.
Proof.
  induction sources as [|[key source] sources IH];
    [repeat split; try done; by intros record [= <-]|].
  simpl. destruct (DataSource_getitem source index) as [[x|e] source'];
    simpl; [|by repeat split].
  change (list_fmap _ _ snd sources) with (sources.*2).
  change (list_fmap _ _ fst sources) with (sources.*1).
  destruct IH as (-> & Hkeys & Hrecord).
  destruct (RecordDataSource_getitem sources index) as [[record|e] sources'];
    simpl in *.
  - split; [done|]. split; [by f_equal|].
    intros ? [= <-]. simpl. f_equal. by apply Hrecord.
  - split; [done|]. split; [by f_equal|done].
Qed.

End RecordFacts.

(** X22.  A [RecordDataSource] is the zip of its sources under their keys.
    Its length is that of the zip.  A read goes through the sources in the
    order of the keys and touches them as the read of the zip does: it
    raises what the zip raises, or returns a dictionary with exactly the
    keys of the sources, in their order, whose values are the tuple the zip
    returns.  Iteration runs out of fuel when that of the zip does, ends as
    it ends, and yields one dictionary for each tuple, with the keys of the
    sources and the components of the tuple as values. *)
Theorem X22_record_is_the_zip_under_keys
    (K Obj : Type) (fuel : nat) (sources : list (K * DataSource Obj))
    (index : Z) :
  RecordDataSource_len sources = ZipDataSource_len sources.*2 ∧
  ZipDataSource_getitem sources.*2 index =
    (result_map (λ record, record.*2)
       (RecordDataSource_getitem sources index).1,
     (RecordDataSource_getitem sources index).2.*2) ∧
  (RecordDataSource_getitem sources index).2.*1 = sources.*1 ∧
  (∀ record, (RecordDataSource_getitem sources index).1 = Ok record →
             record.*1 = sources.*1) ∧
  match RecordDataSource_iter fuel sources,
        ZipDataSource_iter fuel sources.*2 with
  | Some rit, Some zit =>
      final rit = final zit ∧
      Forall2 (λ record xs, record.*1 = sources.*1 ∧ record.*2 = xs)
        (pending rit) (pending zit)
  | None, None => True
  | _, _ => False
  end.
Proof.
  split; [done|].
  destruct (RecordDataSource_getitem_zip sources index) as (H1 & H2 & H3).
  split; [done|]. split; [done|]. split; [done|].
  unfold RecordDataSource_iter, ZipDataSource_iter.
  destruct (zip_iter fuel (map DataSource_iter sources.*2)) as [zit|] eqn:Hzit;
    [|done].
  split; [done|]. simpl.
  assert (Forall (λ xs, length xs = length sources) (pending zit)) as Hrows.
  { unfold zip_iter in Hzit.
    destruct (map DataSource_iter sources.*2) eqn:Hits.
    - injection Hzit as <-. constructor.
    - apply zip_steps_rows in Hzit.
      by rewrite <- Hits, length_map, length_fmap in Hzit. }
  apply Forall2_fmap_l, Forall_Forall2_diag.
  eapply Forall_impl; [exact Hrows|].
  intros xs Hxs. simpl in *. split.
  - apply fst_zip. rewrite length_fmap. lia.
  - apply snd_zip. rewrite length_fmap. lia.
Qed.

(** ** Lazy construction over a source with random access *)

Section LazyRandomAccess.
Context {Obj : Type}.
Variable process : Obj → Obj.
Implicit Types (self : DataBase Obj) (s source : DataSource Obj).

Lemma probe_random_access_chain lazy cache s n x :
  lazy ≠ LazyNONE →
  builtin_len (DataSource_len s) = Ok n →
  DataSource_getitem s 0 = (Ok x, s) →
  probe_random_access lazy cache s = Ok (s, true, Some n).
Proof.
  intros Hlazy Hlen Hget. unfold probe_random_access.
  by rewrite bool_decide_true, Hlen, Hget by done.
Qed.

(** Wrapping a chain to process keeps its length, and processes what it
    reads. *)
Lemma wrapped_chain (wrap : bool) s n :
  random_access s = true →
  builtin_len (DataSource_len s) = Ok n →
  random_access (if wrap then _TransformedDataSource s process else s) =
    true ∧
  builtin_len
    (DataSource_len (if wrap then _TransformedDataSource s process else s)) =
    Ok n ∧
  ∀ i x, DataSource_getitem s i = (Ok x, s) →
         DataSource_getitem
           (if wrap then _TransformedDataSource s process else s) i =
           (Ok (if wrap then process x else x),
            if wrap then _TransformedDataSource s process else s).
Proof.
  intros Hra Hlen. destruct wrap; [|done].
  split; [done|]. split.
  - change (DataSource_len (_TransformedDataSource s process))
      with (builtin_len (DataSource_len s)).
    by rewrite builtin_len_idemp.
  - intros i x Hget. simpl. by rewrite Hget.
Qed.

Lemma lazy_init_random_access fuel source src hparams n :
  lazy_strategy hparams ≠ LazyNONE →
  random_access source = true →
  src = (if bool_decide (max_dataset_size hparams ≠ -1)
         then _TruncatedDataSource source (max_dataset_size hparams)
         else source) →
  builtin_len (DataSource_len src) = Ok n →
  0 < n →
  ∃ self,
    DataBase_init process fuel source hparams = Some (Ok self) ∧
    _supports_random_access self = true ∧
    _dataset_size self = Some n ∧
    _fully_cached self = false ∧
    _processed_cache self = [] ∧
    ∀ i, 0 ≤ i < n →
      ∃ x, pending (DataSource_iter src) !! Z.to_nat i = Some x ∧
           DataBase_getitem process (IntIndex i) self =
             (Ok (if negb (parallelize_processing hparams) &&
                     bool_decide (lazy_strategy hparams = LazyPROCESS) &&
                     bool_decide (cache_strategy hparams = CachePROCESSED)
                  then x else process x), self).
Proof.
  destruct hparams as [calls N lazy cache par].
  cbn [lazy_strategy cache_strategy max_dataset_size parallelize_processing
       num_parallel_calls].
  intros Hlazy Hra Hsrc Hlen Hn.
  assert (random_access src = true) as Hra0 by (rewrite Hsrc; by destruct (bool_decide _)).
  destruct (random_access_reads src n Hra0 Hlen) as [_ Hread].
  unfold DataBase_init.
  cbn [lazy_strategy cache_strategy max_dataset_size parallelize_processing
       num_parallel_calls].
  rewrite <- Hsrc.
  assert (∃ cache' warned,
            resolve_strategies lazy cache = (cache', warned) ∧
            cache' = (if bool_decide (lazy = LazyPROCESS) &&
                         bool_decide (cache = CacheNONE)
                      then CacheLOADED else cache))
    as (cache' & warned & -> & Hcache').
  { unfold resolve_strategies. rewrite bool_decide_false by done.
    destruct (bool_decide (lazy = LazyPROCESS)); simpl; eauto.
    destruct (bool_decide (cache = CacheNONE)); eauto. }
  set (w1 := negb par && bool_decide (lazy = LazyALL) &&
             bool_decide (cache' ≠ CacheLOADED)).
  set (w2 := negb par && bool_decide (cache' = CacheLOADED)).
  destruct (wrapped_chain w1 src n Hra0 Hlen) as (Hra1 & Hlen1 & Hget1).
  set (src1 := if w1 then _TransformedDataSource src process else src) in *.
  destruct (wrapped_chain w2 src1 n Hra1 Hlen1) as (Hra2 & Hlen2 & Hget2).
  destruct (Hread 0) as (x0 & _ & Hx0); [lia|].
  rewrite (probe_random_access_chain lazy cache' src1 n _ Hlazy Hlen1
             (Hget1 0 x0 Hx0)).
  rewrite (bool_decide_false (lazy = LazyNONE)) by done.
  cbn [_supports_random_access negb]. rewrite andb_false_r.
  set (src2 := if w2 then _TransformedDataSource src1 process else src1) in *.
  assert (∀ i, 0 ≤ i < n →
            ∃ x, pending (DataSource_iter src) !! Z.to_nat i = Some x ∧
                 DataSource_getitem src2 i =
                   (Ok (if w2 then process (if w1 then process x else x)
                        else if w1 then process x else x), src2))
    as Hread2.
  { intros i Hi. destruct (Hread i Hi) as (x & Hx & Hget).
    exists x. split; [done|]. by apply Hget2, Hget1. }
  assert (∀ x, (if negb par then
                  (if w2 then process (if w1 then process x else x)
                   else if w1 then process x else x)
                else process (if w2 then process (if w1 then process x else x)
                              else if w1 then process x else x)) =
               (if negb par && bool_decide (lazy = LazyPROCESS) &&
                   bool_decide (cache = CachePROCESSED)
                then x else process x)) as Hvalue.
  { intros x. subst w1 w2. rewrite Hcache'.
    by destruct lazy, cache, par. }
  destruct (bool_decide (cache' = CachePROCESSED)); eexists;
    (split; [reflexivity|]); (split; [done|]); (split; [done|]);
    (split; [done|]); (split; [done|]);
    intros i Hi; destruct (Hread2 i Hi) as (x & Hx & Hget);
    exists x; (split; [done|]); rewrite <- Hvalue;
    unfold DataBase_getitem, source_getitem;
    cbn [_fully_cached _parallelize_processing _source set_reorder_cache];
    rewrite Hget; unfold set_source; cbn; by destruct par.
Qed.

End LazyRandomAccess.

(** X23.  Construction under a lazy strategy over a sequence source,
    possibly truncated and transformed, with or without a maximum dataset
    size, when [len] of the (truncated) source is [n > 0].  The engine
    supports random access, knows the size [n], and is not fully cached; a
    read at [0 <= i < n] returns the [i]-th element of the source, run
    through the processing routine exactly once, and leaves the engine as it
    is; only under the [process] lazy strategy with the [processed] cache
    strategy and [parallelize_processing] off the element comes back as the
    source gives it. *)
Theorem X23_lazy_engine_over_random_access
    (Obj : Type) (process : Obj → Obj) (fuel : nat)
    (source src : DataSource Obj) (hparams : HParams) (n : Z) :
  lazy_strategy hparams ≠ LazyNONE →
  random_access source = true →
  src = (if bool_decide (max_dataset_size hparams ≠ -1)
         then _TruncatedDataSource source (max_dataset_size hparams)
         else source) →
  builtin_len (DataSource_len src) = Ok n →
  0 < n →
  ∃ self,
    DataBase_init process fuel source hparams = Some (Ok self) ∧
    _supports_random_access self = true ∧
    _dataset_size self = Some n ∧
    _fully_cached self = false ∧
    ∀ i, 0 ≤ i < n →
      ∃ x, pending (DataSource_iter src) !! Z.to_nat i = Some x ∧
           DataBase_getitem process (IntIndex i) self =
             (Ok (if negb (parallelize_processing hparams) &&
                     bool_decide (lazy_strategy hparams = LazyPROCESS) &&
                     bool_decide (cache_strategy hparams = CachePROCESSED)
                  then x else process x), self).
Proof.
  intros Hlazy Hra Hsrc Hlen Hn.
  destruct (lazy_init_random_access process fuel source src hparams n)
    as (self & Hinit & Hsra & Hsize & Hfull & _ & Hread); try done.
  by exists self.
Qed.

Lemma X23_lazy_engine_over_random_access_witness :
  ∃ self,
    DataBase_init Z.succ 0 (SequenceDataSource [1; 2; 3; 4])
      {| num_parallel_calls := 1; max_dataset_size := 3;
         lazy_strategy := LazyALL; cache_strategy := CacheLOADED;
         parallelize_processing := false |} = Some (Ok self) ∧
    _supports_random_access self = true ∧
    _dataset_size self = Some 3 ∧
    _fully_cached self = false.
Proof.
  destruct (X23_lazy_engine_over_random_access Z Z.succ 0
              (SequenceDataSource [1; 2; 3; 4])
              (_TruncatedDataSource (SequenceDataSource [1; 2; 3; 4]) 3)
              {| num_parallel_calls := 1; max_dataset_size := 3;
                 lazy_strategy := LazyALL; cache_strategy := CacheLOADED;
                 parallelize_processing := false |} 3)
    as (self & Hinit & Hsra & Hsize & Hfull & _).
  - done.
  - reflexivity.
  - reflexivity.
  - reflexivity.
  - lia.
  - by exists self.
Defined.
